(** * AugmentOS: TPA session, user record and session resumption

    A shallow embedding of
    - [packages/sdk/src/tpa/session/index.ts] (class [TpaSession]): the
      subscription set, the outbound [send], the inbound message handler,
      the close handler and the reconnection with exponential backoff;
    - [cloud/src/models/user.model.ts]: the app lists of the user record,
      the settings of its apps, the list of installed apps and the
      pre-save middleware;
    - [packages/sdk/src/tpa/session/media.ts] (class [MediaControls]) and
      [validateTpaConfig] of [packages/sdk/types/src/models.ts];
    - the grace-period resumption of a user session, whose code is not
      part of the sources at hand and is modelled from the specification.

    JavaScript values are modelled by an inductive type, exceptions by an
    explicit completion ([Normal] / [Throw]) and the mutable session object
    by state passing.  What the session does to the outside world (events
    emitted, frames written to the socket, timers armed, promises
    resolved) is recorded in traces kept in the state.  An asynchronous
    method is read in sequence, one call followed to its end; the
    reconnection, whose calls overlap, is also run on an event loop of
    sockets and timers.  Numbers are integers. *)

From Stdlib Require Import Ascii String.
From stdpp Require Import base numbers strings list pretty gmap.

Local Open Scope string_scope.
Local Open Scope Z_scope.
Local Open Scope list_scope.

(** ** JavaScript strings

    A string is held as the bytes of its UTF-8 encoding, the form in
    which a text frame arrives ([data.toString('utf8')]) and in which a
    string literal of this file is stored.  A character outside ASCII is
    a sequence of two to four bytes. *)

Module JsString.

(** [String.prototype.includes]: [sub] occurs somewhere in [s]. *)
Fixpoint includes (s sub : string) : bool :=
  String.prefix sub s ||
  match s with
  | EmptyString => false
  | String _ s' => includes s' sub
  end.

(** The UTF-8 encoding of a code point of the basic multilingual plane. *)
Definition utf8 (cp : N) : string :=
  let byte (n : N) := String (ascii_of_N n) in
  if (cp <? 0x80)%N then byte cp ""
  else if (cp <? 0x800)%N then
    byte (0xC0 + cp / 0x40)%N (byte (0x80 + cp mod 0x40)%N "")
  else
    byte (0xE0 + cp / 0x1000)%N
      (byte (0x80 + (cp / 0x40) mod 0x40)%N (byte (0x80 + cp mod 0x40)%N "")).

(** The code points that [String.prototype.trim] removes and that [\s]
    matches: the white space and the line terminators of ECMAScript.
    Tab, line feed, vertical tab, form feed, carriage return, space,
    no-break space, ogham space mark, en quad to hair space, line and
    paragraph separator, narrow no-break space, medium mathematical
    space, ideographic space and the byte order mark. *)
Definition white_space : list N :=
  [0x09; 0x0A; 0x0B; 0x0C; 0x0D; 0x20; 0xA0; 0x1680;
   0x2000; 0x2001; 0x2002; 0x2003; 0x2004; 0x2005; 0x2006; 0x2007;
   0x2008; 0x2009; 0x200A; 0x2028; 0x2029; 0x202F; 0x205F; 0x3000;
   0xFEFF]%N.

(** [s] without its prefix [p], if it starts with [p]. *)
Fixpoint strip_prefix (p s : string) : option string :=
  match p, s with
  | EmptyString, _ => Some s
  | String a p', String b s' => if Ascii.eqb a b then strip_prefix p' s' else None
  | String _ _, EmptyString => None
  end.

(** [s] without the first of the [patterns] it starts with. *)
Fixpoint strip_one (patterns : list string) (s : string) : option string :=
  match patterns with
  | [] => None
  | p :: rest =>
      match strip_prefix p s with
      | Some s' => Some s'
      | None => strip_one rest s
      end
  end.

(** [s] without its leading [patterns]; every step removes a byte at
    least, so that the length of [s] is fuel enough. *)
Fixpoint strip_all (patterns : list string) (fuel : nat) (s : string) : string :=
  match fuel with
  | O => s
  | S fuel =>
      match strip_one patterns s with
      | Some s' => strip_all patterns fuel s'
      | None => s
      end
  end.

(** [String.prototype.trimStart], [trimEnd] and [trim].  An encoded white
    space at the end of [s] is an encoded white space, read backwards, at
    the start of [s] read backwards. *)
Definition trimStart (s : string) : string :=
  strip_all (utf8 <$> white_space) (String.length s) s.

Definition trimEnd (s : string) : string :=
  String.rev
    (strip_all ((fun cp => String.rev (utf8 cp)) <$> white_space)
       (String.length s) (String.rev s)).

Definition trim (s : string) : string := trimEnd (trimStart s).

(** [String.prototype.toLowerCase] on the ASCII range: the letters
    [A]..[Z] are mapped to [a]..[z], every other byte is kept.  A
    capital letter outside ASCII is therefore left as it is; what is
    stated of the result of the conversion is stated of strings written
    in ASCII. *)
Definition is_upper (c : ascii) : bool :=
  let n := nat_of_ascii c in (65 <=? n)%nat && (n <=? 90)%nat.

Definition lower_char (c : ascii) : ascii :=
  if is_upper c then ascii_of_nat (nat_of_ascii c + 32) else c.

Fixpoint toLowerCase (s : string) : string :=
  match s with
  | EmptyString => EmptyString
  | String c s' => String (lower_char c) (toLowerCase s')
  end.


(** A string is truthy unless it is empty. *)
Definition nonempty (s : string) : bool := negb (String.eqb s "").


End JsString.

(** ** Completions: a call returns normally or throws an [Error] *)

Inductive Completion (A : Type) : Type :=
| Normal (a : A)
| Throw (message : string).
Arguments Normal {A} a.
Arguments Throw {A} message.

Definition throws {A} (c : Completion A) : bool :=
  match c with Normal _ => false | Throw _ => true end.

#[global] Instance completion_ret : MRet Completion := fun _ a => Normal a.
#[global] Instance completion_bind : MBind Completion := fun _ _ f c =>
  match c with
  | Normal a => f a
  | Throw e => Throw e
  end.

(** Sequencing, written in the order of the source: first the call, then
    what follows it. *)
Definition and_then {M : Type -> Type} `{MBind M} {A B : Type}
    (m : M A) (k : A -> M B) : M B := mbind k m.

Declare Scope js_scope.
Delimit Scope js_scope with js.
Notation "x <- m ; k" := (and_then m (fun x => k))
  (at level 100, m at next level, right associativity) : js_scope.
Notation "m ;; k" := (and_then m (fun _ => k))
  (at level 100, right associativity) : js_scope.
Local Open Scope js_scope.

(** [try { body } catch (e) { handler e }] without state. *)
Definition catchC {A} (body : Completion A) (handler : string -> Completion A)
  : Completion A :=
  match body with
  | Normal a => Normal a
  | Throw e => handler e
  end.

(** ** JavaScript values *)

#[warnings="-register-all"] Inductive JsValue : Type :=
| JUndefined
| JNull
| JBool (b : bool)
| JNum (n : Z)
| JStr (s : string)
| JArr (items : list JsValue)
| JObj (fields : list (string * JsValue))
| JError (message : string)
| JDate (millis : Z)
| JArrayBuffer (bytes : string).

Module Js.

(** [!!v] *)
Definition truthy (v : JsValue) : bool :=
  match v with
  | JUndefined | JNull => false
  | JBool b => b
  | JNum n => negb (n =? 0)
  | JStr s => JsString.nonempty s
  | _ => true
  end.

(** [typeof v === 'object'] *)
Definition is_object (v : JsValue) : bool :=
  match v with
  | JNull | JArr _ | JObj _ | JError _ | JDate _ | JArrayBuffer _ => true
  | _ => false
  end.

Definition is_string (v : JsValue) : bool :=
  match v with JStr _ => true | _ => false end.

Definition is_nullish (v : JsValue) : bool :=
  match v with JUndefined | JNull => true | _ => false end.

Definition is_ArrayBuffer (v : JsValue) : bool :=
  match v with JArrayBuffer _ => true | _ => false end.

Definition is_Date (v : JsValue) : bool :=
  match v with JDate _ => true | _ => false end.

(** [v === s] for a string constant [s]. *)
Definition is_str (v : JsValue) (s : string) : bool :=
  match v with JStr s' => String.eqb s' s | _ => false end.

Fixpoint assoc (k : string) (fields : list (string * JsValue)) : option JsValue :=
  match fields with
  | [] => None
  | (k', v) :: rest => if String.eqb k k' then Some v else assoc k rest
  end.

(** [o[k] = v] on the fields of an object: an existing key keeps its
    place, a new key goes last. *)
Fixpoint assign (k : string) (v : JsValue) (fields : list (string * JsValue))
  : list (string * JsValue) :=
  match fields with
  | [] => [(k, v)]
  | (k', v') :: rest =>
      if String.eqb k k' then (k, v) :: rest else (k', v') :: assign k v rest
  end.

(** The property read [v.k].  Reading a property of [null] or
    [undefined] throws a [TypeError]; own data properties are found in
    objects, [length] in arrays and strings, [message] in errors and
    [byteLength] in array buffers; anything else is [undefined]. *)
Definition get (v : JsValue) (k : string) : Completion JsValue :=
  match v with
  | JUndefined | JNull =>
      Throw ("Cannot read properties of null or undefined (reading '" +:+ k +:+ "')")
  | JObj fields => Normal (default JUndefined (assoc k fields))
  | JArr items =>
      Normal (if String.eqb k "length" then JNum (Z.of_nat (length items))
              else JUndefined)
  | JStr s =>
      Normal (if String.eqb k "length" then JNum (Z.of_nat (String.length s))
              else JUndefined)
  | JError m => Normal (if String.eqb k "message" then JStr m else JUndefined)
  | JArrayBuffer b =>
      Normal (if String.eqb k "byteLength" then JNum (Z.of_nat (String.length b))
              else JUndefined)
  | _ => Normal JUndefined
  end.

(** [k in v]: throws a [TypeError] when [v] is not an object. *)
Definition has_in (k : string) (v : JsValue) : Completion bool :=
  match v with
  | JObj fields => Normal (bool_decide (is_Some (assoc k fields)))
  | JArr _ => Normal (String.eqb k "length")
  | JError _ => Normal (String.eqb k "message")
  | JArrayBuffer _ => Normal (String.eqb k "byteLength")
  | JDate _ => Normal false
  | _ => Throw ("Cannot use 'in' operator to search for '" +:+ k +:+ "'")
  end.

(** [a || b] *)
Definition or_else (a b : JsValue) : JsValue := if truthy a then a else b.

(** The fields copied by an object spread [{...v}]. *)
Definition spread (v : JsValue) : list (string * JsValue) :=
  match v with
  | JObj fields => fields
  | JArr items => imap (fun i x => (pretty i, x)) items
  | JStr s =>
      imap (fun i c => (pretty i, JStr (String c EmptyString)))
           (list_ascii_of_string s)
  | _ => []
  end.

End Js.

(** ** What the session takes from modules that are not at hand

    [TpaSession] imports its type guards, the members of its enums and the
    managers of settings and dashboard from other modules, and it relies
    on the platform for [JSON.parse], [String(...)] and the clock.  They
    are parameters of the development; a call into a collaborator returns
    a completion, so that it may throw. *)

Class Externals : Type := {
  (* platform *)
  JSON_parse : string -> Completion JsValue;
  js_String : JsValue -> string;
  Date_now : Z;
  (* type guards of ../../types *)
  isTpaConnectionAck : JsValue -> bool;
  isTpaConnectionError : JsValue -> bool;
  isDataStream : JsValue -> bool;
  isAppStopped : JsValue -> bool;
  isSettingsUpdate : JsValue -> bool;
  isPhotoResponse : JsValue -> bool;
  isDashboardModeChanged : JsValue -> bool;
  isDashboardAlwaysOnChanged : JsValue -> bool;
  isMediaStateUpdate : JsValue -> bool;
  isMediaMetadataUpdate : JsValue -> bool;
  isMediaSessionEndedUpdate : JsValue -> bool;
  validateTpaConfig : JsValue -> Completion bool;
  (* members of StreamType, CloudToTpaMessageType, TpaToCloudMessageType *)
  AUDIO_CHUNK : string;
  HEAD_POSITION : string;
  BUTTON_PRESS : string;
  MEDIA_STATE : string;
  MEDIA_METADATA : string;
  MEDIA_SESSION_ENDED : string;
  CUSTOM_MESSAGE : string;
  CONNECTION_INIT : string;
  SUBSCRIPTION_UPDATE : string;
  (* SettingsManager and DashboardManager *)
  settings_updateSettings : JsValue -> Completion JsValue;
  settings_updateAugmentosSettings : JsValue -> Completion unit;
  dashboard_has_content : bool;
  dashboard_setCurrentMode : JsValue -> Completion unit;
  dashboard_setAlwaysOnEnabled : bool -> Completion unit
}.

(** Modelled from the spec: the members [TRANSCRIPTION] and [TRANSLATION]
    of the enum [StreamType], which is not at hand; the spec names the
    unparameterized stream keys [transcription] and [translation]. *)
Definition TRANSCRIPTION : string := "transcription".

(** Modelled from the spec: the member [TRANSLATION] of the same enum. *)
Definition TRANSLATION : string := "translation".

(** [String(v)], also the interpolation [`${v}`]: a string is itself. *)
Definition toString `{Externals} (v : JsValue) : string :=
  match v with JStr s => s | other => js_String other end.

(** Modelled from the spec: [createTranscriptionStream] of ../../types,
    which is not at hand; the spec writes the language-parameterized key
    as [transcription:en-US], the base key, a colon and the language. *)
Definition createTranscriptionStream `{Externals} (language : JsValue) : string :=
  TRANSCRIPTION +:+ ":" +:+ toString language.

(** Modelled from the spec: [createTranslationStream] of ../../types,
    which is not at hand; the spec writes the key of a language pair as
    [translation:es-ES:en-US]. *)
Definition createTranslationStream `{Externals} (source target : JsValue) : string :=
  TRANSLATION +:+ ":" +:+ toString source +:+ ":" +:+ toString target.

(** ** The session object *)

(** The socket as far as the session looks at it: its [readyState]
    (0 connecting, 1 open, 2 closing, 3 closed) and whether the
    serialisation and write of a frame would throw. *)
Record WebSocket : Type := {
  readyState : Z;
  sendThrows : option string
}.

Record TpaSessionConfig : Type := {
  packageName : string;
  apiKey : string;
  augmentOSWebsocketUrl : option string;
  autoReconnect : option bool;
  maxReconnectAttempts : option Z;
  reconnectDelay : option Z;
  userId : string
}.

(** The defaults the constructor merges under the given configuration. *)
Definition withDefaults (c : TpaSessionConfig) : TpaSessionConfig :=
  {| packageName := packageName c;
     apiKey := apiKey c;
     augmentOSWebsocketUrl :=
       Some (default "ws://localhost:8002/tpa-ws" (augmentOSWebsocketUrl c));
     autoReconnect := Some (default true (autoReconnect c));
     maxReconnectAttempts := Some (default 3 (maxReconnectAttempts c));
     reconnectDelay := Some (default 1000 (reconnectDelay c));
     userId := userId c |}.

Inductive TimerKind : Type :=
| ReconnectBackoff
| ConnectionTimeout
| PhotoRequestTimeout.

#[global] Instance TimerKind_eq_dec : EqDecision TimerKind.
Proof. solve_decision. Defined.

Record Timer : Type := { purpose : TimerKind; delay : Z }.

Record TpaSession : Type := {
  ws : option WebSocket;
  sessionId : option string;
  reconnectAttempts : nat;
  subscriptions : list string;
  settingsData : JsValue;
  tpaConfig : option JsValue;
  shouldUpdateSubscriptionsOnSettingsChange : bool;
  subscriptionSettingsHandler : option (JsValue -> Completion (list string));
  subscriptionUpdateTriggers : list string;
  pendingPhotoRequests : list string;
  config : TpaSessionConfig;
  (* what the session did, oldest first *)
  emitted : list (string * JsValue);
  sent : list JsValue;
  timers : list Timer;
  resolvedPhotos : list (string * JsValue)
}.

(** A freshly constructed session. *)
Definition new_TpaSession (c : TpaSessionConfig) : TpaSession :=
  {| ws := None; sessionId := None; reconnectAttempts := 0%nat;
     subscriptions := []; settingsData := JArr []; tpaConfig := None;
     shouldUpdateSubscriptionsOnSettingsChange := false;
     subscriptionSettingsHandler := None;
     subscriptionUpdateTriggers := [];
     pendingPhotoRequests := [];
     config := withDefaults c;
     emitted := []; sent := []; timers := []; resolvedPhotos := [] |}.

(** Assignments to the fields of the session. *)
Definition set_ws (v : option WebSocket) (s : TpaSession) : TpaSession :=
  {| ws := v;
     sessionId := sessionId s;
     reconnectAttempts := reconnectAttempts s;
     subscriptions := subscriptions s;
     settingsData := settingsData s;
     tpaConfig := tpaConfig s;
     shouldUpdateSubscriptionsOnSettingsChange := shouldUpdateSubscriptionsOnSettingsChange s;
     subscriptionSettingsHandler := subscriptionSettingsHandler s;
     subscriptionUpdateTriggers := subscriptionUpdateTriggers s;
     pendingPhotoRequests := pendingPhotoRequests s;
     config := config s;
     emitted := emitted s;
     sent := sent s;
     timers := timers s;
     resolvedPhotos := resolvedPhotos s |}.

Definition set_sessionId (v : option string) (s : TpaSession) : TpaSession :=
  {| ws := ws s;
     sessionId := v;
     reconnectAttempts := reconnectAttempts s;
     subscriptions := subscriptions s;
     settingsData := settingsData s;
     tpaConfig := tpaConfig s;
     shouldUpdateSubscriptionsOnSettingsChange := shouldUpdateSubscriptionsOnSettingsChange s;
     subscriptionSettingsHandler := subscriptionSettingsHandler s;
     subscriptionUpdateTriggers := subscriptionUpdateTriggers s;
     pendingPhotoRequests := pendingPhotoRequests s;
     config := config s;
     emitted := emitted s;
     sent := sent s;
     timers := timers s;
     resolvedPhotos := resolvedPhotos s |}.

Definition set_reconnectAttempts (v : nat) (s : TpaSession) : TpaSession :=
  {| ws := ws s;
     sessionId := sessionId s;
     reconnectAttempts := v;
     subscriptions := subscriptions s;
     settingsData := settingsData s;
     tpaConfig := tpaConfig s;
     shouldUpdateSubscriptionsOnSettingsChange := shouldUpdateSubscriptionsOnSettingsChange s;
     subscriptionSettingsHandler := subscriptionSettingsHandler s;
     subscriptionUpdateTriggers := subscriptionUpdateTriggers s;
     pendingPhotoRequests := pendingPhotoRequests s;
     config := config s;
     emitted := emitted s;
     sent := sent s;
     timers := timers s;
     resolvedPhotos := resolvedPhotos s |}.

Definition set_subscriptions (v : list string) (s : TpaSession) : TpaSession :=
  {| ws := ws s;
     sessionId := sessionId s;
     reconnectAttempts := reconnectAttempts s;
     subscriptions := v;
     settingsData := settingsData s;
     tpaConfig := tpaConfig s;
     shouldUpdateSubscriptionsOnSettingsChange := shouldUpdateSubscriptionsOnSettingsChange s;
     subscriptionSettingsHandler := subscriptionSettingsHandler s;
     subscriptionUpdateTriggers := subscriptionUpdateTriggers s;
     pendingPhotoRequests := pendingPhotoRequests s;
     config := config s;
     emitted := emitted s;
     sent := sent s;
     timers := timers s;
     resolvedPhotos := resolvedPhotos s |}.

Definition set_settingsData (v : JsValue) (s : TpaSession) : TpaSession :=
  {| ws := ws s;
     sessionId := sessionId s;
     reconnectAttempts := reconnectAttempts s;
     subscriptions := subscriptions s;
     settingsData := v;
     tpaConfig := tpaConfig s;
     shouldUpdateSubscriptionsOnSettingsChange := shouldUpdateSubscriptionsOnSettingsChange s;
     subscriptionSettingsHandler := subscriptionSettingsHandler s;
     subscriptionUpdateTriggers := subscriptionUpdateTriggers s;
     pendingPhotoRequests := pendingPhotoRequests s;
     config := config s;
     emitted := emitted s;
     sent := sent s;
     timers := timers s;
     resolvedPhotos := resolvedPhotos s |}.

Definition set_tpaConfig (v : option JsValue) (s : TpaSession) : TpaSession :=
  {| ws := ws s;
     sessionId := sessionId s;
     reconnectAttempts := reconnectAttempts s;
     subscriptions := subscriptions s;
     settingsData := settingsData s;
     tpaConfig := v;
     shouldUpdateSubscriptionsOnSettingsChange := shouldUpdateSubscriptionsOnSettingsChange s;
     subscriptionSettingsHandler := subscriptionSettingsHandler s;
     subscriptionUpdateTriggers := subscriptionUpdateTriggers s;
     pendingPhotoRequests := pendingPhotoRequests s;
     config := config s;
     emitted := emitted s;
     sent := sent s;
     timers := timers s;
     resolvedPhotos := resolvedPhotos s |}.

(** [setSubscriptionSettings] assigns the handler, its triggers and the flag. *)
Definition set_subscriptionSettings
    (h : JsValue -> Completion (list string)) (triggers : list string)
    (s : TpaSession) : TpaSession :=
  {| ws := ws s;
     sessionId := sessionId s;
     reconnectAttempts := reconnectAttempts s;
     subscriptions := subscriptions s;
     settingsData := settingsData s;
     tpaConfig := tpaConfig s;
     shouldUpdateSubscriptionsOnSettingsChange := true;
     subscriptionSettingsHandler := Some h;
     subscriptionUpdateTriggers := triggers;
     pendingPhotoRequests := pendingPhotoRequests s;
     config := config s;
     emitted := emitted s;
     sent := sent s;
     timers := timers s;
     resolvedPhotos := resolvedPhotos s |}.

Definition set_pendingPhotoRequests (v : list string) (s : TpaSession) : TpaSession :=
  {| ws := ws s;
     sessionId := sessionId s;
     reconnectAttempts := reconnectAttempts s;
     subscriptions := subscriptions s;
     settingsData := settingsData s;
     tpaConfig := tpaConfig s;
     shouldUpdateSubscriptionsOnSettingsChange := shouldUpdateSubscriptionsOnSettingsChange s;
     subscriptionSettingsHandler := subscriptionSettingsHandler s;
     subscriptionUpdateTriggers := subscriptionUpdateTriggers s;
     pendingPhotoRequests := v;
     config := config s;
     emitted := emitted s;
     sent := sent s;
     timers := timers s;
     resolvedPhotos := resolvedPhotos s |}.

Definition set_emitted (v : list (string * JsValue)) (s : TpaSession) : TpaSession :=
  {| ws := ws s;
     sessionId := sessionId s;
     reconnectAttempts := reconnectAttempts s;
     subscriptions := subscriptions s;
     settingsData := settingsData s;
     tpaConfig := tpaConfig s;
     shouldUpdateSubscriptionsOnSettingsChange := shouldUpdateSubscriptionsOnSettingsChange s;
     subscriptionSettingsHandler := subscriptionSettingsHandler s;
     subscriptionUpdateTriggers := subscriptionUpdateTriggers s;
     pendingPhotoRequests := pendingPhotoRequests s;
     config := config s;
     emitted := v;
     sent := sent s;
     timers := timers s;
     resolvedPhotos := resolvedPhotos s |}.

Definition set_sent (v : list JsValue) (s : TpaSession) : TpaSession :=
  {| ws := ws s;
     sessionId := sessionId s;
     reconnectAttempts := reconnectAttempts s;
     subscriptions := subscriptions s;
     settingsData := settingsData s;
     tpaConfig := tpaConfig s;
     shouldUpdateSubscriptionsOnSettingsChange := shouldUpdateSubscriptionsOnSettingsChange s;
     subscriptionSettingsHandler := subscriptionSettingsHandler s;
     subscriptionUpdateTriggers := subscriptionUpdateTriggers s;
     pendingPhotoRequests := pendingPhotoRequests s;
     config := config s;
     emitted := emitted s;
     sent := v;
     timers := timers s;
     resolvedPhotos := resolvedPhotos s |}.

Definition set_timers (v : list Timer) (s : TpaSession) : TpaSession :=
  {| ws := ws s;
     sessionId := sessionId s;
     reconnectAttempts := reconnectAttempts s;
     subscriptions := subscriptions s;
     settingsData := settingsData s;
     tpaConfig := tpaConfig s;
     shouldUpdateSubscriptionsOnSettingsChange := shouldUpdateSubscriptionsOnSettingsChange s;
     subscriptionSettingsHandler := subscriptionSettingsHandler s;
     subscriptionUpdateTriggers := subscriptionUpdateTriggers s;
     pendingPhotoRequests := pendingPhotoRequests s;
     config := config s;
     emitted := emitted s;
     sent := sent s;
     timers := v;
     resolvedPhotos := resolvedPhotos s |}.

Definition set_resolvedPhotos (v : list (string * JsValue)) (s : TpaSession) : TpaSession :=
  {| ws := ws s;
     sessionId := sessionId s;
     reconnectAttempts := reconnectAttempts s;
     subscriptions := subscriptions s;
     settingsData := settingsData s;
     tpaConfig := tpaConfig s;
     shouldUpdateSubscriptionsOnSettingsChange := shouldUpdateSubscriptionsOnSettingsChange s;
     subscriptionSettingsHandler := subscriptionSettingsHandler s;
     subscriptionUpdateTriggers := subscriptionUpdateTriggers s;
     pendingPhotoRequests := pendingPhotoRequests s;
     config := config s;
     emitted := emitted s;
     sent := sent s;
     timers := timers s;
     resolvedPhotos := v |}.

(** ** Methods run on the session: state passing with exceptions

    A method takes the session and returns the session it leaves behind
    together with its completion; what was assigned before a [throw]
    stays assigned. *)

Definition Eff (A : Type) : Type := TpaSession -> TpaSession * Completion A.

#[global] Instance eff_ret : MRet Eff := fun _ a st => (st, Normal a).
#[global] Instance eff_bind : MBind Eff := fun _ _ f c st =>
  match c st with
  | (st', Normal a) => f a st'
  | (st', Throw e) => (st', Throw e)
  end.

Definition gets {A} (f : TpaSession -> A) : Eff A := fun st => (st, Normal (f st)).
Definition modify (f : TpaSession -> TpaSession) : Eff unit := fun st => (f st, Normal tt).
Definition throw {A} (e : string) : Eff A := fun st => (st, Throw e).
Definition liftC {A} (c : Completion A) : Eff A := fun st => (st, c).
Definition skip : Eff unit := mret tt.

(** [try { body } catch (e) { handler e }] *)
Definition try_catch {A} (body : Eff A) (handler : string -> Eff A) : Eff A :=
  fun st =>
    match body st with
    | (st', Normal a) => (st', Normal a)
    | (st', Throw e) => handler e st'
    end.

Definition run {A} (m : Eff A) (st : TpaSession) : TpaSession := fst (m st).
Definition completion {A} (m : Eff A) (st : TpaSession) : Completion A := snd (m st).

(** A method leaves an observation of the session as it found it. *)
Definition preserves {X A : Type} (f : TpaSession -> X) (m : Eff A) : Prop :=
  forall st, f (fst (m st)) = f st.

(** A method returns normally, whatever the session. *)
Definition never_throws {A : Type} (m : Eff A) : Prop :=
  forall st, throws (snd (m st)) = false.

(** The connection as the session holds it: the socket and the timers. *)
Definition link (st : TpaSession) : option WebSocket * list Timer :=
  (ws st, timers st).

(** The delays of the reconnection timers armed so far, oldest first. *)
Definition backoff_delays (st : TpaSession) : list Z :=
  delay <$> filter (fun t => purpose t = ReconnectBackoff) (timers st).



(** ** [Set<ExtendedStreamType>]: a set that remembers insertion order *)

Module JsSet.
Definition has (x : string) (s : list string) : bool := bool_decide (x ∈ s).
Definition add (x : string) (s : list string) : list string :=
  if has x s then s else s ++ [x].
Definition delete (x : string) (s : list string) : list string :=
  filter (fun y => y ≠ x) s.
Definition clear (s : list string) : list string := [].
(** [xs.forEach(x => s.add(x))] *)
Definition add_all (xs : list string) (s : list string) : list string :=
  foldl (fun acc x => add x acc) s xs.
End JsSet.

(** The branches of the [if] chain of [handleMessage]. *)
Inductive Branch : Type :=
| ConnectionAck
| ConnectionError
| AudioChunk
| DataStream
| PhotoResponse
| SettingsUpdate
| AppStopped
| DashboardModeChanged
| DashboardAlwaysOnChanged
| CustomMessage
| ConnectionErrorLiteral
| AugmentosSettingsUpdate
| MediaStateUpdate
| MediaMetadataUpdate
| MediaSessionEndedUpdate
| Unrecognized.

Definition dquote : string := String (ascii_of_nat 34) "".

Section TpaSessionMethods.
Context `{Ext : Externals}.

(** [this.events.emit(event, data)]: the event manager is not at hand;
    an emission is recorded under the key it was emitted with. *)
Definition emit (event : string) (data : JsValue) : Eff unit :=
  modify (fun st => set_emitted (emitted st ++ [(event, data)]) st).

(** [this.resources.setTimeout(callback, ms)] *)
Definition setTimeout (kind : TimerKind) (ms : Z) : Eff unit :=
  modify (fun st => set_timers (timers st ++ [{| purpose := kind; delay := ms |}]) st).

(** [this.ws?.readyState === 1] *)
Definition ws_is_open (st : TpaSession) : bool :=
  match ws st with
  | Some sock => readyState sock =? 1
  | None => false
  end.

Definition stateName (rs : Z) : string :=
  if rs =? 0 then "CONNECTING"
  else if rs =? 1 then "OPEN"
  else if rs =? 2 then "CLOSING"
  else if rs =? 3 then "CLOSED"
  else "UNKNOWN".

Definition option_to_js (o : option string) : JsValue :=
  match o with Some s => JStr s | None => JNull end.

(** [message.timestamp = new Date()] *)
Definition set_timestamp (message : JsValue) : JsValue :=
  match message with
  | JObj fields => JObj (Js.assign "timestamp" (JDate Date_now) fields)
  | other => other
  end.

(** [private send(message: TpaToCloudMessage): void] *)
Definition send (message : JsValue) : Eff unit :=
  try_catch
    (sock <- gets ws;
     match sock with
     | None => throw "WebSocket connection not established"
     | Some sock =>
         if negb (readyState sock =? 1) then
           throw ("WebSocket not connected (current state: "
                  +:+ stateName (readyState sock) +:+ ")")
         else if negb (Js.truthy message) || negb (Js.is_object message) then
           throw "Invalid message: must be an object"
         else
           has_type <- liftC (Js.has_in "type" message);
           if negb has_type then
             throw ("Invalid message: missing " +:+ dquote +:+ "type"
                    +:+ dquote +:+ " property")
           else
             has_ts <- liftC (Js.has_in "timestamp" message);
             ts <- liftC (Js.get message "timestamp");
             let message :=
               if negb has_ts || negb (Js.is_Date ts)
               then set_timestamp message else message in
             try_catch
               (match sendThrows sock with
                | Some e => throw e
                | None => modify (fun st => set_sent (sent st ++ [message]) st)
                end)
               (fun e => throw ("Failed to send message: " +:+ e))
     end)
    (fun e => emit "error" (JError e);; throw e).

(** [private sendConnectionInit(): void] *)
Definition sendConnectionInit : Eff unit :=
  st <- gets id;
  send (JObj [("type", JStr CONNECTION_INIT);
              ("sessionId", option_to_js (sessionId st));
              ("packageName", JStr (packageName (config st)));
              ("apiKey", JStr (apiKey (config st)));
              ("timestamp", JDate Date_now)]).

Definition subscription_update_message (st : TpaSession) : JsValue :=
  JObj [("type", JStr SUBSCRIPTION_UPDATE);
        ("packageName", JStr (packageName (config st)));
        ("subscriptions", JArr (JStr <$> subscriptions st));
        ("sessionId", option_to_js (sessionId st));
        ("timestamp", JDate Date_now)].

(** [private updateSubscriptions(): void] *)
Definition updateSubscriptions : Eff unit :=
  st <- gets id;
  send (subscription_update_message st).

(** [subscribe(type: ExtendedStreamType): void] *)
Definition subscribe (type : string) : Eff unit :=
  modify (fun st => set_subscriptions (JsSet.add type (subscriptions st)) st);;
  open <- gets ws_is_open;
  if open then updateSubscriptions else skip.

(** [unsubscribe(type: ExtendedStreamType): void] *)
Definition unsubscribe (type : string) : Eff unit :=
  modify (fun st => set_subscriptions (JsSet.delete type (subscriptions st)) st);;
  open <- gets ws_is_open;
  if open then updateSubscriptions else skip.

(** [private updateSubscriptionsFromSettings(): void] *)
Definition updateSubscriptionsFromSettings : Eff unit :=
  handler <- gets subscriptionSettingsHandler;
  match handler with
  | None => skip
  | Some handler =>
      try_catch
        (settings <- gets settingsData;
         newSubscriptions <- liftC (handler settings);
         modify (fun st => set_subscriptions (JsSet.clear (subscriptions st)) st);;
         modify (fun st =>
           set_subscriptions (JsSet.add_all newSubscriptions (subscriptions st)) st);;
         open <- gets ws_is_open;
         if open then updateSubscriptions else skip)
        (fun e => emit "error" (JError ("Failed to update subscriptions: " +:+ e)))
  end.

(** [v.length > 0] *)
Definition length_positive (v : JsValue) : Completion bool :=
  len <- Js.get v "length";
  mret (match len with JNum n => 0 <? n | _ => false end).

(** [v.length === 0] *)
Definition length_zero (v : JsValue) : Completion bool :=
  len <- Js.get v "length";
  mret (match len with JNum n => n =? 0 | _ => false end).

(** [setSubscriptionSettings(options)] *)
Definition setSubscriptionSettings
    (updateOnChange : list string)
    (handler : JsValue -> Completion (list string)) : Eff unit :=
  modify (set_subscriptionSettings handler updateOnChange);;
  settings <- gets settingsData;
  nonempty <- liftC (length_positive settings);
  if nonempty then updateSubscriptionsFromSettings else skip.

(** [private sanitizeEventData(streamType, data): any] *)
Definition sanitizeEventData (streamType : string) (data : JsValue) : JsValue :=
  let body : Completion JsValue :=
    if Js.is_nullish data then mret (JObj [])
    else if String.eqb streamType TRANSCRIPTION then
      text <- Js.get data "text";
      if negb (Js.is_string text) then
        mret (JObj [("text", JStr ""); ("isFinal", JBool true);
                    ("startTime", JNum Date_now); ("endTime", JNum Date_now)])
      else mret data
    else if String.eqb streamType HEAD_POSITION then
      position <- Js.get data "position";
      if negb (Js.is_string position) then
        mret (JObj [("position", JStr "up"); ("timestamp", JDate Date_now)])
      else mret data
    else if String.eqb streamType BUTTON_PRESS then
      buttonId <- Js.get data "buttonId";
      pressType <- Js.get data "pressType";
      if negb (Js.truthy buttonId) || negb (Js.truthy pressType) then
        mret (JObj [("buttonId", JStr "unknown"); ("pressType", JStr "short");
                    ("timestamp", JDate Date_now)])
      else mret data
    else mret data in
  match body with
  | Normal v => v
  | Throw _ => JObj []
  end.

(** [private handleBinaryMessage(buffer: ArrayBuffer): void] *)
Definition handleBinaryMessage (buffer : JsValue) : Eff unit :=
  try_catch
    (subs <- gets subscriptions;
     if negb (JsSet.has AUDIO_CHUNK subs) then skip
     else
       empty <- (if negb (Js.truthy buffer) then mret true
                 else byteLength <- liftC (Js.get buffer "byteLength");
                      mret (match byteLength with JNum n => n =? 0 | _ => false end));
       if (empty : bool)
       then emit "error" (JError "Received empty binary message")
       else emit AUDIO_CHUNK
              (JObj [("type", JStr AUDIO_CHUNK); ("timestamp", JDate Date_now);
                     ("arrayBuffer", buffer); ("sampleRate", JNum 16000)]))
    (fun e => emit "error" (JError ("Error processing binary message: " +:+ e))).

(** [private validateMessage(message): boolean] *)
Definition validateMessage (message : JsValue) : Completion bool :=
  if Js.is_ArrayBuffer message then mret true
  else if negb (Js.truthy message) then mret false
  else
    has_type <- Js.has_in "type" message;
    if negb has_type then mret false else mret true.

(** [getDefaultSettings(): AppSettings]: the settings of the loaded
    configuration that are not groups, each with its default as value. *)
Fixpoint filter_not_group (settings : list JsValue) : Completion (list JsValue) :=
  match settings with
  | [] => mret []
  | s :: rest =>
      type <- Js.get s "type";
      rest' <- filter_not_group rest;
      mret (if negb (Js.is_str type "group") then s :: rest' else rest')
  end.

Fixpoint map_with_value (settings : list JsValue) : Completion (list JsValue) :=
  match settings with
  | [] => mret []
  | s :: rest =>
      defaultValue <- Js.get s "defaultValue";
      rest' <- map_with_value rest;
      mret (JObj (Js.assign "value" defaultValue (Js.spread s)) :: rest')
  end.

Definition getDefaultSettings : Eff JsValue :=
  cfg <- gets tpaConfig;
  match cfg with
  | None => throw "TPA configuration not loaded. Call loadConfigFromJson first."
  | Some cfg =>
      settings <- liftC (Js.get cfg "settings");
      match settings with
      | JArr items =>
          kept <- liftC (filter_not_group items);
          mapped <- liftC (map_with_value kept);
          mret (JArr mapped)
      | _ => throw "this.tpaConfig.settings.filter is not a function"
      end
  end.

(** [triggers.some(key => key in changes)] *)
Fixpoint some_key_in (triggers : list string) (changes : JsValue) : Completion bool :=
  match triggers with
  | [] => mret false
  | key :: rest =>
      found <- Js.has_in key changes;
      if (found : bool) then mret true else some_key_in rest changes
  end.

(** The ['disconnected'] event that reports a permanent disconnection. *)
Definition disconnected_permanent (maxAttempts : Z) : JsValue :=
  JObj [("message", JStr ("Connection permanently lost after " +:+ pretty maxAttempts
                          +:+ " failed reconnection attempts"));
        ("code", JNum 4000);
        ("reason", JStr "Maximum reconnection attempts exceeded");
        ("wasClean", JBool false);
        ("permanent", JBool true)].

(** The branches of [handleMessage], in the order of its [if] chain. *)

Definition onConnectionAck (message : JsValue) : Eff unit :=
  settings <- liftC (Js.get message "settings");
  let receivedSettings := Js.or_else settings (JArr []) in
  modify (set_settingsData receivedSettings);;
  cfg <- liftC (Js.get message "config");
  valid <- (if Js.truthy cfg then liftC (validateTpaConfig cfg) else mret false);
  (if (valid : bool) then modify (set_tpaConfig (Some cfg)) else skip);;
  empty <- liftC (length_zero receivedSettings);
  loaded <- gets tpaConfig;
  (if (empty : bool) && bool_decide (is_Some loaded) then
     try_catch (defaults <- getDefaultSettings; modify (set_settingsData defaults))
               (fun _ => skip)
   else skip);;
  current <- gets settingsData;
  liftC (settings_updateSettings current);;
  emit "connected" current;;
  updateSubscriptions;;
  should <- gets shouldUpdateSubscriptionsOnSettingsChange;
  if (should : bool) then
    nonempty <- liftC (length_positive current);
    if (nonempty : bool) then updateSubscriptionsFromSettings else skip
  else skip.

Definition onConnectionError (message : JsValue) : Eff unit :=
  text <- liftC (Js.get message "message");
  emit "error" (JError (toString (Js.or_else text (JStr "Unknown connection error")))).

Definition onAudioChunk (message : JsValue) : Eff unit :=
  subs <- gets subscriptions;
  if JsSet.has AUDIO_CHUNK subs then emit AUDIO_CHUNK message else skip.

(** The key an incoming [data_stream] message is dispatched under. *)
Definition messageStreamType (message : JsValue) : Completion JsValue :=
  streamType <- Js.get message "streamType";
  data <- Js.get message "data";
  if Js.is_str streamType TRANSCRIPTION then
    transcribeLanguage <- Js.get data "transcribeLanguage";
    if Js.truthy transcribeLanguage
    then mret (JStr (createTranscriptionStream transcribeLanguage))
    else mret streamType
  else if Js.is_str streamType TRANSLATION then
    transcribeLanguage <- Js.get data "transcribeLanguage";
    if Js.truthy transcribeLanguage then
      translateLanguage <- Js.get data "translateLanguage";
      if Js.truthy translateLanguage
      then mret (JStr (createTranslationStream transcribeLanguage translateLanguage))
      else mret streamType
    else mret streamType
  else mret streamType.

Definition onDataStream (message : JsValue) : Eff unit :=
  key <- liftC (messageStreamType message);
  data <- liftC (Js.get message "data");
  subs <- gets subscriptions;
  match key with
  | JStr key =>
      if JsString.nonempty key && JsSet.has key subs
      then emit key (sanitizeEventData key data)
      else skip
  | _ => skip
  end.

Definition onPhotoResponse (message : JsValue) : Eff unit :=
  requestId <- liftC (Js.get message "requestId");
  pending <- gets pendingPhotoRequests;
  match requestId with
  | JStr requestId =>
      if JsSet.has requestId pending then
        photoUrl <- liftC (Js.get message "photoUrl");
        modify (fun st =>
          set_resolvedPhotos (resolvedPhotos st ++ [(requestId, photoUrl)]) st);;
        modify (fun st =>
          set_pendingPhotoRequests (JsSet.delete requestId (pendingPhotoRequests st)) st)
      else skip
  | _ => skip
  end.

Definition onSettingsUpdate (message : JsValue) : Eff unit :=
  previous <- gets settingsData;
  (* [const prevSettings = [...this.settingsData]] *)
  (match previous with
   | JArr _ | JStr _ => skip
   | _ => throw "this.settingsData is not iterable"
   end);;
  settings <- liftC (Js.get message "settings");
  modify (set_settingsData (Js.or_else settings (JArr [])));;
  current <- gets settingsData;
  changes <- liftC (settings_updateSettings current);
  emit "settings_update" current;;
  (if Js.truthy settings && Js.is_object settings
   then liftC (settings_updateAugmentosSettings settings) else skip);;
  should <- gets shouldUpdateSubscriptionsOnSettingsChange;
  if (should : bool) then
    triggers <- gets subscriptionUpdateTriggers;
    shouldUpdateSubs <- liftC (some_key_in triggers changes);
    if (shouldUpdateSubs : bool) then updateSubscriptionsFromSettings else skip
  else skip.

Definition onAppStopped (message : JsValue) : Eff unit :=
  reason <- liftC (Js.get message "reason");
  let reason := Js.or_else reason (JStr "unknown") in
  let displayReason := "App stopped: " +:+ toString reason in
  emit "disconnected"
    (JObj [("message", JStr displayReason);
           ("code", JNum 1000);
           ("reason", JStr displayReason);
           ("wasClean", JBool true)]);;
  modify (set_reconnectAttempts 0%nat).

Definition onDashboardModeChanged (message : JsValue) : Eff unit :=
  try_catch
    (mode <- liftC (Js.get message "mode");
     let mode := Js.or_else mode (JStr "none") in
     if dashboard_has_content then liftC (dashboard_setCurrentMode mode) else skip)
    (fun _ => skip).

Definition onDashboardAlwaysOnChanged (message : JsValue) : Eff unit :=
  try_catch
    (enabled <- liftC (Js.get message "enabled");
     if dashboard_has_content
     then liftC (dashboard_setAlwaysOnEnabled (Js.truthy enabled)) else skip)
    (fun _ => skip).

Definition onConnectionErrorLiteral (message : JsValue) : Eff unit :=
  text <- liftC (Js.get message "message");
  emit "error"
    (JError (toString (Js.or_else text
               (JStr "Unknown connection error (type: connection_error)")))).

Definition onAugmentosSettingsUpdate (message : JsValue) : Eff unit :=
  settings <- liftC (Js.get message "settings");
  if Js.truthy settings && Js.is_object settings
  then liftC (settings_updateAugmentosSettings settings) else skip.

Definition onMediaUpdate (event : string) (message : JsValue) : Eff unit :=
  data <- liftC (Js.get message "data");
  emit event data.

Definition onUnrecognized (message : JsValue) : Eff unit :=
  type <- liftC (Js.get message "type");
  emit "error" (JError ("Unrecognized message type: " +:+ toString type)).

(** The chain of type guards of [handleMessage]: the first guard that
    holds decides how the message is handled.  [type] is [message.type]. *)
Definition branch_of (message type : JsValue) : Branch :=
  if isTpaConnectionAck message then ConnectionAck
  else if isTpaConnectionError message || Js.is_str type "connection_error"
  then ConnectionError
  else if Js.is_str type AUDIO_CHUNK then AudioChunk
  else if isDataStream message then DataStream
  else if isPhotoResponse message then PhotoResponse
  else if isSettingsUpdate message then SettingsUpdate
  else if isAppStopped message then AppStopped
  else if isDashboardModeChanged message then DashboardModeChanged
  else if isDashboardAlwaysOnChanged message then DashboardAlwaysOnChanged
  else if Js.is_str type CUSTOM_MESSAGE then CustomMessage
  else if Js.is_str type "connection_error" then ConnectionErrorLiteral
  else if Js.is_str type "augmentos_settings_update" then AugmentosSettingsUpdate
  else if Js.is_str type "connection_error" then ConnectionErrorLiteral
  else if isMediaStateUpdate message then MediaStateUpdate
  else if isMediaMetadataUpdate message then MediaMetadataUpdate
  else if isMediaSessionEndedUpdate message then MediaSessionEndedUpdate
  else Unrecognized.

Definition handle_branch (branch : Branch) (message : JsValue) : Eff unit :=
  match branch with
  | ConnectionAck => onConnectionAck message
  | ConnectionError => onConnectionError message
  | AudioChunk => onAudioChunk message
  | DataStream => onDataStream message
  | PhotoResponse => onPhotoResponse message
  | SettingsUpdate => onSettingsUpdate message
  | AppStopped => onAppStopped message
  | DashboardModeChanged => onDashboardModeChanged message
  | DashboardAlwaysOnChanged => onDashboardAlwaysOnChanged message
  | CustomMessage => emit "custom_message" message
  | ConnectionErrorLiteral => onConnectionErrorLiteral message
  | AugmentosSettingsUpdate => onAugmentosSettingsUpdate message
  | MediaStateUpdate => onMediaUpdate MEDIA_STATE message
  | MediaMetadataUpdate => onMediaUpdate MEDIA_METADATA message
  | MediaSessionEndedUpdate => onMediaUpdate MEDIA_SESSION_ENDED message
  | Unrecognized => onUnrecognized message
  end.

Definition dispatch (message : JsValue) : Eff unit :=
  type <- liftC (Js.get message "type");
  handle_branch (branch_of message type) message.

(** [private handleMessage(message: CloudToTpaMessage): void] *)
Definition handleMessage (message : JsValue) : Eff unit :=
  try_catch
    (valid <- liftC (validateMessage message);
     if negb valid then emit "error" (JError "Invalid message format received")
     else if Js.is_ArrayBuffer message then handleBinaryMessage message
     else
       try_catch (dispatch message)
         (fun e => emit "error" (JError ("Error processing message: " +:+ e))))
    (fun e => emit "error" (JError ("Unexpected error in message handler: " +:+ e))).

End TpaSessionMethods.

(** ** Connection: inbound frames, close, connect and reconnection *)

(** What the socket hands to the ['message'] listener. *)
Inductive RawData : Type :=
| RBuffer (bytes : string)
| RString (text : string)
| RArrayBuffer (bytes : string)
| RFragments (chunks : list string).

(** How the network answers a connection attempt: the socket opens (its
    writes may fail) and the cloud replies with a message or stays silent,
    or the socket never opens.  Without the ['connected'] event the
    connection timeout of five seconds rejects the attempt. *)
Inductive Network : Type :=
| SocketOpens (writeThrows : option string) (reply : option JsValue)
| SocketNeverOpens.

Section TpaSessionConnection.
Context `{Ext : Externals}.

(** [const messageHandler = async (data: Buffer | string, isBinary: boolean)] *)
Definition messageHandler (data : RawData) (isBinary : bool) : Eff unit :=
  try_catch
    (match isBinary, data with
     | true, RBuffer bytes =>
         try_catch
           (if (String.length bytes =? 0)%nat then
              emit "error" (JError "Received empty binary data")
            else
              handleMessage
                (JObj [("type", JStr AUDIO_CHUNK);
                       ("arrayBuffer", JArrayBuffer bytes);
                       ("timestamp", JDate Date_now)]))
           (fun e => emit "error" (JError ("Failed to process binary message: " +:+ e)))
     | _, RArrayBuffer _ => skip
     | _, _ =>
         try_catch
           (jsonData <- match data with
                        | RString text => mret text
                        | RBuffer bytes => mret bytes
                        | _ => throw "Unknown message format"
                        end;
            if negb (JsString.nonempty jsonData) ||
               String.eqb (JsString.trim jsonData) ""
            then emit "error" (JError "Received empty JSON message")
            else
              message <- liftC (JSON_parse jsonData);
              has_type <- (if Js.truthy message && Js.is_object message
                           then liftC (Js.has_in "type" message) else mret false);
              if negb has_type then
                emit "error" (JError "Malformed message: missing type property")
              else handleMessage message)
           (fun e => emit "error" (JError ("Failed to parse JSON message: " +:+ e)))
     end)
    (fun e => emit "error" (JError ("Unhandled message error: " +:+ e))).

(** The text of a frame that is read as JSON: a string, or a buffer that
    is not flagged binary. *)
Definition frame_text (data : RawData) (isBinary : bool) : option string :=
  match data, isBinary with
  | RString text, _ => Some text
  | RBuffer bytes, false => Some bytes
  | _, _ => None
  end.

(** A parsed value that is not an object with a [type] property. *)
Definition lacks_type (v : JsValue) : Prop :=
  match v with
  | JObj fields => Js.assoc "type" fields = None
  | _ => True
  end.

(** The frames the handler drops, with the message of the error it reports:
    an empty binary frame, an empty or blank text frame, a text frame that
    is not JSON, and JSON without a [type] property. *)
Inductive Malformed : RawData -> bool -> string -> Prop :=
| EmptyBinary :
    Malformed (RBuffer "") true "Received empty binary data"
| EmptyText data isBinary text :
    frame_text data isBinary = Some text ->
    JsString.trim text = "" ->
    Malformed data isBinary "Received empty JSON message"
| NotJson data isBinary text e :
    frame_text data isBinary = Some text ->
    JsString.trim text <> "" ->
    JSON_parse text = Throw e ->
    Malformed data isBinary ("Failed to parse JSON message: " +:+ e)
| NoType data isBinary text v :
    frame_text data isBinary = Some text ->
    JsString.trim text <> "" ->
    JSON_parse text = Normal v ->
    lacks_type v ->
    Malformed data isBinary "Malformed message: missing type property".

(** [async connect(sessionId: string): Promise<void>], read in sequence:
    the synchronous set-up, then what the network does, up to the moment
    the promise settles.  [Normal] is a resolved promise, [Throw] a
    rejected one.  The call that configures the client of the settings
    manager does not touch the session and is left out. *)
Definition connect (sid : string) (net : Network) : Eff unit :=
  modify (set_sessionId (Some sid));;
  modify (set_ws None);;
  url <- gets (fun st => augmentOSWebsocketUrl (config st));
  if negb (JsString.nonempty (default "" url)) then
    throw "WebSocket URL is required"
  else
    modify (set_ws (Some {| readyState := 0; sendThrows := None |}));;
    setTimeout ConnectionTimeout 5000;;
    let timeout : Eff unit :=
      emit "error" (JError "Connection timeout after 5000ms");;
      throw "Connection timeout" in
    match net with
    | SocketNeverOpens => timeout
    | SocketOpens writeThrows reply =>
        modify (set_ws (Some {| readyState := 1; sendThrows := writeThrows |}));;
        try_catch sendConnectionInit
          (fun e =>
             emit "error" (JError ("Connection initialization failed: " +:+ e));;
             throw e);;
        match reply with
        | None => timeout
        | Some message =>
            before <- gets (fun st => length (emitted st));
            handleMessage message;;
            after <- gets (fun st => drop before (emitted st));
            if bool_decide ("connected" ∈ fst <$> after) then skip else timeout
        end
    end.

(** [config.maxReconnectAttempts || 3] and [config.reconnectDelay || 1000] *)
Definition maxAttempts_of (c : TpaSessionConfig) : Z :=
  match maxReconnectAttempts c with
  | Some n => if n =? 0 then 3 else n
  | None => 3
  end.

Definition baseDelay_of (c : TpaSessionConfig) : Z :=
  match reconnectDelay c with
  | Some n => if n =? 0 then 1000 else n
  | None => 1000
  end.

(** [private async handleReconnection(): Promise<void>] *)
Definition handleReconnection (net : Network) : Eff unit :=
  st <- gets id;
  match sessionId st with
  | Some sid =>
      if negb (default false (autoReconnect (config st))) ||
         negb (JsString.nonempty sid)
      then skip
      else
        let maxAttempts := maxAttempts_of (config st) in
        if Z.of_nat (reconnectAttempts st) >=? maxAttempts then
          emit "disconnected" (disconnected_permanent maxAttempts)
        else
          let baseDelay := baseDelay_of (config st) in
          let delay := baseDelay * 2 ^ Z.of_nat (reconnectAttempts st) in
          modify (fun st => set_reconnectAttempts (S (reconnectAttempts st)) st);;
          setTimeout ReconnectBackoff delay;;
          try_catch
            (connect sid net;;
             modify (set_reconnectAttempts 0%nat))
            (fun e =>
               emit "error" (JError ("Reconnection failed: " +:+ e));;
               attempts <- gets reconnectAttempts;
               if Z.of_nat attempts >=? maxAttempts
               then emit "disconnected" (disconnected_permanent maxAttempts)
               else skip)
  | None => skip
  end.

(** [const isNormalClosure = (code === 1000 || code === 1001 || code === 1008)] *)
Definition isNormalClosure (code : Z) : bool :=
  (code =? 1000) || (code =? 1001) || (code =? 1008).

(** [const isManualStop = reason && reason.includes('App stopped')] *)
Definition isManualStop (reason : string) : bool :=
  JsString.nonempty reason && JsString.includes reason "App stopped".

(** The ['disconnected'] event of a close. *)
Definition close_event (code : Z) (reason : string) : JsValue :=
  let reasonStr := if JsString.nonempty reason then ": " +:+ reason else "" in
  let closeInfo := "Connection closed (code: " +:+ pretty code +:+ ")" +:+ reasonStr in
  JObj [("message", JStr closeInfo);
        ("code", JNum code);
        ("reason", JStr reason);
        ("wasClean", JBool ((code =? 1000) || (code =? 1001)))].

(** [const closeHandler = (code: number, reason: string)]; the
    reconnection it starts is followed until it settles. *)
Definition closeHandler (code : Z) (reason : string) (net : Network) : Eff unit :=
  emit "disconnected" (close_event code reason);;
  if negb (isNormalClosure code) && negb (isManualStop reason)
  then handleReconnection net
  else skip.

End TpaSessionConnection.

(** ** The event loop: sockets, timers and the promises of [connect]

    [connect] and [handleReconnection] are asynchronous: between their
    [await]s the listeners of the sockets and the callbacks of the timers
    run, among them the close listener, which starts the next call of
    [handleReconnection] while the promise of an earlier [connect] is
    still pending.  Here the two methods are cut at their [await]s, and a
    run is a sequence of events: time passes, the timer that is due fires,
    a socket reports that it opened, received a frame, failed or closed.
    After every listener and callback the continuations of the promises
    it settled run, before the next event. *)

Module EventLoop.

(** What a socket reports to its listeners. *)
Inductive SocketEvent : Type :=
| Open (writeThrows : option string)
| Message (data : RawData) (isBinary : bool)
| Error (message : string)
| Close (code : Z) (reason : string).

(** The events of a run; a socket is named by the number of the call of
    [connect] that created it. *)
Inductive Event : Type :=
| Elapse (ms : Z)
| Fire
| OnSocket (k : nat) (e : SocketEvent).

(** Who awaits the promise of a call of [connect]: the application, or a
    call of [handleReconnection], which read [maxAttempts] before its
    first [await]. *)
Inductive Waiter : Type :=
| Application
| Reconnection (maxAttempts : Z).

(** A call of [connect]: its promise, and the [readyState] of the socket
    it created, if it came to create one. *)
Record Call : Type := {
  waiter : Waiter;
  settled : bool;
  socket : option Z
}.

(** What a timer runs when it fires: the rest of a call of
    [handleReconnection], or the connection timeout of a call of
    [connect]. *)
Inductive Callback : Type :=
| ResumeReconnection (maxAttempts : Z)
| ConnectionTimedOut (k : nat).

(** The session and what is pending around it: the clock, the calls of
    [connect] so far, the call whose socket is [this.ws], and the timers
    that are armed, each with the time at which it is due, in the order
    in which they were armed. *)
Record World : Type := {
  session : TpaSession;
  clock : Z;
  calls : list Call;
  current : option nat;
  pending : list (Z * Callback)
}.

Definition with_session (st : TpaSession) (w : World) : World :=
  {| session := st; clock := clock w; calls := calls w;
     current := current w; pending := pending w |}.

Definition with_calls (cs : list Call) (w : World) : World :=
  {| session := session w; clock := clock w; calls := cs;
     current := current w; pending := pending w |}.

Definition with_pending (ts : list (Z * Callback)) (w : World) : World :=
  {| session := session w; clock := clock w; calls := calls w;
     current := current w; pending := ts |}.

Definition settle (c : Call) : Call :=
  {| waiter := waiter c; settled := true; socket := socket c |}.

Definition in_state (state : Z) (c : Call) : Call :=
  {| waiter := waiter c; settled := settled c; socket := Some state |}.

(** A session that is connected, or was: its socket is that of the call
    of [connect] the application made. *)
Definition start (st : TpaSession) : World :=
  {| session := st; clock := 0;
     calls := match ws st with
              | Some sock => [{| waiter := Application; settled := true;
                                 socket := Some (readyState sock) |}]
              | None => []
              end;
     current := match ws st with Some _ => Some 0%nat | None => None end;
     pending := [] |}.

(** The timer that fires next: the one that is due first and, of those
    due at the same time, the one armed first.  The result is its place
    in the list. *)
Fixpoint next_timer (ts : list (Z * Callback)) : option nat :=
  match ts with
  | [] => None
  | t :: rest =>
      match next_timer rest with
      | Some i =>
          match rest !! i with
          | Some t' => if t'.1 <? t.1 then Some (S i) else Some 0%nat
          | None => Some 0%nat
          end
      | None => Some 0%nat
      end
  end.

Section Steps.
Context `{Ext : Externals}.

(** [handleReconnection()] up to its first [await]: the delay of the
    timer it armed and the [maxAttempts] it read, if it armed one. *)
Definition handleReconnection_begin : Eff (option (Z * Z)) :=
  st <- gets id;
  match sessionId st with
  | Some sid =>
      if negb (default false (autoReconnect (config st))) ||
         negb (JsString.nonempty sid)
      then mret None
      else
        let maxAttempts := maxAttempts_of (config st) in
        if Z.of_nat (reconnectAttempts st) >=? maxAttempts then
          emit "disconnected" (disconnected_permanent maxAttempts);;
          mret None
        else
          let baseDelay := baseDelay_of (config st) in
          let delay := baseDelay * 2 ^ Z.of_nat (reconnectAttempts st) in
          modify (fun st => set_reconnectAttempts (S (reconnectAttempts st)) st);;
          setTimeout ReconnectBackoff delay;;
          mret (Some (delay, maxAttempts))
  | None => mret None
  end.

(** What follows [await this.connect(this.sessionId)] in
    [handleReconnection]: the assignment after it when the promise
    resolves, the [catch] when it rejects. *)
Definition reconnection_succeeded : Eff unit :=
  modify (set_reconnectAttempts 0%nat).

Definition reconnection_failed (maxAttempts : Z) (e : string) : Eff unit :=
  emit "error" (JError ("Reconnection failed: " +:+ e));;
  attempts <- gets reconnectAttempts;
  if Z.of_nat attempts >=? maxAttempts
  then emit "disconnected" (disconnected_permanent maxAttempts)
  else skip.

(** [connect(sessionId)] up to the end of the executor of its promise: a
    [Throw] is the promise rejected at once, otherwise the socket is
    created, [this.ws] is that socket and the connection timeout is
    armed. *)
Definition connect_begin (sid : option string) : Eff unit :=
  modify (set_sessionId sid);;
  modify (set_ws None);;
  url <- gets (fun st => augmentOSWebsocketUrl (config st));
  if negb (JsString.nonempty (default "" url)) then
    throw "WebSocket URL is required"
  else
    modify (set_ws (Some {| readyState := 0; sendThrows := None |}));;
    setTimeout ConnectionTimeout 5000.

(** The listener of ['open']. *)
Definition openHandler : Eff unit :=
  try_catch sendConnectionInit
    (fun e =>
       emit "error" (JError ("Connection initialization failed: " +:+ e));;
       throw e).

(** The callback of the connection timeout, up to its [reject]. *)
Definition connectionTimeout : Eff unit :=
  emit "error" (JError "Connection timeout after 5000ms").

(** [reject(error)] in the [k]-th call of [connect], and the continuation
    of the promise: a promise that is settled stays as it is. *)
Definition reject (k : nat) (e : string) (w : World) : World :=
  match calls w !! k with
  | Some c =>
      if settled c then w
      else
        let w := with_calls (<[k := settle c]> (calls w)) w in
        match waiter c with
        | Reconnection maxAttempts =>
            with_session (run (reconnection_failed maxAttempts e) (session w)) w
        | Application => w
        end
  | None => w
  end.

(** The listeners of ['connected'] that the calls of [connect] registered:
    each clears the connection timeout of its call and resolves its
    promise.  The calls of [handleReconnection] that awaited a promise
    go on. *)
Definition is_timeout (t : Z * Callback) : bool :=
  match t.2 with ConnectionTimedOut _ => true | ResumeReconnection _ => false end.

Definition awaited_by_reconnection (c : Call) : bool :=
  negb (settled c)
  && match waiter c with Reconnection _ => true | Application => false end.

Definition connected (w : World) : World :=
  {| session :=
       if existsb awaited_by_reconnection (calls w)
       then run reconnection_succeeded (session w) else session w;
     clock := clock w;
     calls := settle <$> calls w;
     current := current w;
     pending := List.filter (fun t => negb (is_timeout t)) (pending w) |}.

(** A call of [handleReconnection]: the timer it arms is due after its
    delay. *)
Definition handleReconnection (w : World) : World :=
  let result := handleReconnection_begin (session w) in
  let w := with_session result.1 w in
  match result.2 with
  | Normal (Some (delay, maxAttempts)) =>
      with_pending (pending w ++ [(clock w + delay, ResumeReconnection maxAttempts)]) w
  | _ => w
  end.

(** The rest of a call of [handleReconnection], when its timer has
    fired: [await this.connect(this.sessionId)].  [connect] closes the
    socket at hand unless it is closed, which leaves that socket closing,
    and its call is the next in the list. *)
Definition resume (maxAttempts : Z) (w : World) : World :=
  let k := length (calls w) in
  let closing (c : Call) :=
    match socket c with
    | Some state => if state =? 3 then c else in_state 2 c
    | None => c
    end in
  let earlier :=
    match current w with
    | Some c => alter closing c (calls w)
    | None => calls w
    end in
  let result := connect_begin (sessionId (session w)) (session w) in
  match result.2 with
  | Normal _ =>
      {| session := result.1; clock := clock w;
         calls := earlier ++ [{| waiter := Reconnection maxAttempts;
                                 settled := false; socket := Some 0 |}];
         current := Some k;
         pending := pending w ++ [(clock w + 5000, ConnectionTimedOut k)] |}
  | Throw e =>
      reject k e
        {| session := result.1; clock := clock w;
           calls := earlier ++ [{| waiter := Reconnection maxAttempts;
                                   settled := false; socket := None |}];
           current := None;
           pending := pending w |}
  end.

(** The socket of the [k]-th call changes its [readyState]; the session
    sees it when that socket is [this.ws]. *)
Definition socket_state (k : nat) (state : Z) (writeThrows : option string)
    (w : World) : World :=
  {| session :=
       if bool_decide (current w = Some k) then
         set_ws (Some {| readyState := state; sendThrows := writeThrows |}) (session w)
       else session w;
     clock := clock w;
     calls := alter (in_state state) k (calls w);
     current := current w;
     pending := pending w |}.

Definition writeThrows_of (w : World) : option string :=
  ws (session w) ≫= sendThrows.

(** The listeners of the socket of the [k]-th call of [connect].  A
    socket that is connecting may open, an open or closing socket may
    deliver a frame, and a socket that is not closed may fail and may
    close; nothing else happens. *)
Definition on_socket (k : nat) (e : SocketEvent) (w : World) : option World :=
  c ← calls w !! k;
  state ← socket c;
  match e with
  | Open writeThrows =>
      if state =? 0 then
        let w := socket_state k 1 writeThrows w in
        let result := openHandler (session w) in
        let w := with_session result.1 w in
        Some match result.2 with
             | Normal _ => w
             | Throw e => reject k e w
             end
      else None
  | Message data isBinary =>
      if (state =? 1) || (state =? 2) then
        let before := length (emitted (session w)) in
        let w := with_session (run (messageHandler data isBinary) (session w)) w in
        let events := drop before (emitted (session w)) in
        Some (if bool_decide ("connected" ∈ events.*1) then connected w else w)
      else None
  | Error message =>
      if state =? 3 then None
      else Some (with_session (run (emit "error" (JError message)) (session w)) w)
  | Close code reason =>
      if state =? 3 then None
      else
        let w := socket_state k 3 (writeThrows_of w) w in
        let w :=
          with_session
            (run (emit "disconnected" (close_event code reason)) (session w)) w in
        Some (if negb (isNormalClosure code) && negb (isManualStop reason)
              then handleReconnection w else w)
  end.

(** The timer that is due next fires, at the time at which it is due. *)
Definition fire (w : World) : option World :=
  i ← next_timer (pending w);
  t ← pending w !! i;
  let w :=
    {| session := session w; clock := Z.max (clock w) t.1; calls := calls w;
       current := current w; pending := delete i (pending w) |} in
  Some match t.2 with
       | ResumeReconnection maxAttempts => resume maxAttempts w
       | ConnectionTimedOut k =>
           reject k "Connection timeout"
             (with_session (run connectionTimeout (session w)) w)
       end.

(** Time passes, up to the time at which the next timer is due. *)
Definition elapse (ms : Z) (w : World) : option World :=
  if (0 <=? ms) && forallb (fun t => clock w + ms <=? t.1) (pending w) then
    Some {| session := session w; clock := clock w + ms; calls := calls w;
            current := current w; pending := pending w |}
  else None.

Definition step (w : World) (e : Event) : option World :=
  match e with
  | Elapse ms => elapse ms w
  | Fire => fire w
  | OnSocket k e => on_socket k e w
  end.

(** A run: [None] when an event cannot happen where it stands. *)
Fixpoint run_events (events : list Event) (w : World) : option World :=
  match events with
  | [] => Some w
  | e :: rest =>
      match step w e with
      | Some w' => run_events rest w'
      | None => None
      end
  end.

End Steps.


End EventLoop.

(** ** What a run of reconnections keeps *)

(** A ['disconnected'] event that is flagged as permanent. *)
Definition is_permanent_notice (e : string * JsValue) : bool :=
  String.eqb e.1 "disconnected"
  && match Js.get e.2 "permanent" with
     | Normal (JBool true) => true
     | _ => false
     end.

(** The permanent notices emitted so far, oldest first. *)
Definition permanent_notices (st : TpaSession) : list (string * JsValue) :=
  filter (fun e => is_permanent_notice e = true) (emitted st).

(** What the steps of a connection attempt leave untouched. *)
Definition reconnection_obs (st : TpaSession)
  : nat * TpaSessionConfig * option string * list Z * list (string * JsValue) :=
  (reconnectAttempts st, config st, sessionId st, backoff_delays st,
   permanent_notices st).


(** ** Further methods of the session *)

Section TpaSessionAccessors.
Context `{Ext : Externals}.

(** [getSessionId(): string], that is
    [this.sessionId || 'unknown-session-id'] *)
Definition getSessionId (st : TpaSession) : string :=
  match sessionId st with
  | Some sid => if JsString.nonempty sid then sid else "unknown-session-id"
  | None => "unknown-session-id"
  end.

(** [getPackageName(): string] *)
Definition getPackageName (st : TpaSession) : string := packageName (config st).

(** [getConfig(): TpaConfig | null] *)
Definition getConfig (st : TpaSession) : option JsValue := tpaConfig st.

(** [getServerUrl(): string | undefined] *)
Definition getServerUrl (st : TpaSession) : option string :=
  augmentOSWebsocketUrl (config st).

(** [disconnect(): void].  The resource tracker is not at hand; what its
    [dispose()] releases (the listeners, the pending timers and the
    socket itself) lies outside the fields of the session, and the traces
    of what the session did are a history that stays. *)
Definition disconnect : Eff unit :=
  modify (set_ws None);;
  modify (set_sessionId None);;
  modify (fun st => set_subscriptions (JsSet.clear (subscriptions st)) st);;
  modify (set_reconnectAttempts 0%nat).

(** The function the constructor hands to the settings manager as
    [subscribeFn]: every stream that is not yet subscribed is added, and
    the set is announced when the socket is open. *)
Definition subscribeFn (streams : list string) : Eff unit :=
  modify (fun st =>
    set_subscriptions
      (foldl (fun acc stream =>
                if negb (JsSet.has stream acc) then JsSet.add stream acc else acc)
             (subscriptions st) streams) st);;
  open <- gets ws_is_open;
  if open then updateSubscriptions else skip.

(** [updateSettingsForTesting(newSettings: AppSettings): void] *)
Definition updateSettingsForTesting (newSettings : JsValue) : Eff unit :=
  modify (set_settingsData newSettings);;
  liftC (settings_updateSettings newSettings);;
  current <- gets settingsData;
  emit "settings_update" current;;
  should <- gets shouldUpdateSubscriptionsOnSettingsChange;
  if (should : bool) then updateSubscriptionsFromSettings else skip.

(** [loadConfigFromJson(jsonData: string): TpaConfig] *)
Definition loadConfigFromJson (jsonData : string) : Eff JsValue :=
  try_catch
    (parsedConfig <- liftC (JSON_parse jsonData);
     valid <- liftC (validateTpaConfig parsedConfig);
     if (valid : bool) then
       modify (set_tpaConfig (Some parsedConfig));;
       mret parsedConfig
     else throw "Invalid TPA configuration format")
    (fun e => throw ("Failed to load TPA configuration: " +:+ e)).

(** [settings.find(s => s.type !== 'group' && 'key' in s && s.key === key)] *)
Fixpoint find_setting (key : string) (settings : list JsValue) : Completion JsValue :=
  match settings with
  | [] => mret JUndefined
  | s :: rest =>
      type <- Js.get s "type";
      found <- (if negb (Js.is_str type "group") then
                  has_key <- Js.has_in "key" s;
                  if (has_key : bool) then
                    k <- Js.get s "key";
                    mret (Js.is_str k key)
                  else mret false
                else mret false);
      if (found : bool) then mret s else find_setting key rest
  end.

(** [getSettingSchema(key: string): AppSetting | undefined] *)
Definition getSettingSchema (key : string) : Eff JsValue :=
  cfg <- gets tpaConfig;
  match cfg with
  | None => mret JUndefined
  | Some cfg =>
      settings <- liftC (Js.get cfg "settings");
      match settings with
      | JArr items => liftC (find_setting key items)
      | _ => throw "this.tpaConfig.settings.find is not a function"
      end
  end.

End TpaSessionAccessors.

(** ** Photo requests *)

Section PhotoRequests.
Context `{Ext : Externals}.

(** [TpaToCloudMessageType.PHOTO_REQUEST], a member of an enum that is
    not at hand. *)
Variable PHOTO_REQUEST : string.

Definition photo_request_message (saveToGallery : option bool) (st : TpaSession)
  : JsValue :=
  JObj [("type", JStr PHOTO_REQUEST);
        ("packageName", JStr (packageName (config st)));
        ("sessionId", option_to_js (sessionId st));
        ("timestamp", JDate Date_now);
        ("saveToGallery", JBool (default false saveToGallery))].

(** [requestPhoto(options): Promise<string>] up to the end of the executor
    of the promise.  [requestId] is the identifier drawn from the clock
    and [Math.random()].  [Throw] is the rejection of the promise by the
    [catch] of the executor; after [Normal] the promise is pending. *)
Definition requestPhoto (requestId : string) (saveToGallery : option bool)
  : Eff unit :=
  try_catch
    (modify (fun st =>
       set_pendingPhotoRequests (JsSet.add requestId (pendingPhotoRequests st)) st);;
     st <- gets id;
     send (photo_request_message saveToGallery st);;
     setTimeout PhotoRequestTimeout 30000)
    (fun e => throw ("Failed to request photo: " +:+ e)).

(** The callback of the timer armed by [requestPhoto]; it returns the
    message of the error it rejects the promise with, if it does. *)
Definition photoRequestTimeout (requestId : string) : Eff (option string) :=
  pending <- gets pendingPhotoRequests;
  if JsSet.has requestId pending then
    modify (fun st =>
      set_pendingPhotoRequests (JsSet.delete requestId (pendingPhotoRequests st)) st);;
    mret (Some "Photo request timed out")
  else mret None.

End PhotoRequests.

(** ** Media controls ([packages/sdk/src/tpa/session/media.ts]) *)

Module MediaControls.
Section Commands.
Context `{Ext : Externals}.

(** [TpaToCloudMessageType.PHONE_MEDIA_CONTROL], a member of an enum that
    is not at hand. *)
Variable PHONE_MEDIA_CONTROL : string.

(** The callback the constructor of the session passes as
    [sendCommandToCloud]: [(command) => { this.send(command) }]. *)
Definition sendCommandToCloud (command : JsValue) : Eff unit := send command.

Definition play : Eff unit :=
  sendCommandToCloud
    (JObj [("type", JStr PHONE_MEDIA_CONTROL); ("action", JStr "play");
           ("timestamp", JDate Date_now)]).

Definition pause : Eff unit :=
  sendCommandToCloud
    (JObj [("type", JStr PHONE_MEDIA_CONTROL); ("action", JStr "pause");
           ("timestamp", JDate Date_now)]).

Definition skipToNext : Eff unit :=
  sendCommandToCloud
    (JObj [("type", JStr PHONE_MEDIA_CONTROL); ("action", JStr "next");
           ("timestamp", JDate Date_now)]).

Definition skipToPrevious : Eff unit :=
  sendCommandToCloud
    (JObj [("type", JStr PHONE_MEDIA_CONTROL); ("action", JStr "previous");
           ("timestamp", JDate Date_now)]).

Definition seekTo (positionSeconds : Z) : Eff unit :=
  sendCommandToCloud
    (JObj [("type", JStr PHONE_MEDIA_CONTROL); ("action", JStr "seek");
           ("value", JNum positionSeconds); ("timestamp", JDate Date_now)]).

End Commands.
End MediaControls.

(** ** The configuration of a TPA ([packages/sdk/types/src/models.ts]) *)

(** The members of the enum [AppSettingType], which is declared in a
    module that is not at hand. *)
Class AppSettingType : Type := {
  TOGGLE : string;
  TEXT : string;
  TEXT_NO_SAVE_BUTTON : string;
  SELECT : string;
  SELECT_WITH_SEARCH : string;
  MULTISELECT : string;
  SLIDER : string;
  GROUP : string;
  TITLE_VALUE : string
}.

Module Models.

(** [typeof v === 'boolean'], [typeof v === 'number'], [Array.isArray(v)],
    [v === undefined] *)
Definition is_boolean (v : JsValue) : bool :=
  match v with JBool _ => true | _ => false end.

Definition is_number (v : JsValue) : bool :=
  match v with JNum _ => true | _ => false end.

Definition is_array (v : JsValue) : bool :=
  match v with JArr _ => true | _ => false end.

Definition is_undefined (v : JsValue) : bool :=
  match v with JUndefined => true | _ => false end.

(** [xs.every(p)]: the elements after the first one that fails are not
    looked at. *)
Fixpoint every {A} (p : A -> Completion bool) (xs : list A) : Completion bool :=
  match xs with
  | [] => mret true
  | x :: rest =>
      ok <- p x;
      if (ok : bool) then every p rest else mret false
  end.

(** [Array.isArray(v) && v.every(p)] *)
Definition array_every (p : JsValue -> Completion bool) (v : JsValue)
  : Completion bool :=
  match v with
  | JArr items => every p items
  | _ => mret false
  end.

(** [opt => typeof opt.label === 'string' && 'value' in opt] *)
Definition valid_option (opt : JsValue) : Completion bool :=
  label <- Js.get opt "label";
  if Js.is_string label then Js.has_in "value" opt else mret false.

Section Validation.
Context `{Types : AppSettingType}.

(** The callback of [config.settings.every] in [validateTpaConfig]. *)
Definition valid_setting (setting : JsValue) : Completion bool :=
  type <- Js.get setting "type";
  if Js.is_str type "group" then
    title <- Js.get setting "title";
    mret (Js.is_string title)
  else if Js.is_str type "titleValue" then
    label <- Js.get setting "label";
    if Js.is_string label then Js.has_in "value" setting else mret false
  else
    key <- Js.get setting "key";
    label <- Js.get setting "label";
    if negb (Js.is_string key) || negb (Js.is_string label) then mret false
    else if Js.is_str type TOGGLE then
      defaultValue <- Js.get setting "defaultValue";
      mret (is_boolean defaultValue)
    else if Js.is_str type TEXT || Js.is_str type TEXT_NO_SAVE_BUTTON then
      defaultValue <- Js.get setting "defaultValue";
      mret (is_undefined defaultValue || Js.is_string defaultValue)
    else if Js.is_str type SELECT || Js.is_str type SELECT_WITH_SEARCH then
      options <- Js.get setting "options";
      array_every valid_option options
    else if Js.is_str type MULTISELECT then
      options <- Js.get setting "options";
      ok <- array_every valid_option options;
      if (ok : bool) then
        defaultValue <- Js.get setting "defaultValue";
        mret (is_undefined defaultValue || is_array defaultValue)
      else mret false
    else if Js.is_str type SLIDER then
      defaultValue <- Js.get setting "defaultValue";
      min <- Js.get setting "min";
      max <- Js.get setting "max";
      mret (match defaultValue, min, max with
            | JNum _, JNum lo, JNum hi => lo <=? hi
            | _, _, _ => false
            end)
    else if Js.is_str type GROUP then
      title <- Js.get setting "title";
      mret (Js.is_string title)
    else if Js.is_str type TITLE_VALUE then
      label <- Js.get setting "label";
      if Js.is_string label then Js.has_in "value" setting else mret false
    else mret false.

(** [validateTpaConfig(config: any): config is TpaConfig] *)
Definition validateTpaConfig (config : JsValue) : Completion bool :=
  if negb (Js.truthy config) || negb (Js.is_object config) then mret false
  else
    name <- Js.get config "name";
    description <- Js.get config "description";
    version <- Js.get config "version";
    if negb (Js.is_string name) || negb (Js.is_string description)
       || negb (Js.is_string version)
    then mret false
    else
      settings <- Js.get config "settings";
      array_every valid_setting settings.

End Validation.
End Models.

(** ** What a method adds to the traces *)

(** A method only adds to the events emitted and to the frames written:
    what was recorded before stays, in its place. *)
Definition only_adds {A : Type} (m : Eff A) : Prop :=
  forall st, exists events frames,
    emitted (fst (m st)) = emitted st ++ events
    /\ sent (fst (m st)) = sent st ++ frames.

(** ** The user record ([cloud/src/models/user.model.ts]) *)

Module UserModel.

Record Location : Type := { lat : Z; lng : Z }.

Record InstalledApp : Type := {
  packageName : string;
  installedDate : Z
}.

Record AppSettingUpdate : Type := {
  key : option string;
  value : JsValue
}.

Record UserDocument : Type := {
  email : string;
  runningApps : list string;
  appSettings : gmap string (list (string * JsValue));
  location : option Location;
  installedApps : option (list InstalledApp)
}.

(** The document [User.create({ email })] starts from: the defaults of
    the schema. *)
Definition create (email : string) : UserDocument :=
  {| email := email; runningApps := []; appSettings := ∅;
     location := None; installedApps := Some [] |}.

(** [[...new Set(apps)]]: the first occurrence of each entry, in order. *)
Definition unique (apps : list string) : list string := JsSet.add_all apps [].

(** [UserSchema.pre('save', ...)] *)
Definition pre_save (u : UserDocument) : UserDocument :=
  let email' :=
    if JsString.nonempty (email u) then JsString.toLowerCase (email u) else email u in
  {| email := email';
     runningApps := unique (runningApps u);
     appSettings := appSettings u;
     location := location u;
     installedApps := installedApps u |}.

(** The validators of the schema.  That of [email] is the test of the
    regular expression [/^[^\s@]+@[^\s@]+\.[^\s@]+$/]: the address splits
    at an [@] and what follows it splits at a dot so that each of the
    three parts matches [[^\s@]+], that is, is not empty and holds no
    white space and no [@]. *)
Fixpoint has_white_space (s : string) : bool :=
  bool_decide (is_Some (JsString.strip_one (JsString.utf8 <$> JsString.white_space) s))
  || match s with
     | EmptyString => false
     | String _ s' => has_white_space s'
     end.

Definition no_space_no_at (s : string) : bool :=
  JsString.nonempty s && negb (has_white_space s) && negb (JsString.includes s "@").

(** The ways to split [s] at an occurrence of the byte [c]: what stands
    before that occurrence and what stands after it. *)
Fixpoint splits (c : ascii) (s : string) : list (string * string) :=
  match s with
  | EmptyString => []
  | String a s' =>
      (if Ascii.eqb a c then [(EmptyString, s')] else [])
      ++ (prod_map (String a) id <$> splits c s')
  end.

Definition email_validator (email : string) : bool :=
  existsb (fun at_sign =>
             no_space_no_at at_sign.1
             && existsb (fun dot => no_space_no_at dot.1 && no_space_no_at dot.2)
                        (splits "." at_sign.2))
          (splits "@" email).

(** The validators of the two lists: [new Set(xs).size === xs.length]. *)
Definition runningApps_validator (apps : list string) : bool :=
  (length (unique apps) =? length apps)%nat.

Definition installedApps_validator (apps : list InstalledApp) : bool :=
  let packageNames := packageName <$> apps in
  (length (unique packageNames) =? length packageNames)%nat.

(** The validators the schema declares, on the paths that have a value. *)
Definition validators (u : UserDocument) : bool :=
  email_validator (email u)
  && runningApps_validator (runningApps u)
  && from_option installedApps_validator true (installedApps u).

(** What [save()] rejects with: a validation error, before anything is
    written, or the error of the write. *)
Inductive SaveError : Type :=
| ValidationError
| WriteError (reason : string).

(** What is not in this file.  [builtin_validation] stands for the checks
    that Mongoose makes itself when it validates a document (the paths
    that are [required], the casts), together with the validators of the
    schema; [write] stands for the write to the collection, which may
    fail (unique index, version check) and then gives the reason. *)
Class Mongoose : Type := {
  builtin_validation : UserDocument -> bool;
  write : UserDocument -> option string
}.

(** [isAppInstalled(packageName): boolean] *)
Definition isAppInstalled (u : UserDocument) (name : string) : bool :=
  match installedApps u with
  | Some apps => existsb (fun app => String.eqb (packageName app) name) apps
  | None => false
  end.

Definition set_installedApps (apps : list InstalledApp) (u : UserDocument)
  : UserDocument :=
  {| email := email u; runningApps := runningApps u; appSettings := appSettings u;
     location := location u; installedApps := Some apps |}.

Definition set_runningApps (apps : list string) (u : UserDocument) : UserDocument :=
  {| email := email u; runningApps := apps; appSettings := appSettings u;
     location := location u; installedApps := installedApps u |}.

(** [isAppRunning(appName)], that is [runningApps.includes(appName)] *)
Definition isAppRunning (u : UserDocument) (name : string) : bool :=
  existsb (String.eqb name) (runningApps u).

(** [updateAppSettings(appName, settings)]: a map is built from the stored
    settings of the app, the payload is merged into it key by key, and the
    entries of the map are stored. *)
Definition merge_settings (existing : list (string * JsValue))
    (updates : list AppSettingUpdate) : list (string * JsValue) :=
  let existingSettingsMap :=
    foldl (fun acc entry => Js.assign entry.1 entry.2 acc) [] existing in
  foldl (fun acc update =>
           match key update with
           | Some k => Js.assign k (value update) acc
           | None => acc
           end) existingSettingsMap updates.

Section Saving.
Context `{DB : Mongoose}.

(** [await this.save()].  The document is validated first; when a check
    fails the promise rejects, the middleware is not run and nothing is
    written.  Otherwise the pre-save middleware runs and the document it
    leaves is written.  The result is the document as it is in memory
    afterwards, and the error if the promise rejects. *)
Definition save (u : UserDocument) : UserDocument * option SaveError :=
  if builtin_validation u && validators u then
    let saved := pre_save u in
    (saved, WriteError <$> write saved)
  else (u, Some ValidationError).

(** [installApp(packageName)]; [now] is the reading of [new Date()]. *)
Definition installApp (name : string) (now : Z) (u : UserDocument)
  : UserDocument * option SaveError :=
  if negb (isAppInstalled u name) then
    let apps := default [] (installedApps u) in
    save (set_installedApps
            (apps ++ [{| packageName := name; installedDate := now |}]) u)
  else (u, None).

(** [uninstallApp(packageName)] *)
Definition uninstallApp (name : string) (u : UserDocument)
  : UserDocument * option SaveError :=
  if isAppInstalled u name then
    let apps := default [] (installedApps u) in
    save (set_installedApps
            (List.filter (fun app => negb (String.eqb (packageName app) name)) apps) u)
  else (u, None).

(** [setLocation(location)] *)
Definition setLocation (l : Location) (u : UserDocument)
  : UserDocument * option SaveError :=
  save {| email := email u; runningApps := runningApps u;
          appSettings := appSettings u; location := Some l;
          installedApps := installedApps u |}.

(** [addRunningApp(appName)] *)
Definition addRunningApp (name : string) (u : UserDocument)
  : UserDocument * option SaveError :=
  if negb (isAppRunning u name)
  then save (set_runningApps (runningApps u ++ [name]) u)
  else (u, None).

(** [removeRunningApp(appName)] *)
Definition removeRunningApp (name : string) (u : UserDocument)
  : UserDocument * option SaveError :=
  if isAppRunning u name
  then save (set_runningApps
               (List.filter (fun app => negb (String.eqb app name)) (runningApps u)) u)
  else (u, None).

(** [updateAppSettings(appName, settings)]; [sanitizeKey] stands for
    [MongoSanitizer.sanitizeKey], which is not at hand. *)
Definition updateAppSettings (sanitizeKey : string -> string)
    (appName : string) (settings : list AppSettingUpdate)
    (u : UserDocument) : UserDocument * option SaveError :=
  let sanitizedAppName := sanitizeKey appName in
  let existing := default [] (appSettings u !! sanitizedAppName) in
  save {| email := email u; runningApps := runningApps u;
          appSettings :=
            <[sanitizedAppName := merge_settings existing settings]> (appSettings u);
          location := location u;
          installedApps := installedApps u |}.

(** The instance methods of the document. *)
Inductive Operation : Type :=
| InstallApp (name : string) (now : Z)
| UninstallApp (name : string)
| AddRunningApp (name : string)
| RemoveRunningApp (name : string)
| SetLocation (l : Location)
| UpdateAppSettings (sanitizeKey : string -> string)
    (appName : string) (settings : list AppSettingUpdate).

Definition apply (op : Operation) (u : UserDocument)
  : UserDocument * option SaveError :=
  match op with
  | InstallApp name now => installApp name now u
  | UninstallApp name => uninstallApp name u
  | AddRunningApp name => addRunningApp name u
  | RemoveRunningApp name => removeRunningApp name u
  | SetLocation l => setLocation l u
  | UpdateAppSettings sanitizeKey appName settings =>
      updateAppSettings sanitizeKey appName settings u
  end.

End Saving.

(** The package names of the installed apps, in order. *)
Definition installedPackages (u : UserDocument) : list string :=
  packageName <$> default [] (installedApps u).

(** No installed app is listed twice, no running app is listed twice. *)
Definition duplicate_free (u : UserDocument) : Prop :=
  NoDup (installedPackages u) ∧ NoDup (runningApps u).

End UserModel.

(** ** Reading the user record: settings and the list of installed apps *)

Module UserQueries.

(** [getAppSettings(appName)]; [sanitizeKey] stands for
    [MongoSanitizer.sanitizeKey], which is not at hand. *)
Definition getAppSettings (sanitizeKey : string -> string) (appName : string)
    (u : UserModel.UserDocument) : option (list (string * JsValue)) :=
  UserModel.appSettings u !! sanitizeKey appName.

(** An app as the app service and the [App] collection describe it: its
    package name and its other properties, which the spreads below carry
    along. *)
Record AppI : Type := {
  packageName : string;
  details : list (string * JsValue)
}.

(** The three shapes of an entry of the list that
    [findUserInstalledApps] returns. *)
Inductive ListedApp : Type :=
| SystemApp (app : AppI) (installedDate : option Z)
    (* [{ ...app, installedDate, isSystemApp: true }] *)
| StoreApp (app : AppI) (installedDate : option Z)
    (* [{ ...dbApp.toObject(), installedDate }] *)
| BareApp (name : string) (installedDate : option Z)
    (* [{ packageName, name: packageName, installedDate }] *).

Definition listed_packageName (entry : ListedApp) : string :=
  match entry with
  | SystemApp app _ | StoreApp app _ => packageName app
  | BareApp name _ => name
  end.

(** [entry.isSystemApp]: [true] on the entry of a predefined app, where
    the property is written after the spread; on the entry of an app of
    the [App] collection what the spread of the stored document carries
    (an [AppI] has an optional [isSystemApp]); absent on a bare entry. *)
Definition isSystemApp (entry : ListedApp) : JsValue :=
  match entry with
  | SystemApp _ _ => JBool true
  | StoreApp app _ => default JUndefined (Js.assoc "isSystemApp" (details app))
  | BareApp _ _ => JUndefined
  end.

(** [installDates.get(name)] for the map filled by
    [installedApps.forEach(app => installDates.set(app.packageName, app.installedDate))]:
    the date of the last entry of that package. *)
Fixpoint installDate (apps : list UserModel.InstalledApp) (name : string) : option Z :=
  match apps with
  | [] => None
  | app :: rest =>
      match installDate rest name with
      | Some d => Some d
      | None =>
          if String.eqb (UserModel.packageName app) name
          then Some (UserModel.installedDate app) else None
      end
  end.

(** [result.some(app => app.packageName === name)] *)
Definition listed (result : list ListedApp) (name : string) : bool :=
  existsb (fun entry => String.eqb (listed_packageName entry) name) result.

(** [names.includes(name)] *)
Definition includes (names : list string) (name : string) : bool :=
  existsb (String.eqb name) names.

(** The entries of the predefined apps, as the loop and the fallback of
    the [catch] build them. *)
Definition system_entry (installed : list string)
    (dates : string -> option Z) (now : Z) (app : AppI) : ListedApp :=
  SystemApp app
    (if includes installed (packageName app) then dates (packageName app)
     else Some now).

(** [for (const dbApp of dbApps) { if (!result.some(...)) result.push(...) }] *)
Definition push_store_apps (dates : string -> option Z)
    (dbApps : list AppI) (result : list ListedApp) : list ListedApp :=
  foldl (fun result dbApp =>
           if negb (listed result (packageName dbApp))
           then result ++ [StoreApp dbApp (dates (packageName dbApp))]
           else result) result dbApps.

(** [for (const packageName of remainingPackages)
    { if (!result.some(...)) result.push(...) }] *)
Definition push_bare_apps (dates : string -> option Z)
    (remainingPackages : list string) (result : list ListedApp) : list ListedApp :=
  foldl (fun result name =>
           if negb (listed result name)
           then result ++ [BareApp name (dates name)]
           else result) result remainingPackages.

(** [UserSchema.statics.findUserInstalledApps].  [findOne] is the lookup
    of the user by e-mail address, [LOCAL_APPS] and [SYSTEM_TPAS] are the
    lists of the app service, [collection] is the reading of the [App]
    collection, from which [App.find({ packageName: { $in: ... } })]
    selects, and [now] is the reading of [new Date()].  A [Throw] of
    [findOne] or of [collection] is a rejected query. *)
Definition findUserInstalledApps
    (findOne : string -> Completion (option UserModel.UserDocument))
    (LOCAL_APPS SYSTEM_TPAS : list AppI)
    (collection : Completion (list AppI)) (now : Z)
    (email : string) : list ListedApp :=
  if negb (JsString.nonempty email) then []
  else
    let predefinedApps := LOCAL_APPS ++ SYSTEM_TPAS in
    match
      (user <- findOne (JsString.toLowerCase email);
       let installedApps := default [] (user ≫= UserModel.installedApps) in
       let userInstalledPackages := UserModel.packageName <$> installedApps in
       let installDates := installDate installedApps in
       let result :=
         system_entry userInstalledPackages installDates now <$> predefinedApps in
       if (0 <? length userInstalledPackages)%nat then
         let existingPackages := listed_packageName <$> result in
         let remainingPackages :=
           List.filter (fun pkg => negb (includes existingPackages pkg))
                       userInstalledPackages in
         if (0 <? length remainingPackages)%nat then
           all <- collection;
           let dbApps :=
             List.filter (fun app => includes remainingPackages (packageName app)) all in
           let result := push_store_apps installDates dbApps result in
           mret (push_bare_apps installDates remainingPackages result)
         else mret result
       else mret result)
    with
    | Normal result => result
    | Throw _ => system_entry [] (fun _ => None) now <$> predefinedApps
    end.

(** What is listed after the predefined apps: an app of the [App]
    collection, whose entry carries the [isSystemApp] of the stored
    document, or a package that nobody knows, whose entry has none. *)
Definition listed_after (collection : Completion (list AppI)) (entry : ListedApp)
  : Prop :=
  (exists app date all,
      entry = StoreApp app date
      /\ collection = Normal all /\ app ∈ all
      /\ isSystemApp entry = default JUndefined (Js.assoc "isSystemApp" (details app)))
  \/ (exists name date, entry = BareApp name date /\ isSystemApp entry = JUndefined).

End UserQueries.

(** ** Resumption of a user session within the grace period

    The session service of the cloud is not among the sources at hand;
    what follows is written from section 3 (data model) and section 4.4
    (state machine of the user session manager) of the specification. *)

Module UserSessionManager.

(** Modelled from the spec: the states of a TPA connection, whose
    declaration is not at hand. *)
Inductive ConnectionState : Type :=
| CONNECTING | ACK_PENDING | ACTIVE | UNHEALTHY | CLOSED.

#[global] Instance ConnectionState_eq_dec : EqDecision ConnectionState.
Proof. solve_decision. Defined.

(** Modelled from the spec: the record [TpaConnection] of the data
    model, whose declaration is not at hand; a socket is named by a
    number. *)
Record TpaConnection : Type := {
  packageName : string;
  tpaSessionId : string;
  websocket : nat;
  connectionState : ConnectionState;
  lastHealthCheckAt : Z
}.

(** Modelled from the spec: the record [UserSession] of the data model,
    whose declaration is not at hand. *)
Record UserSession : Type := {
  sessionId : string;
  userId : string;
  startTime : Z;
  glassesConnection : option nat;
  disconnectedAt : option Z;
  installedApps : list string;
  activeAppSessions : list string;
  loadingApps : list string;
  appConnections : gmap string TpaConnection;
  subscriptions : gmap string (list string);
  isTranscribing : bool
}.

(** Modelled from the spec: the two states of a session that is kept,
    ACTIVE (glasses connected) and DISCONNECTED (grace period running). *)
Inductive SessionState : Type := SessionActive | SessionDisconnected.

(** Modelled from the spec: the state of a session, which the data
    model does not store; a session is DISCONNECTED while its grace
    period runs, that is while [disconnectedAt] is set. *)
Definition state (s : UserSession) : SessionState :=
  match disconnectedAt s with
  | Some _ => SessionDisconnected
  | None => SessionActive
  end.

(** Modelled from the spec: the grace period, five minutes by default,
    in milliseconds. *)
Definition DEFAULT_GRACE_PERIOD : Z := 5 * 60 * 1000.

(** Modelled from the spec: the test that a reconnect arrives within the
    grace period; the grace timer expires the session once the whole
    period has passed. *)
Definition within_grace (grace now : Z) (s : UserSession) : bool :=
  match disconnectedAt s with
  | Some t => now - t <? grace
  | None => true
  end.

(** Modelled from the spec: what happens when the glasses socket closes;
    [disconnectedAt] is set and the TPA connections are left alone. *)
Definition onGlassesClose (now : Z) (s : UserSession) : UserSession :=
  {| sessionId := sessionId s; userId := userId s; startTime := startTime s;
     glassesConnection := None; disconnectedAt := Some now;
     installedApps := installedApps s; activeAppSessions := activeAppSessions s;
     loadingApps := loadingApps s; appConnections := appConnections s;
     subscriptions := subscriptions s; isTranscribing := isTranscribing s |}.

(** Modelled from the spec: the resume path of [createOrResume]; the
    session is rebound to the new socket and [disconnectedAt] cleared. *)
Definition resume (socket : nat) (s : UserSession) : UserSession :=
  {| sessionId := sessionId s; userId := userId s; startTime := startTime s;
     glassesConnection := Some socket; disconnectedAt := None;
     installedApps := installedApps s; activeAppSessions := activeAppSessions s;
     loadingApps := loadingApps s; appConnections := appConnections s;
     subscriptions := subscriptions s; isTranscribing := isTranscribing s |}.

(** Modelled from the spec: a session created afresh for a user. *)
Definition fresh (id user : string) (socket : nat) (now : Z) : UserSession :=
  {| sessionId := id; userId := user; startTime := now;
     glassesConnection := Some socket; disconnectedAt := None;
     installedApps := []; activeAppSessions := []; loadingApps := [];
     appConnections := ∅; subscriptions := ∅; isTranscribing := false |}.

(** Modelled from the spec: what the manager does to the sockets it
    holds: it notifies a TPA of a resumption, closes a TPA connection with
    a reason, or closes a superseded glasses socket. *)
Inductive Action : Type :=
| NotifyResumed (package : string) (socket : nat)
| CloseTpa (package : string) (socket : nat) (reason : string)
| CloseGlasses (socket : nat).

(** Modelled from the spec: the notice of resumption goes to every
    ACTIVE TPA connection of the session. *)
Definition notify_resumed (s : UserSession) : list Action :=
  omap (fun entry : string * TpaConnection =>
          if decide (connectionState entry.2 = ACTIVE)
          then Some (NotifyResumed entry.1 (websocket entry.2))
          else None)
       (map_to_list (appConnections s)).

(** Modelled from the spec: the tear-down of the TPA connections of an
    expired session. *)
Definition close_all (s : UserSession) : list Action :=
  (fun entry : string * TpaConnection =>
     CloseTpa entry.1 (websocket entry.2) "session expired")
  <$> map_to_list (appConnections s).

(** Modelled from the spec: [createOrResume(userId, newGlassesSocket)]
    over the table of sessions, keyed by user.  [newId] is the
    identifier a fresh session would get. *)
Definition createOrResume (grace now : Z) (newId : string)
    (user : string) (socket : nat) (table : gmap string UserSession)
  : gmap string UserSession * list Action :=
  match table !! user with
  | None => (<[user := fresh newId user socket now]> table, [])
  | Some s =>
      match glassesConnection s, disconnectedAt s with
      | Some old, None =>
          (* a live binding is superseded by the new socket *)
          (<[user := resume socket s]> table, [CloseGlasses old])
      | _, _ =>
          if within_grace grace now s
          then (<[user := resume socket s]> table, notify_resumed s)
          else (<[user := fresh newId user socket now]> table, close_all s)
      end
  end.

End UserSessionManager.

(** ** An instance for the examples

    The guards compare the [type] of a message with a wire tag, and the
    parser knows a handful of frames. *)

Module Sample.

Definition type_is (tag : string) (message : JsValue) : bool :=
  match Js.get message "type" with
  | Normal type => Js.is_str type tag
  | Throw _ => false
  end.

Definition app_stopped_frame : string := "{type:app_stopped}".
Definition transcription_frame : string := "{type:data_stream,en-US}".
Definition untyped_frame : string := "{}".

Definition transcription_en : JsValue :=
  JObj [("type", JStr "data_stream");
        ("streamType", JStr "transcription");
        ("data", JObj [("text", JStr "hello");
                       ("transcribeLanguage", JStr "en-US")])].

Definition transcription_plain : JsValue :=
  JObj [("type", JStr "data_stream");
        ("streamType", JStr "transcription");
        ("data", JObj [("text", JStr "hi")])].

Definition app_stopped : JsValue :=
  JObj [("type", JStr "app_stopped"); ("reason", JStr "user request")].

Definition parse (text : string) : Completion JsValue :=
  if String.eqb text app_stopped_frame then Normal app_stopped
  else if String.eqb text transcription_frame then Normal transcription_en
  else if String.eqb text untyped_frame then Normal (JObj [])
  else if String.eqb text "null" then Normal JNull
  else if String.eqb text "42" then Normal (JNum 42)
  else Throw "Unexpected token in JSON".

Definition externals : Externals := {|
  JSON_parse := parse;
  js_String := fun v =>
    match v with
    | JStr s => s
    | JNum n => pretty n
    | JBool true => "true"
    | JBool false => "false"
    | JNull => "null"
    | JUndefined => "undefined"
    | _ => "[object Object]"
    end;
  Date_now := 1700000000000;
  isTpaConnectionAck := type_is "tpa_connection_ack";
  isTpaConnectionError := type_is "tpa_connection_error";
  isDataStream := type_is "data_stream";
  isAppStopped := type_is "app_stopped";
  isSettingsUpdate := type_is "settings_update";
  isPhotoResponse := type_is "photo_response";
  isDashboardModeChanged := type_is "dashboard_mode_changed";
  isDashboardAlwaysOnChanged := type_is "dashboard_always_on_changed";
  isMediaStateUpdate := type_is "media_state_update";
  isMediaMetadataUpdate := type_is "media_metadata_update";
  isMediaSessionEndedUpdate := type_is "media_session_ended_update";
  validateTpaConfig := fun _ => Normal true;
  AUDIO_CHUNK := "audio_chunk";
  HEAD_POSITION := "head_position";
  BUTTON_PRESS := "button_press";
  MEDIA_STATE := "media_state";
  MEDIA_METADATA := "media_metadata";
  MEDIA_SESSION_ENDED := "media_session_ended";
  CUSTOM_MESSAGE := "custom_message";
  CONNECTION_INIT := "tpa_connection_init";
  SUBSCRIPTION_UPDATE := "subscription_update";
  settings_updateSettings := fun _ => Normal (JObj []);
  settings_updateAugmentosSettings := fun _ => Normal tt;
  dashboard_has_content := true;
  dashboard_setCurrentMode := fun _ => Normal tt;
  dashboard_setAlwaysOnEnabled := fun _ => Normal tt
|}.

Definition cfg : TpaSessionConfig :=
  {| packageName := "com.acme.app"; apiKey := "secret";
     augmentOSWebsocketUrl := None; autoReconnect := None;
     maxReconnectAttempts := None; reconnectDelay := None;
     userId := "u@example.com" |}.

(** A session that has never been connected. *)
Definition idle : TpaSession := new_TpaSession cfg.

(** A session bound to [S1] over an open socket. *)
Definition connected : TpaSession :=
  set_sessionId (Some "S1")
    (set_ws (Some {| readyState := 1; sendThrows := None |}) idle).

(** A session bound to [S1] whose socket has closed. *)
Definition dropped : TpaSession :=
  set_sessionId (Some "S1")
    (set_ws (Some {| readyState := 3; sendThrows := None |}) idle).

(** A database that accepts what it is handed. *)
Definition mongoose : UserModel.Mongoose :=
  {| UserModel.builtin_validation := fun _ => true;
     UserModel.write := fun _ => None |}.

End Sample.

(** ** Runs for the examples *)

Module SampleRuns.
Import EventLoop.






End SampleRuns.

(** ** A configuration for the examples *)

Module SampleConfig.

Definition types : AppSettingType := {|
  TOGGLE := "toggle";
  TEXT := "text";
  TEXT_NO_SAVE_BUTTON := "text_no_save_button";
  SELECT := "select";
  SELECT_WITH_SEARCH := "select_with_search";
  MULTISELECT := "multiselect";
  SLIDER := "slider";
  GROUP := "group";
  TITLE_VALUE := "titleValue"
|}.

(** A configuration with a group, a toggle and a slider. *)
Definition tpa_config : JsValue :=
  JObj [("name", JStr "Captions");
        ("description", JStr "Live captions");
        ("version", JStr "1.0.0");
        ("settings",
         JArr [JObj [("type", JStr "group"); ("title", JStr "General")];
               JObj [("type", JStr "toggle"); ("key", JStr "enabled");
                     ("label", JStr "Enabled"); ("defaultValue", JBool true)];
               JObj [("type", JStr "slider"); ("key", JStr "size");
                     ("label", JStr "Size"); ("defaultValue", JNum 5);
                     ("min", JNum 1); ("max", JNum 10)]])].

Definition tpa_config_json : string := "{tpa_config}".

(** The sample instance, with the validation of [models.ts] and a parser
    that also knows the configuration above. *)
Definition externals : Externals := {|
  JSON_parse := fun text =>
    if String.eqb text tpa_config_json then Normal tpa_config
    else JSON_parse (Externals := Sample.externals) text;
  js_String := js_String (Externals := Sample.externals);
  Date_now := Date_now (Externals := Sample.externals);
  isTpaConnectionAck := isTpaConnectionAck (Externals := Sample.externals);
  isTpaConnectionError := isTpaConnectionError (Externals := Sample.externals);
  isDataStream := isDataStream (Externals := Sample.externals);
  isAppStopped := isAppStopped (Externals := Sample.externals);
  isSettingsUpdate := isSettingsUpdate (Externals := Sample.externals);
  isPhotoResponse := isPhotoResponse (Externals := Sample.externals);
  isDashboardModeChanged := isDashboardModeChanged (Externals := Sample.externals);
  isDashboardAlwaysOnChanged :=
    isDashboardAlwaysOnChanged (Externals := Sample.externals);
  isMediaStateUpdate := isMediaStateUpdate (Externals := Sample.externals);
  isMediaMetadataUpdate := isMediaMetadataUpdate (Externals := Sample.externals);
  isMediaSessionEndedUpdate :=
    isMediaSessionEndedUpdate (Externals := Sample.externals);
  validateTpaConfig := Models.validateTpaConfig (Types := types);
  AUDIO_CHUNK := AUDIO_CHUNK (Externals := Sample.externals);
  HEAD_POSITION := HEAD_POSITION (Externals := Sample.externals);
  BUTTON_PRESS := BUTTON_PRESS (Externals := Sample.externals);
  MEDIA_STATE := MEDIA_STATE (Externals := Sample.externals);
  MEDIA_METADATA := MEDIA_METADATA (Externals := Sample.externals);
  MEDIA_SESSION_ENDED := MEDIA_SESSION_ENDED (Externals := Sample.externals);
  CUSTOM_MESSAGE := CUSTOM_MESSAGE (Externals := Sample.externals);
  CONNECTION_INIT := CONNECTION_INIT (Externals := Sample.externals);
  SUBSCRIPTION_UPDATE := SUBSCRIPTION_UPDATE (Externals := Sample.externals);
  settings_updateSettings :=
    settings_updateSettings (Externals := Sample.externals);
  settings_updateAugmentosSettings :=
    settings_updateAugmentosSettings (Externals := Sample.externals);
  dashboard_has_content := dashboard_has_content (Externals := Sample.externals);
  dashboard_setCurrentMode :=
    dashboard_setCurrentMode (Externals := Sample.externals);
  dashboard_setAlwaysOnEnabled :=
    dashboard_setAlwaysOnEnabled (Externals := Sample.externals)
|}.

(** A session whose configuration has been loaded. *)
Definition configured : TpaSession := set_tpaConfig (Some tpa_config) Sample.idle.

End SampleConfig.

(** * Properties *)

(** ** Strings and sets *)

Section StringFacts.

Lemma app_cons (c : ascii) (s t : string) : String c s +:+ t = String c (s +:+ t).
Proof. reflexivity. Qed.

Lemma app_empty (t : string) : "" +:+ t = t.
Proof. reflexivity. Qed.

Lemma prefix_spec (sub s : string) :
  String.prefix sub s = true <-> exists post, s = sub +:+ post.
Proof.
  revert s. induction sub as [|c sub IH]; intros s.
  - split; [intros _; exists s; reflexivity | intros _; destruct s; reflexivity].
  - destruct s as [|d s]; simpl.
    + split; [discriminate | intros [post Hpost]; discriminate].
    + destruct (Ascii.ascii_dec c d) as [->|Hne].
      * rewrite IH. split; intros [post Hpost]; exists post;
          rewrite app_cons in *; congruence.
      * split; [discriminate | intros [post Hpost]; rewrite app_cons in Hpost; congruence].
Qed.

(** [includes] finds exactly the substrings. *)
Lemma includes_spec (s sub : string) :
  JsString.includes s sub = true <-> exists pre post, s = pre +:+ sub +:+ post.
Proof.
  induction s as [|c s IH].
  - unfold JsString.includes. rewrite orb_false_r, prefix_spec. split.
    + intros [post Hpost]. exists "", post. exact Hpost.
    + intros [pre [post Hpost]]. destruct pre; [|discriminate].
      exists post. exact Hpost.
  - change (JsString.includes (String c s) sub)
      with (String.prefix sub (String c s) || JsString.includes s sub).
    rewrite orb_true_iff, prefix_spec, IH. split.
    + intros [[post Hpost]|[pre [post Hpost]]].
      * exists "", post. exact Hpost.
      * exists (String c pre), post. rewrite app_cons. congruence.
    + intros [pre [post Hpost]]. destruct pre as [|d pre].
      * left. exists post. exact Hpost.
      * right. exists pre, post. rewrite app_cons in Hpost. congruence.
Qed.

Lemma nonempty_true (s : string) : JsString.nonempty s = true <-> s <> "".
Proof.
  unfold JsString.nonempty. rewrite negb_true_iff, String.eqb_neq. reflexivity.
Qed.

Lemma strip_prefix_length (p s s' : string) :
  JsString.strip_prefix p s = Some s' ->
  String.length s = (String.length p + String.length s')%nat.
Proof.
  revert s. induction p as [|a p IH]; intros s; simpl.
  - intros [= ->]. reflexivity.
  - destruct s as [|b s]; [discriminate|].
    destruct (Ascii.eqb a b); [|discriminate].
    intros H. simpl. rewrite (IH _ H). reflexivity.
Qed.

Lemma strip_one_shorter (patterns : list string) (s s' : string) :
  Forall (fun p => p <> "") patterns ->
  JsString.strip_one patterns s = Some s' ->
  (String.length s' < String.length s)%nat.
Proof.
  induction 1 as [|p patterns Hp _ IH]; simpl; [discriminate|].
  destruct (JsString.strip_prefix p s) as [r|] eqn:Hstrip; [|exact IH].
  intros [= ->]. apply strip_prefix_length in Hstrip.
  destruct p; [contradiction | simpl in Hstrip; lia].
Qed.

Lemma strip_all_done (patterns : list string) (fuel : nat) (s : string) :
  Forall (fun p => p <> "") patterns ->
  (String.length s <= fuel)%nat ->
  JsString.strip_one patterns (JsString.strip_all patterns fuel s) = None.
Proof.
  intros Hpatterns. revert s. induction fuel as [|fuel IH]; intros s Hlen; simpl.
  - destruct (JsString.strip_one patterns s) as [r|] eqn:Hone; [|reflexivity].
    apply strip_one_shorter in Hone; [lia | exact Hpatterns].
  - destruct (JsString.strip_one patterns s) as [r|] eqn:Hone; [|exact Hone].
    apply IH. apply strip_one_shorter in Hone; [lia | exact Hpatterns].
Qed.

(** The length of the string is fuel enough: what [trimStart] returns
    starts with no white space. *)
Lemma trimStart_done (s : string) :
  JsString.strip_one (JsString.utf8 <$> JsString.white_space) (JsString.trimStart s)
  = None.
Proof.
  apply strip_all_done; [|lia]. vm_compute. repeat constructor; discriminate.
Qed.

(** A no-break space, a byte order mark and a line separator are white
    space; a lone byte [A0], which encodes no character, is not. *)
Lemma trim_unicode_white_space :
  JsString.trim (JsString.utf8 0xA0 +:+ "{}" +:+ JsString.utf8 0xFEFF
                 +:+ JsString.utf8 0x2028) = "{}"
  /\ JsString.trim (JsString.utf8 0xA0) = ""
  /\ JsString.trim (String (ascii_of_N 0xA0) "") <> "".
Proof. split; [reflexivity|]. split; [reflexivity | discriminate]. Qed.

End StringFacts.

(** ** Reasoning about methods *)

Section Frames.
Context `{Ext : Externals}.

Lemma preserves_ret {X A} (f : TpaSession -> X) (a : A) : preserves f (mret a).
Proof. intros st. reflexivity. Qed.

Lemma preserves_skip {X} (f : TpaSession -> X) : preserves f skip.
Proof. intros st. reflexivity. Qed.

Lemma preserves_gets {X A} (f : TpaSession -> X) (g : TpaSession -> A) :
  preserves f (gets g).
Proof. intros st. reflexivity. Qed.

Lemma preserves_throw {X A} (f : TpaSession -> X) (e : string) :
  preserves f (throw (A := A) e).
Proof. intros st. reflexivity. Qed.

Lemma preserves_liftC {X A} (f : TpaSession -> X) (c : Completion A) :
  preserves f (liftC c).
Proof. intros st. reflexivity. Qed.

Lemma preserves_modify {X} (f : TpaSession -> X) (g : TpaSession -> TpaSession) :
  (forall st, f (g st) = f st) -> preserves f (modify g).
Proof. intros H st. apply H. Qed.

Lemma preserves_bind {X A B} (f : TpaSession -> X) (m : Eff A) (k : A -> Eff B) :
  preserves f m -> (forall a, preserves f (k a)) -> preserves f (and_then m k).
Proof.
  intros Hm Hk st. unfold and_then, mbind, eff_bind.
  specialize (Hm st). destruct (m st) as [st' [a|e]]; simpl in *.
  - rewrite Hk. exact Hm.
  - exact Hm.
Qed.

Lemma preserves_try_catch {X A} (f : TpaSession -> X)
    (body : Eff A) (handler : string -> Eff A) :
  preserves f body -> (forall e, preserves f (handler e)) ->
  preserves f (try_catch body handler).
Proof.
  intros Hb Hh st. unfold try_catch.
  specialize (Hb st). destruct (body st) as [st' [a|e]]; simpl in *.
  - exact Hb.
  - rewrite Hh. exact Hb.
Qed.

Lemma never_throws_try_catch {A} (body : Eff A) (handler : string -> Eff A) :
  (forall e, never_throws (handler e)) -> never_throws (try_catch body handler).
Proof.
  intros Hh st. unfold try_catch.
  destruct (body st) as [st' [a|e]]; [reflexivity | apply Hh].
Qed.

Lemma never_throws_emit (event : string) (data : JsValue) :
  never_throws (emit event data).
Proof. intros st. reflexivity. Qed.

Lemma unit_completion (c : Completion unit) : throws c = false -> c = Normal tt.
Proof. destruct c as [[]|e]; [reflexivity | discriminate]. Qed.

End Frames.

Create HintDb frame.

#[export] Hint Resolve preserves_ret preserves_skip preserves_gets preserves_throw
  preserves_liftC : frame.

(** Walks through a method along its sequencing, its [try]/[catch] and its
    branches, and closes the leaves with the [frame] hints. *)
Ltac frame_step :=
  first
    [ solve [auto with frame]
    | apply preserves_bind; [| intros ?]
    | apply preserves_try_catch; [| intros ?]
    | apply preserves_modify; intros ?; reflexivity
    | match goal with
      | |- preserves _ (let _ := _ in _) => cbv zeta
      | |- preserves _ (if ?b then _ else _) => destruct b
      | |- preserves _ (match ?x with _ => _ end) => destruct x
      end ].

Ltac frame := repeat frame_step.

Section FrameFacts.
Context `{Ext : Externals}.

Lemma run_modify_then {A} (g : TpaSession -> TpaSession) (k : Eff A) st :
  (modify g;; k) st = k (g st).
Proof. reflexivity. Qed.

Lemma emit_preserves_subscriptions e d : preserves subscriptions (emit e d).
Proof. unfold emit. frame. Qed.

Lemma emit_preserves_link e d : preserves link (emit e d).
Proof. unfold emit. frame. Qed.

Lemma send_preserves_subscriptions m : preserves subscriptions (send m).
Proof. pose proof emit_preserves_subscriptions. unfold send. frame. Qed.

Lemma send_preserves_link m : preserves link (send m).
Proof. pose proof emit_preserves_link. unfold send. frame. Qed.

Lemma updateSubscriptions_preserves_subscriptions :
  preserves subscriptions updateSubscriptions.
Proof. pose proof send_preserves_subscriptions. unfold updateSubscriptions. frame. Qed.

Lemma updateSubscriptions_preserves_link : preserves link updateSubscriptions.
Proof. pose proof send_preserves_link. unfold updateSubscriptions. frame. Qed.

Lemma subscriptions_subscribe (t : string) st :
  subscriptions (run (subscribe t) st) = JsSet.add t (subscriptions st).
Proof.
  unfold run, subscribe. rewrite run_modify_then.
  pose proof updateSubscriptions_preserves_subscriptions as Hup.
  assert (preserves subscriptions
            (open <- gets ws_is_open; if open then updateSubscriptions else skip))
    as Hk by frame.
  rewrite Hk. reflexivity.
Qed.

Lemma subscriptions_unsubscribe (t : string) st :
  subscriptions (run (unsubscribe t) st) = JsSet.delete t (subscriptions st).
Proof.
  unfold run, unsubscribe. rewrite run_modify_then.
  pose proof updateSubscriptions_preserves_subscriptions as Hup.
  assert (preserves subscriptions
            (open <- gets ws_is_open; if open then updateSubscriptions else skip))
    as Hk by frame.
  rewrite Hk. reflexivity.
Qed.

End FrameFacts.

Section SetFacts.

Lemma has_true (x : string) (s : list string) : JsSet.has x s = true <-> x ∈ s.
Proof. unfold JsSet.has. apply bool_decide_eq_true. Qed.

Lemma elem_of_add (x y : string) (s : list string) :
  y ∈ JsSet.add x s <-> y = x \/ y ∈ s.
Proof.
  unfold JsSet.add. destruct (JsSet.has x s) eqn:Hhas.
  - apply has_true in Hhas. split; [auto | intros [->|]; auto].
  - rewrite elem_of_app, list_elem_of_singleton. tauto.
Qed.

Lemma add_idempotent (x : string) (s : list string) :
  JsSet.add x (JsSet.add x s) = JsSet.add x s.
Proof.
  unfold JsSet.add at 1.
  assert (JsSet.has x (JsSet.add x s) = true) as ->; [|reflexivity].
  apply has_true, elem_of_add. auto.
Qed.

Lemma elem_of_delete (x y : string) (s : list string) :
  y ∈ JsSet.delete x s <-> y <> x /\ y ∈ s.
Proof. unfold JsSet.delete. rewrite list_elem_of_filter. reflexivity. Qed.

Lemma NoDup_add (x : string) (s : list string) : NoDup s -> NoDup (JsSet.add x s).
Proof.
  intros Hs. unfold JsSet.add. destruct (JsSet.has x s) eqn:Hhas; [exact Hs|].
  apply NoDup_app. split; [exact Hs|]. split; [|apply NoDup_singleton].
  intros y Hy Hx. apply list_elem_of_singleton in Hx as ->.
  apply has_true in Hy. congruence.
Qed.

Lemma NoDup_add_all (xs s : list string) : NoDup s -> NoDup (JsSet.add_all xs s).
Proof.
  revert s. induction xs as [|x xs IH]; intros s Hs; simpl; [exact Hs|].
  apply IH, NoDup_add, Hs.
Qed.

Lemma elem_of_add_all (xs s : list string) (y : string) :
  y ∈ JsSet.add_all xs s <-> y ∈ xs \/ y ∈ s.
Proof.
  revert s. induction xs as [|x xs IH]; intros s; simpl.
  - rewrite elem_of_nil. tauto.
  - rewrite IH, elem_of_add, elem_of_cons. tauto.
Qed.

End SetFacts.

(** ** Running a method step by step *)

Section Steps.

Lemma bind_gets {A B} (f : TpaSession -> A) (k : A -> Eff B) st :
  (and_then (gets f) k) st = k (f st) st.
Proof. reflexivity. Qed.

Lemma bind_modify {B} (g : TpaSession -> TpaSession) (k : unit -> Eff B) st :
  (and_then (modify g) k) st = k tt (g st).
Proof. reflexivity. Qed.

Lemma bind_liftC {A B} (c : Completion A) (k : A -> Eff B) st :
  (and_then (liftC c) k) st
  = match c with Normal a => k a st | Throw e => (st, Throw e) end.
Proof. unfold and_then, mbind, eff_bind, liftC. destruct c; reflexivity. Qed.

Lemma bind_mret {A B} (a : A) (k : A -> Eff B) st :
  (and_then (mret a) k) st = k a st.
Proof. reflexivity. Qed.

Lemma bind_throw {A B} (e : string) (k : A -> Eff B) st :
  (and_then (throw e) k) st = (st, Throw e).
Proof. reflexivity. Qed.

Lemma bind_assoc {A B C} (m : Eff A) (k : A -> Eff B) (h : B -> Eff C) st :
  (and_then (and_then m k) h) st = (and_then m (fun a => and_then (k a) h)) st.
Proof.
  unfold and_then, mbind, eff_bind. destruct (m st) as [st' [a|e]]; reflexivity.
Qed.

Lemma bind_eq {A B} (m : Eff A) (k : A -> Eff B) st :
  (and_then m k) st
  = match m st with
    | (st', Normal a) => k a st'
    | (st', Throw e) => (st', Throw e)
    end.
Proof. reflexivity. Qed.

Lemma try_catch_eq {A} (body : Eff A) (handler : string -> Eff A) st :
  try_catch body handler st
  = match body st with
    | (st', Normal a) => (st', Normal a)
    | (st', Throw e) => handler e st'
    end.
Proof. reflexivity. Qed.

End Steps.

(** Runs the next statement of a method. *)
Ltac eff_step :=
  first [ rewrite bind_gets | rewrite bind_modify | rewrite bind_mret
        | rewrite bind_throw | rewrite bind_liftC ];
  cbv beta.

Ltac eff_run := repeat eff_step.

(** ** The subscription set and the outbound channel *)

Section Subscriptions.
Context `{Ext : Externals}.

(** On an open socket whose writes succeed, [updateSubscriptions] writes
    one frame: the whole subscription set of the session. *)
Lemma updateSubscriptions_open st sock :
  ws st = Some sock -> readyState sock = 1 -> sendThrows sock = None ->
  updateSubscriptions st
  = (set_sent (sent st ++ [subscription_update_message st]) st, Normal tt).
Proof.
  intros Hws Hrs Hsend.
  unfold updateSubscriptions. eff_run. unfold send. rewrite try_catch_eq.
  eff_run. rewrite Hws, Hrs. simpl. eff_run. simpl. eff_run. simpl.
  rewrite try_catch_eq, Hsend. reflexivity.
Qed.

Lemma publish_preserves_subscriptions :
  preserves subscriptions
    (open <- gets ws_is_open; if open then updateSubscriptions else skip).
Proof. pose proof updateSubscriptions_preserves_subscriptions. frame. Qed.

(** With a handler that returns [wanted], the subscription set becomes
    [wanted] (without repetitions), whatever it was before. *)
Lemma updateSubscriptionsFromSettings_subscriptions st handler wanted :
  subscriptionSettingsHandler st = Some handler ->
  handler (settingsData st) = Normal wanted ->
  subscriptions (run updateSubscriptionsFromSettings st) = JsSet.add_all wanted [].
Proof.
  intros Hh Hw.
  unfold run, updateSubscriptionsFromSettings. eff_run. rewrite Hh.
  rewrite try_catch_eq. eff_run. rewrite Hw. eff_run.
  match goal with
  | |- context [ws_is_open ?s] => set (mid := s)
  end.
  destruct (ws_is_open mid); [|reflexivity].
  pose proof (updateSubscriptions_preserves_subscriptions mid) as Hk.
  destruct (updateSubscriptions mid) as [st' [[]|e]]; simpl in *;
    rewrite Hk; reflexivity.
Qed.

(** The same, with all that the session does on an open socket. *)
Lemma updateSubscriptionsFromSettings_open st handler wanted sock :
  subscriptionSettingsHandler st = Some handler ->
  handler (settingsData st) = Normal wanted ->
  ws st = Some sock -> readyState sock = 1 -> sendThrows sock = None ->
  updateSubscriptionsFromSettings st
  = (let st' := set_subscriptions (JsSet.add_all wanted []) st in
     set_sent (sent st ++ [subscription_update_message st']) st', Normal tt).
Proof.
  intros Hh Hw Hws Hrs Hsend.
  unfold updateSubscriptionsFromSettings. eff_run. rewrite Hh.
  rewrite try_catch_eq. eff_run. rewrite Hw. eff_run.
  match goal with
  | |- context [ws_is_open ?s] => set (mid := s)
  end.
  assert (ws_is_open mid = true) as ->.
  { unfold ws_is_open, mid. simpl. rewrite Hws. lia. }
  rewrite (updateSubscriptions_open mid sock) by (try exact Hws; assumption).
  destruct st; reflexivity.
Qed.

End Subscriptions.

(** ** Claims about the subscription set and [send] *)

Section SubscriptionClaims.
Context `{Ext : Externals}.

(** C8.  The subscription set of the session is a set with idempotent
    updates: subscribing twice to a stream type leaves the same set as
    subscribing once; after [unsubscribe(t)] that follows [subscribe(t)]
    the set does not contain [t]; and neither call changes whether any
    other stream type is subscribed. *)
Theorem subscription_set_idempotent (st : TpaSession) (t : string) :
  let once := run (subscribe t) st in
  subscriptions (run (subscribe t) once) = subscriptions once
  /\ (t ∈ subscriptions once)
  /\ (t ∉ subscriptions (run (unsubscribe t) once))
  /\ (forall u, u <> t ->
        (u ∈ subscriptions once <-> u ∈ subscriptions st)
        /\ (u ∈ subscriptions (run (unsubscribe t) st) <-> u ∈ subscriptions st)).
Proof.
  intros once. unfold once.
  rewrite !subscriptions_subscribe, !subscriptions_unsubscribe, !subscriptions_subscribe.
  split; [apply add_idempotent|].
  split; [apply elem_of_add; auto|].
  split.
  - rewrite elem_of_delete. tauto.
  - intros u Hu. rewrite elem_of_add, elem_of_delete. tauto.
Qed.

(** C4.  Setting the subscriptions replaces the set, it does not merge:
    when the subscription handler yields [[A; B]] and the subscriptions
    are updated from it, and the handler then yields the empty list and
    they are updated again, the session of package [p] bound to [s] is
    left with no subscription, neither [A] nor [B]; on an open socket the
    last frame written to the cloud is the subscription update of [p]
    for [s] with the empty list. *)
Theorem subscriptions_replaced_not_merged
    (st : TpaSession) (A B : string)
    (first second : JsValue -> Completion (list string)) :
  first (settingsData st) = Normal [A; B] ->
  second (settingsData st) = Normal [] ->
  let triggers := subscriptionUpdateTriggers st in
  let st1 := run updateSubscriptionsFromSettings
               (set_subscriptionSettings first triggers st) in
  let st2 := run updateSubscriptionsFromSettings
               (set_subscriptionSettings second triggers st1) in
  ((A ∈ subscriptions st1) /\ (B ∈ subscriptions st1))
  /\ subscriptions st2 = []
  /\ (A ∉ subscriptions st2) /\ (B ∉ subscriptions st2)
  /\ (forall sock, ws st = Some sock -> readyState sock = 1 -> sendThrows sock = None ->
        last (sent st2)
        = Some (JObj [("type", JStr SUBSCRIPTION_UPDATE);
                      ("packageName", JStr (packageName (config st)));
                      ("subscriptions", JArr []);
                      ("sessionId", option_to_js (sessionId st));
                      ("timestamp", JDate Date_now)])).
Proof.
  intros Hfirst Hsecond triggers st1 st2.
  assert (subscriptions st1 = JsSet.add_all [A; B] []) as Hs1.
  { unfold st1. eapply updateSubscriptionsFromSettings_subscriptions;
      [reflexivity | exact Hfirst]. }
  assert (preserves settingsData updateSubscriptionsFromSettings) as Hsd.
  { assert (forall e d, preserves settingsData (emit e d)) by (intros; unfold emit; frame).
    assert (forall m, preserves settingsData (send m)) by (intros; unfold send; frame).
    assert (preserves settingsData updateSubscriptions)
      by (unfold updateSubscriptions; frame).
    unfold updateSubscriptionsFromSettings. frame. }
  assert (settingsData st1 = settingsData st) as Hsd1.
  { unfold st1, run. rewrite Hsd. reflexivity. }
  assert (subscriptions st2 = []) as Hs2.
  { unfold st2.
    rewrite (updateSubscriptionsFromSettings_subscriptions _ second []);
      [reflexivity | reflexivity |]. simpl. rewrite Hsd1. exact Hsecond. }
  split.
  { rewrite Hs1. split; apply elem_of_add_all; left; set_solver. }
  split; [exact Hs2|].
  rewrite Hs2. split; [apply not_elem_of_nil|]. split; [apply not_elem_of_nil|].
  intros sock Hws Hrs Hsend.
  assert (st1 = let st' := set_subscriptions (JsSet.add_all [A; B] [])
                             (set_subscriptionSettings first triggers st) in
                set_sent (sent st ++ [subscription_update_message st']) st') as Est1.
  { unfold st1, run.
    rewrite (updateSubscriptionsFromSettings_open _ first [A; B] sock);
      [reflexivity | reflexivity | exact Hfirst | exact Hws | exact Hrs | exact Hsend]. }
  unfold st2, run.
  rewrite (updateSubscriptionsFromSettings_open _ second [] sock);
    [| reflexivity | simpl; rewrite Hsd1; exact Hsecond
     | rewrite Est1; exact Hws | exact Hrs | exact Hsend].
  simpl. rewrite last_snoc. rewrite Est1. reflexivity.
Qed.

(** C7, as the code has it.  A [send] while the socket is absent or not
    open writes nothing: it emits an ['error'] event that carries the
    reason and throws that error to its caller; nothing else in the
    session changes. *)
Theorem send_when_not_open (st : TpaSession) (message : JsValue) :
  ws_is_open st = false ->
  exists reason,
    send message st
    = (set_emitted (emitted st ++ [("error", JError reason)]) st, Throw reason)
    /\ sent (run (send message) st) = sent st.
Proof.
  intros Hopen. unfold run, send, ws_is_open in *.
  rewrite try_catch_eq. eff_run.
  destruct (ws st) as [sock|].
  - rewrite Hopen. simpl. eexists. split; reflexivity.
  - eexists. split; reflexivity.
Qed.

End SubscriptionClaims.

(** C8 at a session with an open socket. *)
Lemma subscription_set_idempotent_witness :
  let subscribe := subscribe (Ext := Sample.externals) in
  subscriptions (run (subscribe "transcription")
                   (run (subscribe "transcription") Sample.connected))
  = subscriptions (run (subscribe "transcription") Sample.connected).
Proof.
  exact (proj1 (subscription_set_idempotent (Ext := Sample.externals)
                  Sample.connected "transcription")).
Defined.

(** C4 at a session with an open socket. *)
Lemma subscriptions_replaced_not_merged_witness :
  let first := fun _ : JsValue => Normal ["transcription"; "button_press"] in
  let second := fun _ : JsValue => Normal (@nil string) in
  let update := updateSubscriptionsFromSettings (Ext := Sample.externals) in
  subscriptions
    (run update
       (set_subscriptionSettings second []
          (run update (set_subscriptionSettings first [] Sample.connected))))
  = [].
Proof.
  intros first second update.
  exact (proj1 (proj2 (subscriptions_replaced_not_merged (Ext := Sample.externals)
                         Sample.connected "transcription" "button_press"
                         first second eq_refl eq_refl))).
Defined.

(** C7 at a session whose socket has closed. *)
Lemma send_when_not_open_witness :
  exists reason,
    send (Ext := Sample.externals) Sample.app_stopped Sample.dropped
    = (set_emitted (emitted Sample.dropped ++ [("error", JError reason)]) Sample.dropped,
       Throw reason)
    /\ sent (run (send (Ext := Sample.externals) Sample.app_stopped) Sample.dropped)
       = sent Sample.dropped.
Proof.
  apply (send_when_not_open (Ext := Sample.externals)). reflexivity.
Defined.

(** C7 as stated fails: on a session that was never connected, whose
    socket is [null], [send] does not return normally, it throws. *)
Lemma send_on_absent_socket_throws :
  ws Sample.idle = None
  /\ completion (send (Ext := Sample.externals) Sample.app_stopped) Sample.idle
     = Throw "WebSocket connection not established".
Proof. split; reflexivity. Qed.

(** ** The inbound handlers leave the connection alone *)

#[export] Hint Resolve emit_preserves_link send_preserves_link
  updateSubscriptions_preserves_link : frame.

Section InboundFrames.
Context `{Ext : Externals}.

Lemma updateSubscriptionsFromSettings_preserves_link :
  preserves link updateSubscriptionsFromSettings.
Proof. unfold updateSubscriptionsFromSettings. frame. Qed.

Lemma getDefaultSettings_preserves_link : preserves link getDefaultSettings.
Proof. unfold getDefaultSettings. frame. Qed.

Lemma handleBinaryMessage_preserves_link b : preserves link (handleBinaryMessage b).
Proof. unfold handleBinaryMessage. frame. Qed.

Hint Resolve updateSubscriptionsFromSettings_preserves_link
  getDefaultSettings_preserves_link handleBinaryMessage_preserves_link : frame.

Lemma dispatch_preserves_link m : preserves link (dispatch m).
Proof.
  unfold dispatch, handle_branch, onConnectionAck, onConnectionError, onAudioChunk, onDataStream,
    onPhotoResponse, onSettingsUpdate, onAppStopped, onDashboardModeChanged,
    onDashboardAlwaysOnChanged, onConnectionErrorLiteral, onAugmentosSettingsUpdate,
    onMediaUpdate, onUnrecognized.
  frame.
Qed.

Hint Resolve dispatch_preserves_link : frame.

Lemma handleMessage_preserves_link m : preserves link (handleMessage m).
Proof. unfold handleMessage. frame. Qed.

Hint Resolve handleMessage_preserves_link : frame.

Lemma messageHandler_preserves_link data isBinary :
  preserves link (messageHandler data isBinary).
Proof. unfold messageHandler. frame. Qed.

Lemma messageHandler_never_throws data isBinary :
  never_throws (messageHandler data isBinary).
Proof.
  unfold messageHandler. apply never_throws_try_catch.
  intros e. apply never_throws_emit.
Qed.

Lemma handleMessage_never_throws m : never_throws (handleMessage m).
Proof.
  unfold handleMessage. apply never_throws_try_catch.
  intros e. apply never_throws_emit.
Qed.

End InboundFrames.

(** ** Claims about the inbound handlers *)

Section InboundClaims.
Context `{Ext : Externals}.

(** A validated message reaches the chain of guards. *)
Lemma handleMessage_object fields type st :
  Js.assoc "type" fields = Some type ->
  handleMessage (JObj fields) st
  = try_catch (handle_branch (branch_of (JObj fields) type) (JObj fields))
      (fun e => emit "error" (JError ("Error processing message: " +:+ e))) st.
Proof.
  intros Htype. unfold handleMessage. rewrite try_catch_eq.
  unfold validateMessage. simpl. rewrite Htype. simpl.
  rewrite bind_liftC. simpl.
  rewrite (try_catch_eq (dispatch _)). unfold dispatch.
  rewrite bind_liftC.
  simpl. rewrite Htype. simpl. rewrite try_catch_eq.
  destruct (handle_branch _ _ st) as [st' [[]|e]]; reflexivity.
Qed.

(** C9.  A message that the chain of guards hands to the [app_stopped]
    branch resets the reconnection attempt counter to 0 and emits a
    ['disconnected'] event with code 1000 and [wasClean = true]; it
    starts no reconnection: no timer is armed and the socket is left as
    it is, whatever the counter was. *)
Theorem app_stopped_resets_without_reconnecting
    (st : TpaSession) (fields : list (string * JsValue)) (type : JsValue) :
  Js.assoc "type" fields = Some type ->
  branch_of (JObj fields) type = AppStopped ->
  let reason := Js.or_else (default JUndefined (Js.assoc "reason" fields)) (JStr "unknown") in
  let displayReason := "App stopped: " +:+ toString reason in
  let event := JObj [("message", JStr displayReason); ("code", JNum 1000);
                     ("reason", JStr displayReason); ("wasClean", JBool true)] in
  handleMessage (JObj fields) st
  = (set_reconnectAttempts 0%nat
       (set_emitted (emitted st ++ [("disconnected", event)]) st), Normal tt)
  /\ reconnectAttempts (run (handleMessage (JObj fields)) st) = 0%nat
  /\ timers (run (handleMessage (JObj fields)) st) = timers st
  /\ ws (run (handleMessage (JObj fields)) st) = ws st
  /\ sent (run (handleMessage (JObj fields)) st) = sent st.
Proof.
  intros Htype Hbranch reason displayReason event.
  assert (handleMessage (JObj fields) st
          = (set_reconnectAttempts 0%nat
               (set_emitted (emitted st ++ [("disconnected", event)]) st), Normal tt))
    as Hrun.
  { rewrite (handleMessage_object fields type st Htype), Hbranch.
    rewrite try_catch_eq. unfold handle_branch, onAppStopped.
    rewrite bind_liftC. reflexivity. }
  split; [exact Hrun|]. unfold run. rewrite Hrun. repeat split.
Qed.

Lemma get_obj fields k :
  Js.get (JObj fields) k = Normal (default JUndefined (Js.assoc k fields)).
Proof. reflexivity. Qed.

Lemma bind_normal {A B} (a : A) (k : A -> Completion B) :
  and_then (Normal a) k = k a.
Proof. reflexivity. Qed.

Lemma createTranscriptionStream_not_base lang :
  createTranscriptionStream lang <> TRANSCRIPTION.
Proof.
  unfold createTranscriptionStream. intros Heq.
  assert (TRANSCRIPTION +:+ ":" +:+ toString lang = TRANSCRIPTION +:+ "") as Heq'
    by (rewrite Heq; reflexivity).
  apply (inj (String.app TRANSCRIPTION)) in Heq'. discriminate Heq'.
Qed.

Lemma createTranscriptionStream_nonempty lang :
  JsString.nonempty (createTranscriptionStream lang) = true.
Proof. reflexivity. Qed.

Lemma has_singleton (x y : string) : JsSet.has x [y] = bool_decide (x = y).
Proof.
  unfold JsSet.has. apply bool_decide_ext. rewrite list_elem_of_singleton. reflexivity.
Qed.

(** C3.  A [data_stream] message of stream type [transcription] whose
    payload carries a (non-empty) [transcribeLanguage] is dispatched
    under the language-parameterized key, and an event is emitted under
    that key exactly when the subscription set contains that very key; a
    session subscribed only to the base type [transcription] gets no
    event from it.  A message without [transcribeLanguage] is dispatched
    under the base key, and a session subscribed only to a
    language-parameterized key gets no event from it. *)
Theorem language_streams_are_distinct_keys
    (st : TpaSession) (fields : list (string * JsValue)) (type data lang : JsValue) :
  Js.assoc "type" fields = Some type ->
  branch_of (JObj fields) type = DataStream ->
  Js.assoc "streamType" fields = Some (JStr TRANSCRIPTION) ->
  Js.assoc "data" fields = Some data ->
  Js.get data "transcribeLanguage" = Normal lang ->
  let deliver key st :=
    if JsSet.has key (subscriptions st)
    then set_emitted (emitted st ++ [(key, sanitizeEventData key data)]) st
    else st in
  (Js.truthy lang = true ->
     handleMessage (JObj fields) st
     = (deliver (createTranscriptionStream lang) st, Normal tt)
     /\ (subscriptions st = [TRANSCRIPTION] ->
           run (handleMessage (JObj fields)) st = st))
  /\ (Js.truthy lang = false ->
       handleMessage (JObj fields) st = (deliver TRANSCRIPTION st, Normal tt)
       /\ (forall language,
             subscriptions st = [createTranscriptionStream language] ->
             run (handleMessage (JObj fields)) st = st)).
Proof.
  intros Htype Hbranch Hstream Hdata Hlang deliver.
  assert (forall key,
            messageStreamType (JObj fields) = Normal (JStr key) ->
            JsString.nonempty key = true ->
            handleMessage (JObj fields) st = (deliver key st, Normal tt)) as Hrun.
  { intros key Hkey Hne.
    rewrite (handleMessage_object fields type st Htype), Hbranch.
    rewrite try_catch_eq. unfold handle_branch, onDataStream.
    rewrite bind_liftC, Hkey, bind_liftC. simpl. rewrite Hdata. simpl.
    rewrite bind_gets, Hne. simpl. unfold deliver.
    destruct (JsSet.has key (subscriptions st)); reflexivity. }
  assert (messageStreamType (JObj fields)
          = Normal (if Js.truthy lang
                    then JStr (createTranscriptionStream lang)
                    else JStr TRANSCRIPTION)) as Hkey.
  { unfold messageStreamType.
    rewrite !get_obj, Hstream, Hdata, !bind_normal. cbn [from_option id].
    change (Js.is_str (JStr TRANSCRIPTION) TRANSCRIPTION) with true. cbv iota.
    rewrite Hlang, bind_normal.
    destruct (Js.truthy lang); reflexivity. }
  split; intros Htruthy; rewrite Htruthy in Hkey.
  - pose proof (Hrun _ Hkey (createTranscriptionStream_nonempty lang)) as Hr.
    split; [exact Hr|]. intros Hsubs. unfold run. rewrite Hr. unfold deliver.
    rewrite Hsubs, has_singleton, bool_decide_eq_false_2; [reflexivity|].
    apply createTranscriptionStream_not_base.
  - pose proof (Hrun _ Hkey eq_refl) as Hr.
    split; [exact Hr|]. intros language Hsubs. unfold run. rewrite Hr. unfold deliver.
    rewrite Hsubs, has_singleton, bool_decide_eq_false_2; [reflexivity|].
    intros Heq. symmetry in Heq. revert Heq. apply createTranscriptionStream_not_base.
Qed.

Lemma trim_empty_of_empty text : JsString.nonempty text = false -> JsString.trim text = "".
Proof.
  unfold JsString.nonempty. rewrite negb_false_iff, String.eqb_eq. intros ->. reflexivity.
Qed.

Lemma text_frame_run data isBinary text st :
  frame_text data isBinary = Some text ->
  messageHandler data isBinary st
  = (if String.eqb (JsString.trim text) "" then
       emit "error" (JError "Received empty JSON message") st
     else
       match JSON_parse text with
       | Throw e => emit "error" (JError ("Failed to parse JSON message: " +:+ e)) st
       | Normal message =>
           try_catch
             (has_type <- (if Js.truthy message && Js.is_object message
                           then liftC (Js.has_in "type" message) else mret false);
              if negb has_type then
                emit "error" (JError "Malformed message: missing type property")
              else handleMessage message)
             (fun e => emit "error" (JError ("Failed to parse JSON message: " +:+ e))) st
       end).
Proof.
  intros Htext. unfold messageHandler.
  assert (forall body : Eff unit,
            never_throws body ->
            try_catch body
              (fun e => emit "error" (JError ("Unhandled message error: " +:+ e))) st
            = body st) as Houter.
  { intros body Hbody. rewrite try_catch_eq. specialize (Hbody st).
    destruct (body st) as [st' [[]|e]]; [reflexivity | discriminate]. }
  assert (forall body : Eff unit,
            never_throws
              (try_catch body
                 (fun e => emit "error" (JError ("Failed to parse JSON message: " +:+ e)))))
    as Hinner.
  { intros body. apply never_throws_try_catch. intros e. apply never_throws_emit. }
  destruct data as [bytes|txt|bytes|chunks], isBinary; simpl in Htext;
    try discriminate; injection Htext as ->;
    rewrite Houter by apply Hinner;
    rewrite try_catch_eq, bind_mret;
    (destruct (JsString.nonempty text) eqn:Hne;
     [| rewrite (trim_empty_of_empty _ Hne); reflexivity]);
    simpl;
    (destruct (String.eqb (JsString.trim text) ""); [reflexivity|]);
    rewrite bind_liftC;
    (destruct (JSON_parse text) as [message|e]; [|reflexivity]);
    rewrite try_catch_eq; reflexivity.
Qed.

Lemma malformed_dropped data isBinary reason st :
  Malformed data isBinary reason ->
  messageHandler data isBinary st
  = (set_emitted (emitted st ++ [("error", JError reason)]) st, Normal tt).
Proof.
  intros [ | data' isBinary' text Htext Hblank
           | data' isBinary' text e Htext Hblank Hparse
           | data' isBinary' text v Htext Hblank Hparse Hv ].
  - reflexivity.
  - rewrite (text_frame_run _ _ _ _ Htext), Hblank. reflexivity.
  - rewrite (text_frame_run _ _ _ _ Htext).
    apply String.eqb_neq in Hblank. rewrite Hblank, Hparse. reflexivity.
  - rewrite (text_frame_run _ _ _ _ Htext).
    apply String.eqb_neq in Hblank. rewrite Hblank, Hparse.
    rewrite try_catch_eq.
    destruct v; simpl in *; rewrite ?andb_false_r; try reflexivity.
    rewrite bind_liftC. simpl. rewrite Hv. reflexivity.
Qed.

(** C6.  The inbound message handler is total: whatever the frame, it
    returns without throwing, and it leaves the socket and the timers of
    the session as they are.  A frame that is empty, blank, not JSON, or
    JSON without a [type] property is dropped: the handler emits one
    ['error'] event for it and changes nothing else in the session. *)
Theorem messageHandler_total (st : TpaSession) (data : RawData) (isBinary : bool) :
  completion (messageHandler data isBinary) st = Normal tt
  /\ ws (run (messageHandler data isBinary) st) = ws st
  /\ timers (run (messageHandler data isBinary) st) = timers st
  /\ (forall reason,
        Malformed data isBinary reason ->
        run (messageHandler data isBinary) st
        = set_emitted (emitted st ++ [("error", JError reason)]) st).
Proof.
  split; [apply unit_completion, messageHandler_never_throws|].
  pose proof (messageHandler_preserves_link data isBinary st) as Hlink.
  unfold link in Hlink. injection Hlink as Hws Htimers.
  split; [exact Hws|]. split; [exact Htimers|].
  intros reason Hbad. unfold run. rewrite (malformed_dropped _ _ _ _ Hbad). reflexivity.
Qed.

End InboundClaims.

(** C9 at a session that had used two of its reconnection attempts. *)
Lemma app_stopped_resets_without_reconnecting_witness :
  let st := set_reconnectAttempts 2%nat Sample.dropped in
  reconnectAttempts (run (handleMessage (Ext := Sample.externals) Sample.app_stopped) st)
  = 0%nat
  /\ timers (run (handleMessage (Ext := Sample.externals) Sample.app_stopped) st) = [].
Proof.
  intros st.
  pose proof (app_stopped_resets_without_reconnecting (Ext := Sample.externals) st
                [("type", JStr "app_stopped"); ("reason", JStr "user request")]
                (JStr "app_stopped") eq_refl eq_refl) as H.
  split; [exact (proj1 (proj2 H)) | exact (proj1 (proj2 (proj2 H)))].
Defined.

(** C3 at the scenario of the specification: the event tagged [en-US]
    does not reach a session subscribed to plain [transcription], and the
    plain event does not reach a session subscribed to
    [transcription:en-US]. *)
Lemma language_streams_are_distinct_keys_witness :
  run (handleMessage (Ext := Sample.externals) Sample.transcription_en)
      (set_subscriptions ["transcription"] Sample.connected)
  = set_subscriptions ["transcription"] Sample.connected
  /\ run (handleMessage (Ext := Sample.externals) Sample.transcription_plain)
         (set_subscriptions ["transcription:en-US"] Sample.connected)
     = set_subscriptions ["transcription:en-US"] Sample.connected.
Proof.
  split.
  - pose proof (language_streams_are_distinct_keys (Ext := Sample.externals)
                  (set_subscriptions ["transcription"] Sample.connected)
                  [("type", JStr "data_stream");
                   ("streamType", JStr "transcription");
                   ("data", JObj [("text", JStr "hello");
                                  ("transcribeLanguage", JStr "en-US")])]
                  (JStr "data_stream")
                  (JObj [("text", JStr "hello"); ("transcribeLanguage", JStr "en-US")])
                  (JStr "en-US") eq_refl eq_refl eq_refl eq_refl eq_refl) as H.
    exact (proj2 (proj1 H eq_refl) eq_refl).
  - pose proof (language_streams_are_distinct_keys (Ext := Sample.externals)
                  (set_subscriptions ["transcription:en-US"] Sample.connected)
                  [("type", JStr "data_stream");
                   ("streamType", JStr "transcription");
                   ("data", JObj [("text", JStr "hi")])]
                  (JStr "data_stream")
                  (JObj [("text", JStr "hi")])
                  JUndefined eq_refl eq_refl eq_refl eq_refl eq_refl) as H.
    exact (proj2 (proj2 H eq_refl) (JStr "en-US") eq_refl).
Defined.

(** C6 at a text frame that is not JSON, and at a text frame that holds
    a no-break space and nothing else. *)
Lemma messageHandler_total_witness :
  run (messageHandler (Ext := Sample.externals) (RString "zzz") false) Sample.connected
  = set_emitted
      [("error", JError "Failed to parse JSON message: Unexpected token in JSON")]
      Sample.connected
  /\ run (messageHandler (Ext := Sample.externals) (RBuffer (JsString.utf8 0xA0)) false)
         Sample.connected
     = set_emitted [("error", JError "Received empty JSON message")] Sample.connected.
Proof.
  split.
  - apply (proj2 (proj2 (proj2 (messageHandler_total (Ext := Sample.externals)
                                  Sample.connected (RString "zzz") false)))).
    apply (NotJson (Ext := Sample.externals) (RString "zzz") false "zzz"
             "Unexpected token in JSON"); [reflexivity | discriminate | reflexivity].
  - apply (proj2 (proj2 (proj2 (messageHandler_total (Ext := Sample.externals)
                                  Sample.connected (RBuffer (JsString.utf8 0xA0)) false)))).
    apply (EmptyText (Ext := Sample.externals) (RBuffer (JsString.utf8 0xA0)) false
             (JsString.utf8 0xA0)); reflexivity.
Defined.

(** ** Claims about close and reconnection *)

Section ReconnectionClaims.
Context `{Ext : Externals}.

Lemma isManualStop_spec reason :
  isManualStop reason = true
  <-> exists pre post, reason = pre +:+ "App stopped" +:+ post.
Proof.
  unfold isManualStop. rewrite andb_true_iff, includes_spec. split.
  - intros [_ H]. exact H.
  - intros H. split; [|exact H]. destruct H as [pre [post ->]].
    destruct pre; reflexivity.
Qed.

Lemma isNormalClosure_spec code :
  isNormalClosure code = false <-> code <> 1000 /\ code <> 1001 /\ code <> 1008.
Proof. unfold isNormalClosure. lia. Qed.

(** C2.  When the socket closes, [handleReconnection] is called if and
    only if the close code is none of 1000, 1001 and 1008 and the close
    reason does not contain ['App stopped']; otherwise the handler only
    emits the ['disconnected'] event of the close and attempts no
    reconnection. *)
Theorem close_reconnects_iff_abnormal
    (st : TpaSession) (code : Z) (reason : string) (net : Network) :
  let reconnects := negb (isNormalClosure code) && negb (isManualStop reason) in
  let closed := set_emitted (emitted st ++ [("disconnected", close_event code reason)]) st in
  (reconnects = true
   <-> (code <> 1000 /\ code <> 1001 /\ code <> 1008)
       /\ ~ (exists pre post, reason = pre +:+ "App stopped" +:+ post))
  /\ closeHandler code reason net st
     = (if reconnects then handleReconnection net closed else (closed, Normal tt))
  /\ (reconnects = false -> run (closeHandler code reason net) st = closed).
Proof.
  intros reconnects closed. split; [|split].
  - unfold reconnects.
    rewrite andb_true_iff, !negb_true_iff, isNormalClosure_spec.
    rewrite <- isManualStop_spec, not_true_iff_false. reflexivity.
  - unfold closeHandler. rewrite bind_eq. fold reconnects.
    destruct reconnects; reflexivity.
  - intros Hno. unfold run, closeHandler. rewrite bind_eq. fold reconnects.
    rewrite Hno. reflexivity.
Qed.

End ReconnectionClaims.

(** C2 at a close with code 1008: the handler emits the event and stops. *)
Lemma close_reconnects_iff_abnormal_witness :
  run (closeHandler (Ext := Sample.externals) 1008 "" SocketNeverOpens) Sample.dropped
  = set_emitted [("disconnected", close_event 1008 "")] Sample.dropped.
Proof.
  exact (proj2 (proj2 (close_reconnects_iff_abnormal (Ext := Sample.externals)
                         Sample.dropped 1008 "" SocketNeverOpens)) eq_refl).
Defined.

(** ** Reconnection with exponential backoff *)

Section Backoff.
Context `{Ext : Externals}.
Import EventLoop.

Lemma bind_emit {B} (event : string) (d : JsValue) (k : unit -> Eff B) st :
  (and_then (emit event d) k) st
  = k tt (set_emitted (emitted st ++ [(event, d)]) st).
Proof. reflexivity. Qed.





Lemma permanent_notices_emitted st event d :
  permanent_notices (set_emitted (emitted st ++ [(event, d)]) st)
  = permanent_notices st
    ++ (if is_permanent_notice (event, d) then [(event, d)] else []).
Proof.
  unfold permanent_notices. simpl. rewrite filter_app. f_equal.
  rewrite filter_cons. simpl.
  destruct (is_permanent_notice (event, d)) eqn:H.
  - rewrite decide_True by reflexivity. reflexivity.
  - rewrite decide_False by discriminate. reflexivity.
Qed.

Lemma error_preserves_obs d st :
  reconnection_obs (set_emitted (emitted st ++ [("error", d)]) st)
  = reconnection_obs st.
Proof.
  unfold reconnection_obs. rewrite permanent_notices_emitted. simpl.
  rewrite app_nil_r. reflexivity.
Qed.

Lemma emit_error_preserves_obs d : preserves reconnection_obs (emit "error" d).
Proof. intros st. apply error_preserves_obs. Qed.

Hint Resolve emit_error_preserves_obs : frame.

Lemma send_preserves_obs m : preserves reconnection_obs (send m).
Proof. unfold send. frame. Qed.

Hint Resolve send_preserves_obs : frame.

Lemma sendConnectionInit_preserves_obs : preserves reconnection_obs sendConnectionInit.
Proof. unfold sendConnectionInit. frame. Qed.

Hint Resolve sendConnectionInit_preserves_obs : frame.




















End Backoff.

Section Reading.
Context `{Ext : Externals}.

(** The reading in sequence of [handleReconnection], with a network on
    which the socket never opens, is the run of the event loop in which
    the timer of the call fires, then the connection timeout of its
    [connect], and nothing happens in between. *)
Lemma handleReconnection_in_sequence (st : TpaSession) (sid : string) :
  sessionId st = Some sid -> sid <> "" ->
  autoReconnect (config st) = Some true ->
  Z.of_nat (reconnectAttempts st) < maxAttempts_of (config st) ->
  JsString.nonempty (default "" (augmentOSWebsocketUrl (config st))) = true ->
  EventLoop.session
    <$> EventLoop.run_events [EventLoop.Fire; EventLoop.Fire]
          (EventLoop.handleReconnection (EventLoop.start st))
  = Some (run (handleReconnection SocketNeverOpens) st).
Proof.
  intros Hsid Hne Hauto Hlt Hurl.
  apply nonempty_true in Hne.
  assert ((Z.of_nat (reconnectAttempts st) >=? maxAttempts_of (config st)) = false)
    as Hge by lia.
  unfold run, handleReconnection. rewrite bind_gets. unfold id. cbv beta.
  rewrite Hsid, Hauto, Hne. cbn [negb orb default from_option]. rewrite Hge.
  unfold connect.
  cbv [and_then mbind eff_bind modify gets setTimeout try_catch emit throw skip mret eff_ret].
  cbn [config set_ws set_sessionId set_timers set_reconnectAttempts set_emitted
       reconnectAttempts].
  rewrite Hurl. cbn [negb fst snd].
  unfold EventLoop.handleReconnection, EventLoop.handleReconnection_begin.
  rewrite bind_gets. unfold id. cbv beta.
  cbn [EventLoop.session EventLoop.start].
  rewrite Hsid, Hauto, Hne. cbn [negb orb default from_option]. rewrite Hge.
  cbv [and_then mbind eff_bind modify gets setTimeout try_catch emit throw skip mret eff_ret].
  cbn [fst snd].
  set (max := maxAttempts_of (config st)).
  set (due := baseDelay_of (config st) * 2 ^ Z.of_nat (reconnectAttempts st)).
  unfold EventLoop.start.
  destruct (ws st) as [sock|] eqn:Hws;
    cbn [EventLoop.with_session EventLoop.with_pending EventLoop.session
         EventLoop.clock EventLoop.calls EventLoop.current EventLoop.pending app];
    unfold EventLoop.run_events, EventLoop.step;
    unfold EventLoop.fire at 1;
    cbn [EventLoop.pending EventLoop.next_timer]; simpl;
    unfold EventLoop.resume, EventLoop.connect_begin;
    cbv [and_then mbind eff_bind modify gets setTimeout try_catch emit throw skip
         mret eff_ret];
    cbn [EventLoop.session EventLoop.clock EventLoop.calls EventLoop.current
         EventLoop.pending config sessionId set_ws set_sessionId set_timers
         set_reconnectAttempts];
    rewrite Hurl, Hsid; cbn [negb fst snd];
    unfold EventLoop.fire;
    cbn [EventLoop.pending app EventLoop.next_timer]; simpl;
    unfold EventLoop.reject, EventLoop.connectionTimeout; simpl;
    reflexivity.
Qed.

End Reading.



(** ** The user record *)

Section UserRecord.
Import UserModel.



Lemma unique_NoDup apps : NoDup (unique apps).
Proof. apply NoDup_add_all, NoDup_nil_2. Qed.

Lemma add_all_of_NoDup xs s :
  NoDup (s ++ xs) -> JsSet.add_all xs s = s ++ xs.
Proof.
  revert s. induction xs as [|x xs IH]; intros s Hnd; simpl.
  - rewrite app_nil_r. reflexivity.
  - assert (JsSet.add x s = s ++ [x]) as ->.
    { unfold JsSet.add. destruct (JsSet.has x s) eqn:Hhas; [|reflexivity].
      apply has_true in Hhas. apply NoDup_app in Hnd as (_ & Hdisj & _).
      exfalso. apply (Hdisj x Hhas). left. }
    rewrite IH; rewrite <- app_assoc; [reflexivity | exact Hnd].
Qed.

(** The pre-save middleware does not change a list without repetitions. *)
Lemma unique_id apps : NoDup apps -> unique apps = apps.
Proof. intros H. unfold unique. rewrite add_all_of_NoDup; [reflexivity | exact H]. Qed.

Lemma length_add_all (xs s : list string) :
  (length (JsSet.add_all xs s) <= length s + length xs)%nat.
Proof.
  revert s. induction xs as [|x xs IH]; intros s; simpl; [lia|].
  specialize (IH (JsSet.add x s)). unfold JsSet.add in *.
  destruct (JsSet.has x s); [lia|]. rewrite length_app in IH. simpl in IH. lia.
Qed.

Lemma add_all_full_length (xs s : list string) :
  NoDup s ->
  length (JsSet.add_all xs s) = (length s + length xs)%nat ->
  NoDup (s ++ xs).
Proof.
  revert s. induction xs as [|x xs IH]; intros s Hs Hlen; simpl in *.
  - rewrite app_nil_r. exact Hs.
  - unfold JsSet.add in Hlen. destruct (JsSet.has x s) eqn:Hhas.
    + pose proof (length_add_all xs s). lia.
    + rewrite (assoc_L (++) s [x] xs : s ++ x :: xs = (s ++ [x]) ++ xs).
      apply IH.
      * apply NoDup_app. split; [exact Hs|]. split; [|apply NoDup_singleton].
        intros y Hy Hx. apply list_elem_of_singleton in Hx as ->.
        apply has_true in Hy. congruence.
      * rewrite Hlen, length_app. simpl. lia.
Qed.

Lemma unique_full_length (apps : list string) :
  (length (unique apps) =? length apps)%nat = true <-> NoDup apps.
Proof.
  rewrite Nat.eqb_eq. split.
  - intros Hlen. apply (add_all_full_length apps []); [apply NoDup_nil_2 | exact Hlen].
  - intros Hnodup. rewrite unique_id by exact Hnodup. reflexivity.
Qed.

(** The validators of the schema accept lists without repetitions. *)
Lemma validators_accept_duplicate_free u :
  duplicate_free u ->
  runningApps_validator (runningApps u) = true
  /\ installedApps_validator (default [] (installedApps u)) = true.
Proof.
  intros [Hinst Hrun]. unfold runningApps_validator, installedApps_validator.
  unfold installedPackages in Hinst.
  rewrite !unique_id by assumption. rewrite !Nat.eqb_refl. split; reflexivity.
Qed.


Lemma pre_save_email u : email (pre_save u) = JsString.toLowerCase (email u).
Proof.
  unfold pre_save. simpl.
  destruct (JsString.nonempty (email u)) eqn:Hne; [reflexivity|].
  unfold JsString.nonempty in Hne. apply negb_false_iff, String.eqb_eq in Hne.
  rewrite Hne. reflexivity.
Qed.


Lemma isAppInstalled_spec u name :
  isAppInstalled u name = true <-> name ∈ installedPackages u.
Proof.
  unfold isAppInstalled, installedPackages.
  destruct (installedApps u) as [apps|]; simpl.
  - rewrite existsb_exists, list_elem_of_fmap. split.
    + intros [app [Hin Heq]]. apply String.eqb_eq in Heq.
      exists app. split; [congruence | apply list_elem_of_In, Hin].
    + intros [app [Heq Hin]]. exists app.
      split; [apply list_elem_of_In, Hin | apply String.eqb_eq; congruence].
  - rewrite elem_of_nil. split; [discriminate | tauto].
Qed.



Section Saved.
Context `{DB : Mongoose}.

(** The two ways [save] ends: the document is rejected and stays as it
    is, or the middleware runs and its result is handed to the write. *)
Lemma save_cases u :
  (builtin_validation u && validators u = false
   /\ save u = (u, Some ValidationError))
  \/ (builtin_validation u && validators u = true
      /\ save u = (pre_save u, WriteError <$> write (pre_save u))).
Proof.
  unfold save. destruct (builtin_validation u && validators u); [right | left]; auto.
Qed.

Lemma save_installedApps u : installedApps (save u).1 = installedApps u.
Proof. destruct (save_cases u) as [[_ ->]|[_ ->]]; reflexivity. Qed.

Lemma save_appSettings u : appSettings (save u).1 = appSettings u.
Proof. destruct (save_cases u) as [[_ ->]|[_ ->]]; reflexivity. Qed.

Lemma save_runningApps u name : name ∈ runningApps (save u).1 <-> name ∈ runningApps u.
Proof.
  destruct (save_cases u) as [[_ ->]|[_ ->]]; simpl; [reflexivity|].
  unfold unique. rewrite elem_of_add_all, elem_of_nil. tauto.
Qed.



Lemma installApp_installed name now u :
  isAppInstalled (installApp name now u).1 name = true.
Proof.
  unfold installApp. destruct (isAppInstalled u name) eqn:Hin; simpl; [exact Hin|].
  unfold isAppInstalled. rewrite save_installedApps. simpl. rewrite existsb_app. simpl.
  rewrite String.eqb_refl, orb_true_r. reflexivity.
Qed.


End Saved.

End UserRecord.


(** ** Resumption within the grace period *)

Section Resumption.
Import UserSessionManager.

Lemma notify_resumed_only_notifies s action :
  action ∈ notify_resumed s ->
  exists package connection,
    appConnections s !! package = Some connection
    /\ connectionState connection = ACTIVE
    /\ action = NotifyResumed package (websocket connection).
Proof.
  unfold notify_resumed. rewrite list_elem_of_omap.
  intros [[package connection] [Hin Hsome]]. simpl in Hsome.
  destruct (decide (connectionState connection = ACTIVE)) as [Hactive|]; [|discriminate].
  injection Hsome as <-. exists package, connection.
  apply elem_of_map_to_list in Hin. auto.
Qed.

(** C5.  A glasses reconnect that finds the session of the user
    DISCONNECTED and within the grace period resumes it: the session
    keeps its [sessionId], its [activeAppSessions], its [subscriptions]
    and its [appConnections], so that no TPA connection is torn down or
    recreated; only [glassesConnection] and [disconnectedAt] change; and
    all the manager does to the TPA connections is to notify the ACTIVE
    ones.  With the default grace period a reconnect after four minutes
    is within it. *)
Theorem resume_within_grace_keeps_session
    (table : gmap string UserSession) (user newId : string) (socket : nat)
    (grace now : Z) (s : UserSession) :
  table !! user = Some s ->
  state s = SessionDisconnected ->
  within_grace grace now s = true ->
  let result := createOrResume grace now newId user socket table in
  exists s',
    result.1 !! user = Some s'
    /\ sessionId s' = sessionId s
    /\ activeAppSessions s' = activeAppSessions s
    /\ subscriptions s' = subscriptions s
    /\ appConnections s' = appConnections s
    /\ glassesConnection s' = Some socket
    /\ disconnectedAt s' = None
    /\ s' = resume socket s
    /\ (forall action, action ∈ result.2 ->
          exists package connection,
            appConnections s !! package = Some connection
            /\ connectionState connection = ACTIVE
            /\ action = NotifyResumed package (websocket connection))
    /\ (forall other, other <> user -> result.1 !! other = table !! other).
Proof.
  intros Hlookup Hstate Hgrace result. unfold result, createOrResume.
  rewrite Hlookup. unfold state in Hstate.
  destruct (disconnectedAt s) as [t|] eqn:Ht; [|discriminate].
  assert (forall c : option nat,
            match c, Some t with
            | Some old, None => (<[user := resume socket s]> table, [CloseGlasses old])
            | _, _ =>
                if within_grace grace now s
                then (<[user := resume socket s]> table, notify_resumed s)
                else (<[user := fresh newId user socket now]> table, close_all s)
            end = (<[user := resume socket s]> table, notify_resumed s)) as Hbranch.
  { intros [old|]; rewrite Hgrace; reflexivity. }
  rewrite Hbranch. simpl.
  exists (resume socket s). rewrite lookup_insert_eq.
  split_and!; try reflexivity.
  - apply notify_resumed_only_notifies.
  - intros other Hother. rewrite lookup_insert_ne by congruence. reflexivity.
Qed.

End Resumption.

(** C5 at the scenario of the specification: the glasses of
    [u@example.com] come back four minutes after the socket closed. *)
Lemma resume_within_grace_keeps_session_witness :
  let connection :=
    {| UserSessionManager.packageName := "com.acme.app";
       UserSessionManager.tpaSessionId := "S1";
       UserSessionManager.websocket := 7%nat;
       UserSessionManager.connectionState := UserSessionManager.ACTIVE;
       UserSessionManager.lastHealthCheckAt := 0 |} in
  let s :=
    {| UserSessionManager.sessionId := "S1";
       UserSessionManager.userId := "u@example.com";
       UserSessionManager.startTime := 0;
       UserSessionManager.glassesConnection := None;
       UserSessionManager.disconnectedAt := Some 1000;
       UserSessionManager.installedApps := ["com.acme.app"];
       UserSessionManager.activeAppSessions := ["com.acme.app"];
       UserSessionManager.loadingApps := [];
       UserSessionManager.appConnections := {[ "com.acme.app" := connection ]};
       UserSessionManager.subscriptions := {[ "com.acme.app" := ["transcription:en-US"] ]};
       UserSessionManager.isTranscribing := true |} in
  let table : gmap string UserSessionManager.UserSession := {[ "u@example.com" := s ]} in
  let result :=
    UserSessionManager.createOrResume UserSessionManager.DEFAULT_GRACE_PERIOD
      (1000 + 4 * 60 * 1000) "S2" "u@example.com" 9%nat table in
  exists s',
    result.1 !! "u@example.com" = Some s'
    /\ UserSessionManager.sessionId s' = "S1"
    /\ UserSessionManager.activeAppSessions s' = ["com.acme.app"].
Proof.
  intros connection s table result.
  destruct (resume_within_grace_keeps_session table "u@example.com" "S2" 9%nat
              UserSessionManager.DEFAULT_GRACE_PERIOD (1000 + 4 * 60 * 1000) s
              ltac:(apply lookup_singleton_eq) eq_refl eq_refl)
    as (s' & Hlookup & Hid & Hactive & _).
  exists s'. split; [exact Hlookup|]. split; [exact Hid | exact Hactive].
Defined.

(** * Further properties of the session *)

(** ** The outbound channel *)

Section Outbound.
Context `{Ext : Externals}.

Lemma assoc_assign (k k' : string) (v : JsValue) (fields : list (string * JsValue)) :
  Js.assoc k (Js.assign k' v fields)
  = if String.eqb k k' then Some v else Js.assoc k fields.
Proof.
  induction fields as [|[k0 v0] rest IH]; simpl.
  - destruct (String.eqb k k'); reflexivity.
  - destruct (String.eqb k' k0) eqn:Hk0; simpl.
    + apply String.eqb_eq in Hk0 as <-.
      destruct (String.eqb k k'); reflexivity.
    + rewrite IH.
      destruct (String.eqb_spec k k0) as [->|]; [|reflexivity].
      destruct (String.eqb_spec k0 k') as [->|]; [|reflexivity].
      rewrite String.eqb_refl in Hk0. discriminate.
Qed.

(** X1.  [send] either writes exactly one frame and emits nothing, or it
    writes nothing, emits one ['error'] event and throws the error of
    that event.  It writes exactly when the socket is open, its write
    does not throw and the message is an object that has a [type].  The
    frame written is the message: as it is when its [timestamp] is a
    [Date], and with the current time as [timestamp] otherwise. *)
Theorem send_writes_or_reports (st : TpaSession) (message : JsValue) :
  (exists sock original fields type millis,
      ws st = Some sock /\ readyState sock = 1 /\ sendThrows sock = None
      /\ message = JObj original
      /\ fields = match Js.assoc "timestamp" original with
                  | Some (JDate _) => original
                  | _ => Js.assign "timestamp" (JDate Date_now) original
                  end
      /\ Js.assoc "type" original = Some type
      /\ Js.assoc "type" fields = Some type
      /\ Js.assoc "timestamp" fields = Some (JDate millis)
      /\ send message st = (set_sent (sent st ++ [JObj fields]) st, Normal tt))
  \/ (exists e,
      (ws_is_open st = false
       \/ (exists sock w, ws st = Some sock /\ sendThrows sock = Some w)
       \/ (forall original, message = JObj original -> Js.assoc "type" original = None))
      /\ send message st
         = (set_emitted (emitted st ++ [("error", JError e)]) st, Throw e)).
Proof.
  unfold send, ws_is_open. rewrite try_catch_eq. eff_run.
  destruct (ws st) as [sock|] eqn:Hws;
    [|right; eexists; split; [left; reflexivity | reflexivity]].
  destruct (readyState sock =? 1) eqn:Hrs; simpl;
    [|right; eexists; split; [left; reflexivity | reflexivity]].
  apply Z.eqb_eq in Hrs.
  assert (forall v : JsValue,
            (forall original, v = JObj original -> False) ->
            forall original, v = JObj original -> Js.assoc "type" original = None)
    as Hother by (intros v Hv original Heq; destruct (Hv _ Heq)).
  destruct message as [| |b|n|s|items|fields|m|d|bytes]; simpl;
    try (right; eexists; split;
         [right; right; apply Hother; discriminate | reflexivity]);
    try (destruct b;
         (right; eexists; split;
          [right; right; apply Hother; discriminate | reflexivity]));
    try (destruct (n =? 0);
         (right; eexists; split;
          [right; right; apply Hother; discriminate | reflexivity]));
    try (destruct (JsString.nonempty s);
         (right; eexists; split;
          [right; right; apply Hother; discriminate | reflexivity])).
  (* what is left is an object *)
  eff_run.
  destruct (Js.assoc "type" fields) as [type|] eqn:Htype; simpl.
  2:{ try rewrite bool_decide_eq_false_2 by (intros [? ?]; discriminate).
      simpl. right; eexists. split; [|reflexivity].
      right; right. intros original [= <-]. exact Htype. }
  try rewrite bool_decide_eq_true_2 by eauto. simpl. eff_run.
  rewrite try_catch_eq.
  destruct (sendThrows sock) as [w|] eqn:Hw.
  { right; eexists. split; [|reflexivity]. right; left. eauto. }
  left. exists sock, fields.
  destruct (Js.assoc "timestamp" fields) as [ts|] eqn:Hts; simpl.
  + try rewrite bool_decide_eq_true_2 by eauto. simpl.
    destruct (Js.is_Date ts) eqn:Hdate; simpl.
    * destruct ts; try discriminate.
      exists fields, type, millis. repeat split; auto.
    * exists (Js.assign "timestamp" (JDate Date_now) fields), type, Date_now.
      rewrite !assoc_assign. simpl.
      destruct ts; try discriminate; repeat split; auto.
  + try rewrite bool_decide_eq_false_2 by (intros [? ?]; discriminate). simpl.
    exists (Js.assign "timestamp" (JDate Date_now) fields), type, Date_now.
    rewrite !assoc_assign. simpl. repeat split; auto.
Qed.

End Outbound.

(** ** Inbound messages *)

Section Inbound.
Context `{Ext : Externals}.

(** X2.  The two late branches of [handleMessage] that test [message.type
    === 'connection_error'] are never taken: a message of that type is
    handled by the second branch of the chain (or by the first, when it is
    an acknowledgement), so the text ['Unknown connection error (type:
    connection_error)'] is never reported. *)
Theorem connection_error_literal_unreachable (message type : JsValue) :
  branch_of message type <> ConnectionErrorLiteral.
Proof.
  unfold branch_of.
  destruct (isTpaConnectionAck message); [discriminate|].
  destruct (Js.is_str type "connection_error").
  - rewrite orb_true_r. discriminate.
  - rewrite orb_false_r.
    repeat match goal with
           | |- context [if ?b then _ else _] => destruct b; try discriminate
           end.
Qed.

(** X3.  Audio reaches the handlers of [AUDIO_CHUNK] only while the session
    is subscribed to it, on both ways in. An [ArrayBuffer] handed to
    [handleMessage] is not even looked at without the subscription; with it,
    an empty buffer is reported and any other one is emitted as an audio
    chunk with the sample rate 16000. A binary frame of the socket that is
    not empty is emitted, as the chunk the message handler wraps it in,
    exactly when the session is subscribed; otherwise it is dropped without
    a trace. *)
Theorem audio_needs_subscription (st : TpaSession) (bytes : string) :
  handleMessage (JArrayBuffer bytes) st
  = (if JsSet.has AUDIO_CHUNK (subscriptions st) then
       if (String.length bytes =? 0)%nat
       then set_emitted
              (emitted st ++ [("error", JError "Received empty binary message")]) st
       else set_emitted
              (emitted st ++
               [(AUDIO_CHUNK,
                 JObj [("type", JStr AUDIO_CHUNK); ("timestamp", JDate Date_now);
                       ("arrayBuffer", JArrayBuffer bytes);
                       ("sampleRate", JNum 16000)])]) st
     else st, Normal tt)
  /\ let chunk := JObj [("type", JStr AUDIO_CHUNK);
                        ("arrayBuffer", JArrayBuffer bytes);
                        ("timestamp", JDate Date_now)] in
     (bytes <> "" ->
      branch_of chunk (JStr AUDIO_CHUNK) = AudioChunk ->
      messageHandler (RBuffer bytes) true st
      = (if JsSet.has AUDIO_CHUNK (subscriptions st)
         then set_emitted (emitted st ++ [(AUDIO_CHUNK, chunk)]) st
         else st, Normal tt)).
Proof.
  split.
  - unfold handleMessage. rewrite try_catch_eq. simpl. eff_run. simpl.
    unfold handleBinaryMessage. rewrite try_catch_eq. eff_run.
    destruct (JsSet.has AUDIO_CHUNK (subscriptions st)); simpl; [|reflexivity].
    eff_run. simpl. eff_run.
    destruct bytes; reflexivity.
  - intros chunk Hbytes Hbranch.
    assert ((String.length bytes =? 0)%nat = false) as Hlen.
    { destruct bytes; [congruence | reflexivity]. }
    unfold messageHandler. rewrite try_catch_eq, try_catch_eq, Hlen.
    unfold chunk in *.
    rewrite (handleMessage_object
               [("type", JStr AUDIO_CHUNK); ("arrayBuffer", JArrayBuffer bytes);
                ("timestamp", JDate Date_now)] (JStr AUDIO_CHUNK) st eq_refl).
    rewrite Hbranch, try_catch_eq.
    unfold handle_branch, onAudioChunk. eff_run.
    destruct (JsSet.has AUDIO_CHUNK (subscriptions st)); reflexivity.
Qed.

End Inbound.

(** A binary frame of three bytes at a session subscribed to audio. *)
Lemma audio_needs_subscription_witness :
  let st := set_subscriptions ["audio_chunk"] Sample.connected in
  fst <$> emitted (run (messageHandler (Ext := Sample.externals) (RBuffer "abc") true) st)
  = ["audio_chunk"].
Proof.
  intros st. unfold run.
  destruct (audio_needs_subscription (Ext := Sample.externals) st "abc") as [_ Hframe].
  rewrite Hframe; [reflexivity | discriminate | reflexivity].
Defined.

(** ** Sanitized event data *)

Section Sanitizing.
Context `{Ext : Externals}.

Lemma get_of_value (data : JsValue) (k : string) :
  Js.is_nullish data = false -> exists v, Js.get data k = Normal v.
Proof. destruct data; simpl; try discriminate; eauto. Qed.

(** X4.  Sanitized event data is safe to read. Whatever the stream and the
    payload, the data handed to the handlers is never [null] or [undefined]:
    it is the payload itself or an object put in its place. And for the
    three base streams a payload that is not [null] comes out with the
    fields its handlers read: a transcription has a string [text], a head
    position a string [position], and a button press a truthy [buttonId] and
    [pressType]. *)
Theorem sanitizeEventData_safe (streamType : string) (data : JsValue) :
  Js.is_nullish (sanitizeEventData streamType data) = false
  /\ (sanitizeEventData streamType data = data
      \/ exists fields, sanitizeEventData streamType data = JObj fields)
  /\ (HEAD_POSITION <> TRANSCRIPTION ->
      BUTTON_PRESS <> TRANSCRIPTION ->
      BUTTON_PRESS <> HEAD_POSITION ->
      Js.is_nullish data = false ->
      (exists text,
          Js.get (sanitizeEventData TRANSCRIPTION data) "text" = Normal (JStr text))
      /\ (exists position,
          Js.get (sanitizeEventData HEAD_POSITION data) "position"
          = Normal (JStr position))
      /\ (exists buttonId pressType,
          Js.get (sanitizeEventData BUTTON_PRESS data) "buttonId" = Normal buttonId
          /\ Js.get (sanitizeEventData BUTTON_PRESS data) "pressType" = Normal pressType
          /\ Js.truthy buttonId = true /\ Js.truthy pressType = true)).
Proof.
  split; [|split].
  - unfold sanitizeEventData.
    destruct (Js.is_nullish data) eqn:Hnull; [reflexivity|].
    pose proof (get_of_value data) as Hget.
    destruct (String.eqb streamType TRANSCRIPTION).
    { destruct (Hget "text" Hnull) as [text ->]. rewrite bind_normal.
      destruct (Js.is_string text); simpl; [exact Hnull | reflexivity]. }
    destruct (String.eqb streamType HEAD_POSITION).
    { destruct (Hget "position" Hnull) as [position ->]. rewrite bind_normal.
      destruct (Js.is_string position); simpl; [exact Hnull | reflexivity]. }
    destruct (String.eqb streamType BUTTON_PRESS); [|exact Hnull].
    destruct (Hget "buttonId" Hnull) as [buttonId ->].
    destruct (Hget "pressType" Hnull) as [pressType ->]. rewrite !bind_normal.
    destruct (negb (Js.truthy buttonId) || negb (Js.truthy pressType)); simpl;
      [reflexivity | exact Hnull].
  - unfold sanitizeEventData.
    destruct (Js.is_nullish data) eqn:Hnull; [right; eauto|].
    pose proof (get_of_value data) as Hget.
    destruct (String.eqb streamType TRANSCRIPTION).
    { destruct (Hget "text" Hnull) as [text ->]. rewrite bind_normal.
      destruct (Js.is_string text); simpl; [left; reflexivity | right; eauto]. }
    destruct (String.eqb streamType HEAD_POSITION).
    { destruct (Hget "position" Hnull) as [position ->]. rewrite bind_normal.
      destruct (Js.is_string position); simpl; [left; reflexivity | right; eauto]. }
    destruct (String.eqb streamType BUTTON_PRESS); [|left; reflexivity].
    destruct (Hget "buttonId" Hnull) as [buttonId ->].
    destruct (Hget "pressType" Hnull) as [pressType ->]. rewrite !bind_normal.
    destruct (negb (Js.truthy buttonId) || negb (Js.truthy pressType)); simpl;
      [right; eauto | left; reflexivity].
  - intros Hhead Hbutton Hdistinct Hnull.
    pose proof (get_of_value data) as Hget.
    apply String.eqb_neq in Hhead, Hbutton, Hdistinct.
    unfold sanitizeEventData.
    rewrite Hnull, Hhead, Hbutton, Hdistinct, !String.eqb_refl.
    repeat split.
    + destruct (Hget "text" Hnull) as [text Htext]. rewrite Htext, bind_normal.
      destruct text; simpl; eauto.
    + destruct (Hget "position" Hnull) as [position Hposition].
      rewrite Hposition, bind_normal.
      destruct position; simpl; eauto.
    + destruct (Hget "buttonId" Hnull) as [buttonId HbuttonId].
      destruct (Hget "pressType" Hnull) as [pressType HpressType].
      rewrite HbuttonId, HpressType, !bind_normal.
      destruct (Js.truthy buttonId) eqn:Hb, (Js.truthy pressType) eqn:Hp; simpl;
        eauto 10.
Qed.

End Sanitizing.

(** A transcription without text, as it comes out for the sample
    streams. *)
Lemma sanitizeEventData_safe_witness :
  exists text,
    Js.get (sanitizeEventData (Ext := Sample.externals) TRANSCRIPTION (JObj [])) "text"
    = Normal (JStr text).
Proof.
  apply (sanitizeEventData_safe (Ext := Sample.externals) TRANSCRIPTION (JObj []));
    [discriminate | discriminate | discriminate | reflexivity].
Defined.

(** ** Photo requests *)

Section Photos.
Context `{Ext : Externals}.
Variable PHOTO_REQUEST : string.

(** Without an open socket [send] reports the failure and throws. *)
Lemma send_not_open st message :
  ws_is_open st = false ->
  exists e,
    send message st
    = (set_emitted (emitted st ++ [("error", JError e)]) st, Throw e).
Proof.
  unfold ws_is_open, send. intros Hopen. rewrite try_catch_eq. eff_run.
  destruct (ws st) as [sock|]; [|eexists; reflexivity].
  rewrite Hopen. simpl. eexists; reflexivity.
Qed.

(** On an open socket whose writes succeed, an object that has a [type]
    and a [Date] as [timestamp] is written as it is. *)
Lemma send_open_stamped st sock fields type millis :
  ws st = Some sock -> readyState sock = 1 -> sendThrows sock = None ->
  Js.assoc "type" fields = Some type ->
  Js.assoc "timestamp" fields = Some (JDate millis) ->
  send (JObj fields) st = (set_sent (sent st ++ [JObj fields]) st, Normal tt).
Proof.
  intros Hws Hrs Hw Htype Hts.
  unfold send. rewrite try_catch_eq. eff_run. rewrite Hws, Hrs. simpl.
  eff_run. rewrite Htype, Hts. simpl. eff_run. simpl. eff_run. simpl.
  rewrite try_catch_eq, Hw. reflexivity.
Qed.

(** What a photo response does: the request it names is resolved with the
    URL and forgotten, if it is pending. *)
Lemma photo_response_run st fields type requestId :
  Js.assoc "type" fields = Some type ->
  branch_of (JObj fields) type = PhotoResponse ->
  Js.assoc "requestId" fields = Some (JStr requestId) ->
  handleMessage (JObj fields) st
  = (if JsSet.has requestId (pendingPhotoRequests st) then
       set_pendingPhotoRequests (JsSet.delete requestId (pendingPhotoRequests st))
         (set_resolvedPhotos
            (resolvedPhotos st ++
             [(requestId, default JUndefined (Js.assoc "photoUrl" fields))]) st)
     else st, Normal tt).
Proof.
  intros Htype Hbranch Hid.
  rewrite (handleMessage_object fields type st Htype), Hbranch, try_catch_eq.
  unfold handle_branch, onPhotoResponse. rewrite !get_obj, Hid. eff_run. simpl.
  destruct (JsSet.has requestId (pendingPhotoRequests st)); [|reflexivity].
  eff_run. reflexivity.
Qed.

Lemma not_pending_after_delete requestId pending :
  JsSet.has requestId (JsSet.delete requestId pending) = false.
Proof.
  apply bool_decide_eq_false_2. rewrite elem_of_delete. tauto.
Qed.

(** X5.  A photo request is settled at most once. After a response for a
    request its timer rejects nothing and a second response resolves
    nothing; after the timer has fired, a late response resolves nothing. In
    each case the later event leaves the session as it is. *)
Theorem photo_request_settled_at_most_once
    (st : TpaSession) (fields : list (string * JsValue)) (type : JsValue)
    (requestId : string) :
  Js.assoc "type" fields = Some type ->
  branch_of (JObj fields) type = PhotoResponse ->
  Js.assoc "requestId" fields = Some (JStr requestId) ->
  let answered := run (handleMessage (JObj fields)) st in
  let timedOut := run (photoRequestTimeout requestId) st in
  photoRequestTimeout requestId answered = (answered, Normal None)
  /\ handleMessage (JObj fields) answered = (answered, Normal tt)
  /\ handleMessage (JObj fields) timedOut = (timedOut, Normal tt).
Proof.
  intros Htype Hbranch Hid answered timedOut.
  assert (JsSet.has requestId (pendingPhotoRequests answered) = false) as Hanswered.
  { unfold answered, run.
    rewrite (photo_response_run st fields type requestId) by assumption.
    destruct (JsSet.has requestId (pendingPhotoRequests st)) eqn:Hp; simpl.
    - apply not_pending_after_delete.
    - exact Hp. }
  assert (JsSet.has requestId (pendingPhotoRequests timedOut) = false) as HtimedOut.
  { unfold timedOut, run, photoRequestTimeout. eff_run.
    destruct (JsSet.has requestId (pendingPhotoRequests st)) eqn:Hp; simpl.
    - apply not_pending_after_delete.
    - exact Hp. }
  repeat split.
  - unfold photoRequestTimeout. eff_run. rewrite Hanswered. reflexivity.
  - rewrite (photo_response_run answered fields type requestId) by assumption.
    rewrite Hanswered. reflexivity.
  - rewrite (photo_response_run timedOut fields type requestId) by assumption.
    rewrite HtimedOut. reflexivity.
Qed.

(** X6.  A photo request made on an open socket writes one request frame,
    arms the timer of thirty seconds and stays pending; the response that
    names it then resolves it with the URL, once, and the request is pending
    no more. *)
Theorem photo_request_resolved_by_response
    (st : TpaSession) (sock : WebSocket) (saveToGallery : option bool)
    (fields : list (string * JsValue)) (type : JsValue) (requestId : string) :
  ws st = Some sock -> readyState sock = 1 -> sendThrows sock = None ->
  Js.assoc "type" fields = Some type ->
  branch_of (JObj fields) type = PhotoResponse ->
  Js.assoc "requestId" fields = Some (JStr requestId) ->
  let requested := run (requestPhoto PHOTO_REQUEST requestId saveToGallery) st in
  let answered := run (handleMessage (JObj fields)) requested in
  completion (requestPhoto PHOTO_REQUEST requestId saveToGallery) st = Normal tt
  /\ sent requested = sent st ++ [photo_request_message PHOTO_REQUEST saveToGallery st]
  /\ timers requested
     = timers st ++ [{| purpose := PhotoRequestTimeout; delay := 30000 |}]
  /\ JsSet.has requestId (pendingPhotoRequests requested) = true
  /\ resolvedPhotos answered
     = resolvedPhotos st
       ++ [(requestId, default JUndefined (Js.assoc "photoUrl" fields))]
  /\ JsSet.has requestId (pendingPhotoRequests answered) = false.
Proof.
  intros Hws Hrs Hw Htype Hbranch Hid requested answered.
  assert (requestPhoto PHOTO_REQUEST requestId saveToGallery st
          = (set_timers
               (timers st ++ [{| purpose := PhotoRequestTimeout; delay := 30000 |}])
               (set_sent
                  (sent st ++ [photo_request_message PHOTO_REQUEST saveToGallery st])
                  (set_pendingPhotoRequests
                     (JsSet.add requestId (pendingPhotoRequests st)) st)),
             Normal tt)) as Hrun.
  { unfold requestPhoto. rewrite try_catch_eq. eff_run. unfold id.
    rewrite bind_eq.
    unfold photo_request_message at 1.
    erewrite (send_open_stamped _ sock) by (try reflexivity; simpl; eassumption).
    reflexivity. }
  assert (JsSet.has requestId (pendingPhotoRequests requested) = true) as Hpending.
  { unfold requested, run. rewrite Hrun. simpl.
    apply has_true, elem_of_add. auto. }
  unfold completion.
  repeat split.
  - rewrite Hrun. reflexivity.
  - unfold requested, run. rewrite Hrun. reflexivity.
  - unfold requested, run. rewrite Hrun. reflexivity.
  - exact Hpending.
  - unfold answered, run.
    rewrite (photo_response_run requested fields type requestId) by assumption.
    rewrite Hpending. simpl. unfold requested, run. rewrite Hrun. reflexivity.
  - unfold answered, run.
    rewrite (photo_response_run requested fields type requestId) by assumption.
    rewrite Hpending. simpl. apply not_pending_after_delete.
Qed.

(** X7.  Without an open socket the promise of a photo request is rejected
    at once with the error of [send], which has also been emitted; nothing
    is written and no timer is armed, yet the request stays among the
    pending ones. *)
Theorem photo_request_rejected_when_not_open
    (st : TpaSession) (requestId : string) (saveToGallery : option bool) :
  ws_is_open st = false ->
  exists e,
    requestPhoto PHOTO_REQUEST requestId saveToGallery st
    = (set_emitted (emitted st ++ [("error", JError e)])
         (set_pendingPhotoRequests (JsSet.add requestId (pendingPhotoRequests st)) st),
       Throw ("Failed to request photo: " +:+ e)).
Proof.
  intros Hopen. unfold requestPhoto. rewrite try_catch_eq. eff_run. unfold id.
  rewrite bind_eq.
  match goal with
  | |- context [send ?m ?s] =>
      destruct (send_not_open s m) as [e He]; [exact Hopen|]; rewrite He
  end.
  exists e. reflexivity.
Qed.

End Photos.

(** A response for the request [p1], which is pending at a connected
    session. *)
Lemma photo_request_settled_at_most_once_witness :
  let st := set_pendingPhotoRequests ["p1"] Sample.connected in
  let response := JObj [("type", JStr "photo_response"); ("requestId", JStr "p1");
                        ("photoUrl", JStr "https://cloud/p1.jpg")] in
  let answered := run (handleMessage (Ext := Sample.externals) response) st in
  photoRequestTimeout "p1" answered = (answered, Normal None).
Proof.
  intros st response answered.
  apply (photo_request_settled_at_most_once (Ext := Sample.externals) st
           [("type", JStr "photo_response"); ("requestId", JStr "p1");
            ("photoUrl", JStr "https://cloud/p1.jpg")]
           (JStr "photo_response") "p1"); reflexivity.
Defined.

(** The request [p1] made at a connected session and answered. *)
Lemma photo_request_resolved_by_response_witness :
  let response := JObj [("type", JStr "photo_response"); ("requestId", JStr "p1");
                        ("photoUrl", JStr "https://cloud/p1.jpg")] in
  let requested :=
    run (requestPhoto (Ext := Sample.externals) "photo_request" "p1" None)
        Sample.connected in
  resolvedPhotos (run (handleMessage (Ext := Sample.externals) response) requested)
  = [("p1", JStr "https://cloud/p1.jpg")].
Proof.
  intros response requested.
  apply (photo_request_resolved_by_response (Ext := Sample.externals) "photo_request"
           Sample.connected {| readyState := 1; sendThrows := None |} None
           [("type", JStr "photo_response"); ("requestId", JStr "p1");
            ("photoUrl", JStr "https://cloud/p1.jpg")]
           (JStr "photo_response") "p1"); reflexivity.
Defined.

(** The request [p1] made at a session that has never been connected. *)
Lemma photo_request_rejected_when_not_open_witness :
  exists e,
    completion (requestPhoto (Ext := Sample.externals) "photo_request" "p1" None)
      Sample.idle
    = Throw ("Failed to request photo: " +:+ e).
Proof.
  destruct (photo_request_rejected_when_not_open (Ext := Sample.externals)
              "photo_request" Sample.idle "p1" None eq_refl) as [e He].
  exists e. unfold completion. rewrite He. reflexivity.
Defined.

(** ** Disconnecting *)

Section Disconnecting.
Context `{Ext : Externals}.

(** X8.  After [disconnect()] the session is unbound: it has no
    subscriptions, reports ['unknown-session-id'], and [send] throws for
    want of a connection. A close of the old socket that is reported
    afterwards, whatever its code and reason, emits its ['disconnected']
    event and starts no reconnection: no timer is armed and no attempt
    counted. *)
Theorem disconnect_stops_reconnection
    (st : TpaSession) (code : Z) (reason : string) (net : Network)
    (message : JsValue) :
  let unbound := run disconnect st in
  subscriptions unbound = []
  /\ getSessionId unbound = "unknown-session-id"
  /\ completion (send message) unbound = Throw "WebSocket connection not established"
  /\ closeHandler code reason net unbound
     = (set_emitted (emitted unbound ++ [("disconnected", close_event code reason)])
          unbound, Normal tt).
Proof.
  intros unbound.
  split; [reflexivity|]. split; [reflexivity|]. split; [reflexivity|].
  unfold closeHandler. rewrite bind_emit.
  destruct (negb (isNormalClosure code) && negb (isManualStop reason));
    reflexivity.
Qed.

End Disconnecting.

(** ** What the inbound handlers leave alone *)

(** Walks through a method like [frame], for an observation that is only
    known to ignore certain fields of the session. *)
Ltac frame_with_step :=
  first
    [ solve [auto with frame]
    | apply preserves_bind; [| intros ?]
    | apply preserves_try_catch; [| intros ?]
    | apply preserves_modify; intros ?; solve [auto]
    | match goal with
      | |- preserves _ (let _ := _ in _) => cbv zeta
      | |- preserves _ (if ?b then _ else _) => destruct b
      | |- preserves _ (match ?x with _ => _ end) => destruct x
      end ].

Ltac frame_with := repeat frame_with_step.

Section OutboundInvariance.
Context `{Ext : Externals}.
Context {X : Type} (f : TpaSession -> X).

Hypothesis f_emitted : forall v st, f (set_emitted v st) = f st.
Hypothesis f_sent : forall v st, f (set_sent v st) = f st.
Hypothesis f_subscriptions : forall v st, f (set_subscriptions v st) = f st.

Lemma emit_ignored e d : preserves f (emit e d).
Proof. unfold emit. frame_with. Qed.

Hint Resolve emit_ignored : frame.

Lemma send_ignored m : preserves f (send m).
Proof. unfold send. frame_with. Qed.

Hint Resolve send_ignored : frame.

Lemma updateSubscriptions_ignored : preserves f updateSubscriptions.
Proof. unfold updateSubscriptions. frame_with. Qed.

Hint Resolve updateSubscriptions_ignored : frame.

Lemma updateSubscriptionsFromSettings_ignored :
  preserves f updateSubscriptionsFromSettings.
Proof. unfold updateSubscriptionsFromSettings. frame_with. Qed.

Lemma getDefaultSettings_ignored : preserves f getDefaultSettings.
Proof. unfold getDefaultSettings. frame_with. Qed.

Lemma handleBinaryMessage_ignored b : preserves f (handleBinaryMessage b).
Proof. unfold handleBinaryMessage. frame_with. Qed.

End OutboundInvariance.

Section InboundInvariance.
Context `{Ext : Externals}.
Context {X : Type} (f : TpaSession -> X).

Hypothesis f_emitted : forall v st, f (set_emitted v st) = f st.
Hypothesis f_sent : forall v st, f (set_sent v st) = f st.
Hypothesis f_settingsData : forall v st, f (set_settingsData v st) = f st.
Hypothesis f_tpaConfig : forall v st, f (set_tpaConfig v st) = f st.
Hypothesis f_resolvedPhotos : forall v st, f (set_resolvedPhotos v st) = f st.
Hypothesis f_pendingPhotoRequests :
  forall v st, f (set_pendingPhotoRequests v st) = f st.
Hypothesis f_reconnectAttempts : forall v st, f (set_reconnectAttempts v st) = f st.
Hypothesis f_fromSettings : preserves f updateSubscriptionsFromSettings.

Hint Resolve emit_ignored send_ignored updateSubscriptions_ignored
  getDefaultSettings_ignored handleBinaryMessage_ignored : frame.

Lemma onConnectionAck_ignored m : preserves f (onConnectionAck m).
Proof. unfold onConnectionAck. frame_with. Qed.

Lemma dispatch_ignored m : preserves f (dispatch m).
Proof.
  unfold dispatch, handle_branch, onConnectionAck, onConnectionError, onAudioChunk,
    onDataStream, onPhotoResponse, onSettingsUpdate, onAppStopped,
    onDashboardModeChanged, onDashboardAlwaysOnChanged, onConnectionErrorLiteral,
    onAugmentosSettingsUpdate, onMediaUpdate, onUnrecognized.
  frame_with.
Qed.

Hint Resolve dispatch_ignored : frame.

Lemma handleMessage_ignored m : preserves f (handleMessage m).
Proof. unfold handleMessage. frame_with. Qed.

Hint Resolve handleMessage_ignored : frame.

Lemma messageHandler_ignored data isBinary : preserves f (messageHandler data isBinary).
Proof. unfold messageHandler. frame_with. Qed.

End InboundInvariance.

Section InboundInvariants.
Context `{Ext : Externals}.

(** X9.  No frame from the cloud rebinds the session: whatever arrives, the
    session keeps its identifier, its configuration, its socket, the timers
    armed so far and the settings-based subscription handler with its
    triggers. *)
Theorem inbound_frames_keep_binding
    (st : TpaSession) (data : RawData) (isBinary : bool) :
  let st' := run (messageHandler data isBinary) st in
  sessionId st' = sessionId st
  /\ config st' = config st
  /\ ws st' = ws st
  /\ timers st' = timers st
  /\ subscriptionSettingsHandler st' = subscriptionSettingsHandler st
  /\ subscriptionUpdateTriggers st' = subscriptionUpdateTriggers st
  /\ shouldUpdateSubscriptionsOnSettingsChange st'
     = shouldUpdateSubscriptionsOnSettingsChange st.
Proof.
  intros st'.
  pose (f := fun s : TpaSession =>
               (sessionId s, config s, ws s, timers s, subscriptionSettingsHandler s,
                subscriptionUpdateTriggers s,
                shouldUpdateSubscriptionsOnSettingsChange s)).
  assert (f st' = f st) as Hf.
  { apply (messageHandler_ignored f); try (intros; reflexivity).
    apply (updateSubscriptionsFromSettings_ignored f); intros; reflexivity. }
  unfold f in Hf. inversion Hf. repeat split; assumption.
Qed.

(** The subscriptions seen through the absence of a handler. *)
Lemma updateSubscriptionsFromSettings_without_handler :
  preserves (fun s : TpaSession =>
               match subscriptionSettingsHandler s with
               | None => Some (subscriptions s)
               | Some _ => None
               end) updateSubscriptionsFromSettings.
Proof.
  intros st.
  pose proof (updateSubscriptionsFromSettings_ignored subscriptionSettingsHandler
                (fun _ _ => eq_refl) (fun _ _ => eq_refl) (fun _ _ => eq_refl) st) as Hh.
  rewrite Hh. destruct (subscriptionSettingsHandler st) eqn:Hhandler; [reflexivity|].
  unfold updateSubscriptionsFromSettings. rewrite bind_gets, Hhandler. reflexivity.
Qed.

(** X10.  As long as no settings-based subscription handler is installed, no
    frame from the cloud changes what the session is subscribed to. *)
Theorem inbound_frames_keep_subscriptions
    (st : TpaSession) (data : RawData) (isBinary : bool) :
  subscriptionSettingsHandler st = None ->
  subscriptions (run (messageHandler data isBinary) st) = subscriptions st.
Proof.
  intros Hnone.
  pose proof (messageHandler_ignored
                (fun s : TpaSession =>
                   match subscriptionSettingsHandler s with
                   | None => Some (subscriptions s)
                   | Some _ => None
                   end)
                (fun _ _ => eq_refl) (fun _ _ => eq_refl) (fun _ _ => eq_refl)
                (fun _ _ => eq_refl) (fun _ _ => eq_refl) (fun _ _ => eq_refl)
                (fun _ _ => eq_refl)
                updateSubscriptionsFromSettings_without_handler
                data isBinary st) as Hf.
  cbv beta in Hf.
  pose proof (messageHandler_ignored subscriptionSettingsHandler
                (fun _ _ => eq_refl) (fun _ _ => eq_refl) (fun _ _ => eq_refl)
                (fun _ _ => eq_refl) (fun _ _ => eq_refl) (fun _ _ => eq_refl)
                (fun _ _ => eq_refl)
                (updateSubscriptionsFromSettings_ignored subscriptionSettingsHandler
                   (fun _ _ => eq_refl) (fun _ _ => eq_refl) (fun _ _ => eq_refl))
                data isBinary st) as Hh.
  rewrite Hh, Hnone in Hf. unfold run. congruence.
Qed.

End InboundInvariants.

(** A data frame at a session that subscribed to a stream by hand. *)
Lemma inbound_frames_keep_subscriptions_witness :
  let st := set_subscriptions ["transcription:en-US"] Sample.connected in
  subscriptions
    (run (messageHandler (Ext := Sample.externals)
            (RString Sample.transcription_frame) false) st)
  = ["transcription:en-US"].
Proof.
  intros st.
  apply (inbound_frames_keep_subscriptions (Ext := Sample.externals) st
           (RString Sample.transcription_frame) false).
  reflexivity.
Defined.

(** ** A connection that is acknowledged *)

Section Traces.
Context `{Ext : Externals}.

Lemma only_adds_quiet {A} (m : Eff A) :
  (forall st, emitted (fst (m st)) = emitted st /\ sent (fst (m st)) = sent st) ->
  only_adds m.
Proof.
  intros Hm st. exists [], []. rewrite !app_nil_r. apply Hm.
Qed.

Lemma only_adds_bind {A B} (m : Eff A) (k : A -> Eff B) :
  only_adds m -> (forall a, only_adds (k a)) -> only_adds (and_then m k).
Proof.
  intros Hm Hk st. unfold and_then, mbind, eff_bind.
  destruct (Hm st) as (e1 & f1 & He1 & Hf1).
  destruct (m st) as [st' [a|e]]; simpl in *.
  - destruct (Hk a st') as (e2 & f2 & He2 & Hf2).
    exists (e1 ++ e2), (f1 ++ f2). rewrite He2, Hf2, He1, Hf1, !app_assoc.
    split; reflexivity.
  - exists e1, f1. split; assumption.
Qed.

Lemma only_adds_try_catch {A} (body : Eff A) (handler : string -> Eff A) :
  only_adds body -> (forall e, only_adds (handler e)) ->
  only_adds (try_catch body handler).
Proof.
  intros Hb Hh st. unfold try_catch.
  destruct (Hb st) as (e1 & f1 & He1 & Hf1).
  destruct (body st) as [st' [a|e]]; simpl in *.
  - exists e1, f1. split; assumption.
  - destruct (Hh e st') as (e2 & f2 & He2 & Hf2).
    exists (e1 ++ e2), (f1 ++ f2). rewrite He2, Hf2, He1, Hf1, !app_assoc.
    split; reflexivity.
Qed.

Lemma only_adds_emit event d : only_adds (emit event d).
Proof. intros st. exists [(event, d)], []. rewrite app_nil_r. split; reflexivity. Qed.

Lemma only_adds_write (g : TpaSession -> JsValue) :
  only_adds (modify (fun st => set_sent (sent st ++ [g st]) st)).
Proof. intros st. exists [], [g st]. rewrite app_nil_r. split; reflexivity. Qed.

End Traces.

(** Walks through a method and checks that it only adds to the traces. *)
Ltac only_adds_step :=
  first
    [ solve [auto with frame]
    | apply only_adds_bind; [| intros ?]
    | apply only_adds_try_catch; [| intros ?]
    | apply only_adds_emit
    | apply (only_adds_write (fun _ => _))
    | apply only_adds_quiet; intros ?; split; reflexivity
    | match goal with
      | |- only_adds (let _ := _ in _) => cbv zeta
      | |- only_adds (if ?b then _ else _) => destruct b
      | |- only_adds (match ?x with _ => _ end) => destruct x
      end ].

Ltac only_adds_run := repeat only_adds_step.

Section TracesOfMethods.
Context `{Ext : Externals}.

Lemma only_adds_send message : only_adds (send message).
Proof. unfold send. only_adds_run. Qed.

Hint Resolve only_adds_send : frame.

Lemma only_adds_updateSubscriptions : only_adds updateSubscriptions.
Proof. unfold updateSubscriptions. only_adds_run. Qed.

Hint Resolve only_adds_updateSubscriptions : frame.

Lemma only_adds_updateSubscriptionsFromSettings :
  only_adds updateSubscriptionsFromSettings.
Proof. unfold updateSubscriptionsFromSettings. only_adds_run. Qed.

End TracesOfMethods.

Section Acknowledgement.
Context `{Ext : Externals}.

Lemma getDefaultSettings_pure st : fst (getDefaultSettings st) = st.
Proof.
  assert (preserves (fun s : TpaSession => s) getDefaultSettings) as H
    by (unfold getDefaultSettings; frame).
  apply H.
Qed.

Lemma length_zero_truthy v :
  Js.truthy v = true -> exists b, length_zero v = Normal b.
Proof.
  unfold length_zero. destruct v; simpl; try discriminate; intros _;
    rewrite bind_normal; eauto.
Qed.

Lemma received_settings_truthy settings :
  Js.truthy (Js.or_else settings (JArr [])) = true.
Proof.
  unfold Js.or_else. destruct (Js.truthy settings) eqn:H; [exact H | reflexivity].
Qed.


(** An acknowledgement reaches the ['connected'] event when the
    validation of the configuration it carries, if it carries one, does
    not throw, and the settings manager does not throw either; up to
    there only the settings and the configuration are assigned. *)
Lemma ack_reaches_connected st fields :
  (Js.truthy (default JUndefined (Js.assoc "config" fields)) = true ->
   throws (validateTpaConfig (default JUndefined (Js.assoc "config" fields))) = false) ->
  (forall v, throws (settings_updateSettings v) = false) ->
  exists settings config current,
    onConnectionAck (JObj fields) st
    = (emit "connected" current;;
       updateSubscriptions;;
       should <- gets shouldUpdateSubscriptionsOnSettingsChange;
       if (should : bool) then
         nonempty <- liftC (length_positive current);
         if (nonempty : bool) then updateSubscriptionsFromSettings else skip
       else skip)
        (set_settingsData settings (set_tpaConfig config st)).
Proof.
  intros Hval Hupd. unfold onConnectionAck.
  rewrite get_obj. eff_run.
  rewrite get_obj. eff_run.
  set (cfg := default JUndefined (Js.assoc "config" fields)).
  set (received := Js.or_else _ _).
  destruct (length_zero_truthy received (received_settings_truthy _))
    as [empty Hempty].
  match goal with
  | |- context [and_then (gets settingsData) ?k] =>
      set (finish := and_then (gets settingsData) k)
  end.
  assert (forall s, (exists sd tc, s = set_settingsData sd (set_tpaConfig tc st)) ->
          exists settings config current,
            finish s
            = (emit "connected" current;;
               updateSubscriptions;;
               should <- gets shouldUpdateSubscriptionsOnSettingsChange;
               if (should : bool) then
                 nonempty <- liftC (length_positive current);
                 if (nonempty : bool) then updateSubscriptionsFromSettings else skip
               else skip)
                (set_settingsData settings (set_tpaConfig config st))) as Hfinish.
  { intros s (sd & tc & ->). unfold finish. rewrite bind_gets.
    cbv beta. rewrite bind_liftC.
    destruct (settings_updateSettings _) as [changes|e] eqn:Hu.
    2:{ assert (throws (Throw (A := JsValue) e) = false) as Hno
          by (rewrite <- Hu; apply Hupd).
        discriminate. }
    eexists _, _, _. reflexivity. }
  clearbody finish.
  assert (forall s, (exists sd tc, s = set_settingsData sd (set_tpaConfig tc st)) ->
          exists settings config current,
            (empty0 <- liftC (length_zero received);
             loaded <- gets tpaConfig;
             (if (empty0 : bool) && bool_decide (is_Some loaded)
              then try_catch
                     (defaults <- getDefaultSettings; modify (set_settingsData defaults))
                     (fun _ : string => skip)
              else skip);; finish) s
            = (emit "connected" current;;
               updateSubscriptions;;
               should <- gets shouldUpdateSubscriptionsOnSettingsChange;
               if (should : bool) then
                 nonempty <- liftC (length_positive current);
                 if (nonempty : bool) then updateSubscriptionsFromSettings else skip
               else skip)
                (set_settingsData settings (set_tpaConfig config st))) as Hdefaults.
  { intros s (sd & tc & ->). rewrite bind_liftC, Hempty, bind_gets.
    destruct (empty && bool_decide (is_Some _)).
    - rewrite bind_eq, try_catch_eq, bind_eq.
      pose proof (getDefaultSettings_pure (set_settingsData sd (set_tpaConfig tc st)))
        as Hpure.
      destruct (getDefaultSettings _) as [s' [defaults|e]]; simpl in Hpure; subst s'.
      + apply Hfinish. eexists _, _. reflexivity.
      + apply Hfinish. eexists _, _. reflexivity.
    - unfold skip. rewrite bind_mret. apply Hfinish. eexists _, _. reflexivity. }
  destruct (Js.truthy cfg) eqn:Hcfg.
  - destruct (validateTpaConfig cfg) as [valid|e] eqn:Hv.
    2:{ pose proof (Hval Hcfg) as Hno. fold cfg in Hno. rewrite Hv in Hno.
        discriminate. }
    rewrite bind_liftC. destruct valid.
    + rewrite bind_modify. apply Hdefaults. eexists _, _. reflexivity.
    + unfold skip at 1. rewrite bind_mret. apply Hdefaults. eexists _, _. reflexivity.
  - rewrite bind_mret. cbv beta. unfold skip at 1. rewrite bind_mret.
    apply Hdefaults. eexists _, _. reflexivity.
Qed.

(** On an open socket the acknowledgement is followed by the
    announcement of the subscriptions; events and frames come after what
    was recorded, and the binding of the session stays. *)
Lemma ack_handled st fields type sock :
  Js.assoc "type" fields = Some type ->
  branch_of (JObj fields) type = ConnectionAck ->
  (Js.truthy (default JUndefined (Js.assoc "config" fields)) = true ->
   throws (validateTpaConfig (default JUndefined (Js.assoc "config" fields))) = false) ->
  (forall v, throws (settings_updateSettings v) = false) ->
  ws st = Some sock -> readyState sock = 1 -> sendThrows sock = None ->
  exists st' current events frames,
    handleMessage (JObj fields) st = (st', Normal tt)
    /\ emitted st' = emitted st ++ [("connected", current)] ++ events
    /\ sent st' = sent st ++ [subscription_update_message st] ++ frames
    /\ (ws st', timers st', sessionId st', config st', reconnectAttempts st')
       = (ws st, timers st, sessionId st, config st, reconnectAttempts st).
Proof.
  intros Htype Hbranch Hval Hupd Hws Hrs Hw.
  pose (f := fun s : TpaSession =>
               (ws s, timers s, sessionId s, config s, reconnectAttempts s)).
  assert (f (fst (handleMessage (JObj fields) st)) = f st) as Hf.
  { rewrite (handleMessage_object fields type st Htype), Hbranch.
    apply preserves_try_catch.
    - apply (onConnectionAck_ignored f); try (intros; reflexivity).
      apply (updateSubscriptionsFromSettings_ignored f); intros; reflexivity.
    - intros e. apply (emit_ignored f). intros; reflexivity. }
  destruct (ack_reaches_connected st fields Hval Hupd) as (sd & tc & current & Hack).
  revert Hf.
  rewrite (handleMessage_object fields type st Htype), Hbranch, try_catch_eq.
  unfold handle_branch. rewrite Hack, bind_emit, bind_eq.
  match goal with
  | |- context [updateSubscriptions ?s] =>
      rewrite (updateSubscriptions_open s sock Hws Hrs Hw)
  end.
  match goal with
  | |- context [and_then (gets shouldUpdateSubscriptionsOnSettingsChange) ?k] =>
      set (rest := and_then (gets shouldUpdateSubscriptionsOnSettingsChange) k)
  end.
  assert (only_adds rest) as Hrest.
  { pose proof only_adds_updateSubscriptionsFromSettings. unfold rest. only_adds_run. }
  match goal with
  | |- context [rest ?s] => destruct (Hrest s) as (ev & fr & Hev & Hfr); revert Hev Hfr
  end.
  simpl.
  match goal with
  | |- context [rest ?s] => destruct (rest s) as [st' [[]|e]]
  end; simpl; intros Hev Hfr Hf.
  - exists st', current, ev, fr. repeat split; try assumption.
    + rewrite Hev, <- app_assoc. reflexivity.
    + rewrite Hfr, <- app_assoc. reflexivity.
  - eexists _, current, (ev ++ [_]), fr. split; [reflexivity|]. simpl.
    split; [rewrite Hev, <- !app_assoc; reflexivity|].
    split; [rewrite Hfr, <- app_assoc; reflexivity|]. exact Hf.
Qed.

(** [connect] resolves when the socket opens, its writes succeed and the
    cloud answers with an acknowledgement. *)
Lemma connect_acknowledged sid st fields type :
  JsString.nonempty (default "" (augmentOSWebsocketUrl (config st))) = true ->
  Js.assoc "type" fields = Some type ->
  branch_of (JObj fields) type = ConnectionAck ->
  (Js.truthy (default JUndefined (Js.assoc "config" fields)) = true ->
   throws (validateTpaConfig (default JUndefined (Js.assoc "config" fields))) = false) ->
  (forall v, throws (settings_updateSettings v) = false) ->
  let bound := set_sessionId (Some sid) st in
  exists st' current events frames,
    connect sid (SocketOpens None (Some (JObj fields))) st = (st', Normal tt)
    /\ emitted st' = emitted st ++ [("connected", current)] ++ events
    /\ sent st'
       = sent st ++ [JObj [("type", JStr CONNECTION_INIT);
                           ("sessionId", JStr sid);
                           ("packageName", JStr (packageName (config st)));
                           ("apiKey", JStr (apiKey (config st)));
                           ("timestamp", JDate Date_now)];
                     subscription_update_message bound] ++ frames
    /\ ws st' = Some {| readyState := 1; sendThrows := None |}
    /\ timers st' = timers st ++ [{| purpose := ConnectionTimeout; delay := 5000 |}]
    /\ sessionId st' = Some sid
    /\ config st' = config st
    /\ reconnectAttempts st' = reconnectAttempts st.
Proof.
  intros Hurl Htype Hbranch Hval Hupd bound.
  unfold connect. eff_run. simpl. rewrite Hurl. simpl. eff_run.
  unfold setTimeout at 1. eff_run.
  rewrite bind_eq, try_catch_eq.
  unfold sendConnectionInit. rewrite bind_gets. unfold id. cbv beta.
  erewrite (send_open_stamped _ {| readyState := 1; sendThrows := None |})
    by reflexivity.
  eff_run.
  match goal with
  | |- context [and_then (handleMessage _) _ ?s] => set (opened := s)
  end.
  destruct (ack_handled opened fields type {| readyState := 1; sendThrows := None |}
              Htype Hbranch Hval Hupd eq_refl eq_refl eq_refl)
    as (st' & current & events & frames & Hrun & Hemitted & Hsent & Hf).
  rewrite bind_eq, Hrun. eff_run. rewrite Hemitted.
  rewrite drop_app_length. simpl.
  rewrite ?bool_decide_eq_true_2 by (apply elem_of_cons; left; reflexivity).
  exists st', current, events, frames.
  split; [reflexivity|]. split; [exact Hemitted|].
  split; [rewrite Hsent; simpl; rewrite <- app_assoc; reflexivity|].
  injection Hf as Hws Htimers Hsid Hconfig Hattempts.
  repeat split; assumption.
Qed.


End Acknowledgement.

Section AcknowledgedConnection.
Context `{Ext : Externals}.

(** X11.  Subscriptions made while the session is not connected are not
    lost: [subscribe] only records them, and the connection that is
    acknowledged next writes the connection request followed by a
    subscription update that lists them, in the order they were made.
    The acknowledgement counts when the validation of the configuration
    it carries, if it carries one, does not throw, and the settings
    manager accepts the settings. *)
Theorem offline_subscriptions_announced_on_connect
    (st : TpaSession) (t sid : string)
    (fields : list (string * JsValue)) (type : JsValue) :
  ws_is_open st = false ->
  JsString.nonempty (default "" (augmentOSWebsocketUrl (config st))) = true ->
  Js.assoc "type" fields = Some type ->
  branch_of (JObj fields) type = ConnectionAck ->
  (Js.truthy (default JUndefined (Js.assoc "config" fields)) = true ->
   throws (validateTpaConfig (default JUndefined (Js.assoc "config" fields))) = false) ->
  (forall v, throws (settings_updateSettings v) = false) ->
  let subscribed := run (subscribe t) st in
  sent subscribed = sent st
  /\ exists st' frames,
      connect sid (SocketOpens None (Some (JObj fields))) subscribed
      = (st', Normal tt)
      /\ sent st'
         = sent st
           ++ [JObj [("type", JStr CONNECTION_INIT);
                     ("sessionId", JStr sid);
                     ("packageName", JStr (packageName (config st)));
                     ("apiKey", JStr (apiKey (config st)));
                     ("timestamp", JDate Date_now)];
               JObj [("type", JStr SUBSCRIPTION_UPDATE);
                     ("packageName", JStr (packageName (config st)));
                     ("subscriptions",
                      JArr (JStr <$> JsSet.add t (subscriptions st)));
                     ("sessionId", JStr sid);
                     ("timestamp", JDate Date_now)]]
           ++ frames.
Proof.
  intros Hclosed Hurl Htype Hbranch Hval Hupd subscribed.
  assert (subscribed = set_subscriptions (JsSet.add t (subscriptions st)) st) as Hsub.
  { unfold subscribed, run, subscribe. rewrite bind_modify, bind_gets.
    assert (ws_is_open (set_subscriptions (JsSet.add t (subscriptions st)) st) = false)
      as -> by exact Hclosed.
    reflexivity. }
  split; [rewrite Hsub; reflexivity|].
  destruct (connect_acknowledged sid subscribed fields type) as
    (st' & current & events & frames & Hrun & _ & Hsent & _); try assumption.
  { rewrite Hsub. exact Hurl. }
  exists st', frames. split; [exact Hrun|].
  rewrite Hsent, Hsub. reflexivity.
Qed.


End AcknowledgedConnection.

(** A session that has never been connected subscribes to
    [transcription] and is then connected as [S1]; the acknowledgement
    carries a configuration, which the validation of [models.ts]
    accepts. *)
Lemma offline_subscriptions_announced_on_connect_witness :
  let ack :=
    JObj [("type", JStr "tpa_connection_ack"); ("config", SampleConfig.tpa_config)] in
  let subscribed :=
    run (subscribe (Ext := SampleConfig.externals) "transcription") Sample.idle in
  sent subscribed = []
  /\ exists st',
      connect (Ext := SampleConfig.externals) "S1" (SocketOpens None (Some ack))
        subscribed = (st', Normal tt).
Proof.
  intros ack subscribed.
  destruct (offline_subscriptions_announced_on_connect (Ext := SampleConfig.externals)
              Sample.idle "transcription" "S1"
              [("type", JStr "tpa_connection_ack"); ("config", SampleConfig.tpa_config)]
              (JStr "tpa_connection_ack"))
    as (Hsent & st' & frames & Hrun & _);
    try reflexivity; try (intros v; reflexivity).
  split; [exact Hsent|]. exists st'. exact Hrun.
Defined.


(** ** The configuration of a TPA and its default settings *)

Section Configuration.
Context `{Ext : Externals} `{Types : AppSettingType}.

Lemma every_true {A} (p : A -> Completion bool) (xs : list A) :
  Models.every p xs = Normal true -> Forall (fun x => p x = Normal true) xs.
Proof.
  induction xs as [|x xs IH]; simpl; intros H; [constructor|].
  destruct (p x) as [[]|e] eqn:Hx; rewrite ?bind_normal in H; try discriminate.
  constructor; [exact Hx | apply IH, H].
Qed.

(** Only an object passes the validation of a setting. *)
Lemma valid_setting_object setting :
  Models.valid_setting setting = Normal true -> exists fields, setting = JObj fields.
Proof.
  unfold Models.valid_setting.
  destruct setting as [| |b|n|s|items|fields|m|d|bytes]; simpl; try discriminate;
    eauto; rewrite ?bind_normal; simpl;
    repeat match goal with
           | |- context [String.eqb ?a ?b] => destruct (String.eqb a b); simpl
           end;
    rewrite ?bind_normal; simpl; try discriminate.
Qed.

(** The settings of a configuration that passes [validateTpaConfig]. *)
Lemma valid_config_settings cfg :
  Models.validateTpaConfig cfg = Normal true ->
  exists items,
    Js.get cfg "settings" = Normal (JArr items)
    /\ Forall (fun s => exists fields, s = JObj fields) items.
Proof.
  unfold Models.validateTpaConfig.
  destruct (negb (Js.truthy cfg) || negb (Js.is_object cfg)) eqn:Hobj;
    [discriminate|].
  assert (forall k, exists v, Js.get cfg k = Normal v) as Hget.
  { intros k. destruct cfg; simpl in *; try discriminate; eauto. }
  destruct (Hget "name") as [name ->], (Hget "description") as [description ->],
    (Hget "version") as [version ->], (Hget "settings") as [settings ->].
  rewrite !bind_normal.
  destruct (negb (Js.is_string name) || negb (Js.is_string description)
            || negb (Js.is_string version)); [discriminate|].
  rewrite ?bind_normal. destruct settings; simpl; try discriminate.
  intros Hevery. eexists. split; [reflexivity|].
  apply every_true in Hevery.
  eapply Forall_impl; [exact Hevery|]. intros s. apply valid_setting_object.
Qed.

Lemma filter_not_group_objects items :
  Forall (fun s => exists fields, s = JObj fields) items ->
  exists kept,
    filter_not_group items = Normal kept
    /\ Forall (fun s => exists fields, s = JObj fields) kept
    /\ (forall fields,
          JObj fields ∈ kept
          <-> JObj fields ∈ items
              /\ Js.is_str (default JUndefined (Js.assoc "type" fields)) "group"
                 = false).
Proof.
  induction 1 as [|s items [fields ->] _ (kept & Hkept & Hobjects & Hiff)]; simpl.
  - exists []. split; [reflexivity|]. split; [constructor|].
    intros fields. rewrite !elem_of_nil. tauto.
  - rewrite bind_normal, Hkept, bind_normal.
    destruct (Js.is_str (default JUndefined (Js.assoc "type" fields)) "group") eqn:Hg;
      simpl.
    + exists kept. split; [reflexivity|]. split; [exact Hobjects|].
      intros fs. rewrite Hiff, elem_of_cons. split; [tauto|].
      intros [[Heq|Hin] Hfs]; [|tauto]. injection Heq as ->. congruence.
    + exists (JObj fields :: kept). split; [reflexivity|].
      split; [constructor; eauto|].
      intros fs. rewrite !elem_of_cons, Hiff. split.
      * intros [Heq|[Hin Hfs]]; [|tauto]. injection Heq as ->. auto.
      * intros [[Heq|Hin] Hfs]; auto.
Qed.

Lemma map_with_value_objects kept :
  Forall (fun s => exists fields, s = JObj fields) kept ->
  exists mapped,
    map_with_value kept = Normal mapped
    /\ (forall d,
          d ∈ mapped
          <-> exists fields,
                JObj fields ∈ kept
                /\ d = JObj (Js.assign "value"
                               (default JUndefined (Js.assoc "defaultValue" fields))
                               fields)).
Proof.
  induction 1 as [|s kept [fields ->] _ (mapped & Hmapped & Hiff)]; simpl.
  - exists []. split; [reflexivity|]. intros d. rewrite elem_of_nil. split; [tauto|].
    intros (fields & Hin & _). apply elem_of_nil in Hin. contradiction.
  - rewrite bind_normal, Hmapped, bind_normal. eexists. split; [reflexivity|].
    intros d. rewrite elem_of_cons, Hiff. split.
    + intros [->|(fs & Hin & ->)].
      * exists fields. split; [left | reflexivity].
      * exists fs. split; [right; exact Hin | reflexivity].
    + intros (fs & Hin & ->). apply elem_of_cons in Hin as [Heq|Hin].
      * injection Heq as ->. left. reflexivity.
      * right. exists fs. split; [exact Hin | reflexivity].
Qed.

(** On a configuration that [validateTpaConfig] accepts,
    [getDefaultSettings] returns: the groups are left out and every other
    setting comes with its default as value. *)
Lemma getDefaultSettings_of_valid_config (st : TpaSession) (cfg : JsValue) :
  tpaConfig st = Some cfg ->
  Models.validateTpaConfig cfg = Normal true ->
  exists items defaults,
    Js.get cfg "settings" = Normal (JArr items)
    /\ getDefaultSettings st = (st, Normal (JArr defaults))
    /\ (forall d,
          d ∈ defaults
          <-> exists fields,
                JObj fields ∈ items
                /\ Js.is_str (default JUndefined (Js.assoc "type" fields)) "group"
                   = false
                /\ d = JObj (Js.assign "value"
                               (default JUndefined (Js.assoc "defaultValue" fields))
                               fields)).
Proof.
  intros Hcfg Hvalid.
  destruct (valid_config_settings cfg Hvalid) as (items & Hsettings & Hitems).
  destruct (filter_not_group_objects items Hitems)
    as (kept & Hkept & Hobjects & Hkept_iff).
  destruct (map_with_value_objects kept Hobjects) as (mapped & Hmapped & Hmapped_iff).
  exists items, mapped. split; [exact Hsettings|]. split.
  - unfold getDefaultSettings. rewrite bind_gets, Hcfg. cbv beta.
    rewrite bind_liftC, Hsettings, bind_liftC, Hkept, bind_liftC, Hmapped.
    reflexivity.
  - intros d. rewrite Hmapped_iff. split.
    + intros (fields & Hin & ->). apply Hkept_iff in Hin as [Hin Hgroup]. eauto.
    + intros (fields & Hin & Hgroup & ->). exists fields.
      split; [apply Hkept_iff; auto | reflexivity].
Qed.

(** X13.  A configuration that [validateTpaConfig] accepts always has
    default settings: [getDefaultSettings] returns normally and leaves the
    session as it is.  What it returns are exactly the settings of the
    configuration that are not groups, each with its [defaultValue] as
    [value]; so every setting returned is an object that is not a group
    and whose [value] is its [defaultValue]. *)
Theorem valid_config_has_default_settings (st : TpaSession) (cfg : JsValue) :
  tpaConfig st = Some cfg ->
  Models.validateTpaConfig cfg = Normal true ->
  exists items defaults,
    Js.get cfg "settings" = Normal (JArr items)
    /\ getDefaultSettings st = (st, Normal (JArr defaults))
    /\ (forall d,
          d ∈ defaults
          <-> exists fields,
                JObj fields ∈ items
                /\ Js.is_str (default JUndefined (Js.assoc "type" fields)) "group"
                   = false
                /\ d = JObj (Js.assign "value"
                               (default JUndefined (Js.assoc "defaultValue" fields))
                               fields))
    /\ Forall (fun d => exists fields,
                 d = JObj fields
                 /\ Js.assoc "value" fields
                    = Some (default JUndefined (Js.assoc "defaultValue" fields))
                 /\ Js.is_str (default JUndefined (Js.assoc "type" fields)) "group"
                    = false) defaults.
Proof.
  intros Hcfg Hvalid.
  destruct (getDefaultSettings_of_valid_config st cfg Hcfg Hvalid)
    as (items & defaults & Hsettings & Hrun & Hiff).
  exists items, defaults. split; [exact Hsettings|]. split; [exact Hrun|].
  split; [exact Hiff|].
  apply Forall_forall. intros d Hd. apply Hiff in Hd as (fields & _ & Hgroup & ->).
  eexists. split; [reflexivity|]. rewrite !assoc_assign. simpl.
  split; [reflexivity | exact Hgroup].
Qed.

End Configuration.

(** The sample configuration at a session that has loaded it: its toggle
    and its slider have defaults, its group has none. *)
Lemma valid_config_has_default_settings_witness :
  exists defaults,
    getDefaultSettings SampleConfig.configured
    = (SampleConfig.configured, Normal (JArr defaults))
    /\ length defaults = 2%nat.
Proof.
  destruct (valid_config_has_default_settings (Types := SampleConfig.types)
              SampleConfig.configured SampleConfig.tpa_config eq_refl eq_refl)
    as (items & defaults & _ & Hrun & _).
  exists defaults. split; [exact Hrun|].
  vm_compute in Hrun. injection Hrun as <-. reflexivity.
Defined.

Section LoadingConfiguration.
Context `{Ext : Externals} `{Types : AppSettingType}.

(** X14.  Loading a configuration is all or nothing. When the validation of
    the session is [validateTpaConfig] of [models.ts], a load that returns
    has stored the configuration it returns, and that configuration has
    default settings; a load that fails throws an error that begins with
    ['Failed to load TPA configuration: '] and leaves the session as it was. *)
Theorem loadConfigFromJson_all_or_nothing (st : TpaSession) (jsonData : string) :
  (forall v, validateTpaConfig v = Models.validateTpaConfig v) ->
  (exists cfg defaults,
      loadConfigFromJson jsonData st = (set_tpaConfig (Some cfg) st, Normal cfg)
      /\ getConfig (set_tpaConfig (Some cfg) st) = Some cfg
      /\ getDefaultSettings (set_tpaConfig (Some cfg) st)
         = (set_tpaConfig (Some cfg) st, Normal (JArr defaults)))
  \/ (exists e,
      loadConfigFromJson jsonData st
      = (st, Throw ("Failed to load TPA configuration: " +:+ e))).
Proof.
  intros Hmodels. unfold loadConfigFromJson. rewrite try_catch_eq, bind_liftC.
  destruct (JSON_parse jsonData) as [cfg|e]; [|right; eexists; reflexivity].
  rewrite bind_liftC, Hmodels.
  destruct (Models.validateTpaConfig cfg) as [[]|e] eqn:Hvalid;
    [|right; eexists; reflexivity|right; eexists; reflexivity].
  left.
  destruct (getDefaultSettings_of_valid_config (set_tpaConfig (Some cfg) st) cfg
              eq_refl Hvalid) as (items & defaults & _ & Hdefaults & _).
  exists cfg, defaults. split; [reflexivity|]. split; [reflexivity | exact Hdefaults].
Qed.

Lemma find_setting_objects key items :
  Forall (fun s => exists fields, s = JObj fields) items ->
  exists found,
    find_setting key items = Normal found
    /\ ((found = JUndefined
         /\ forall fields,
              JObj fields ∈ items ->
              Js.is_str (default JUndefined (Js.assoc "type" fields)) "group" = false ->
              Js.assoc "key" fields <> Some (JStr key))
        \/ exists fields,
            found = JObj fields /\ found ∈ items
            /\ Js.assoc "key" fields = Some (JStr key)
            /\ Js.is_str (default JUndefined (Js.assoc "type" fields)) "group"
               = false).
Proof.
  induction 1 as [|s items [fields ->] _ (found & Hfound & Hcases)].
  - exists JUndefined. split; [reflexivity|]. left. split; [reflexivity|].
    intros fields Hin. apply elem_of_nil in Hin. contradiction.
  - assert (Js.assoc "key" fields <> Some (JStr key)
            \/ Js.is_str (default JUndefined (Js.assoc "type" fields)) "group" = true ->
            find_setting key (JObj fields :: items) = find_setting key items)
      as Hskip.
    { intros Hno. simpl. rewrite bind_normal.
      destruct (Js.is_str (default JUndefined (Js.assoc "type" fields)) "group") eqn:Hg;
        simpl; [rewrite bind_normal; reflexivity|].
      destruct Hno as [Hno|Hno]; [|discriminate].
      destruct (Js.assoc "key" fields) as [k|] eqn:Hk; simpl.
      - rewrite bind_normal. simpl. rewrite bind_normal.
        destruct k; simpl; try reflexivity.
        destruct (String.eqb_spec s key) as [->|_]; [congruence | reflexivity].
      - rewrite bind_normal. simpl. rewrite bind_normal. reflexivity. }
    destruct (Js.is_str (default JUndefined (Js.assoc "type" fields)) "group") eqn:Hg.
    + (* a group is passed over *)
      rewrite Hskip by auto. exists found. split; [exact Hfound|].
      destruct Hcases as [[-> Hnone]|(fs & -> & Hin & Hk & Hgr)].
      * left. split; [reflexivity|]. intros fs Hin Hgroup.
        apply elem_of_cons in Hin as [Heq|Hin]; [|apply Hnone; assumption].
        injection Heq as ->. congruence.
      * right. exists fs. repeat split; try assumption. apply elem_of_cons. auto.
    + assert (Js.assoc "key" fields = Some (JStr key)
              \/ Js.assoc "key" fields <> Some (JStr key)) as [Hkey|Hkey].
      { destruct (Js.assoc "key" fields) as [[| | | |s| | | | |]|];
          try (right; discriminate).
        destruct (String.eqb_spec s key) as [->|Hne];
          [left; reflexivity | right; congruence]. }
      * (* the setting asked for *)
        exists (JObj fields). split.
        -- simpl. rewrite bind_normal, Hg. simpl. rewrite Hkey.
           rewrite bind_normal. simpl. rewrite bind_normal. simpl.
           rewrite String.eqb_refl, bind_normal. reflexivity.
        -- right. exists fields. repeat split; try assumption. left.
      * rewrite Hskip by auto. exists found. split; [exact Hfound|].
        destruct Hcases as [[-> Hnone]|(fs & -> & Hin & Hk & Hgr)].
        -- left. split; [reflexivity|]. intros fs Hin Hgroup.
           apply elem_of_cons in Hin as [Heq|Hin]; [|apply Hnone; assumption].
           injection Heq as ->. exact Hkey.
        -- right. exists fs. repeat split; try assumption. apply elem_of_cons. auto.
Qed.

(** X15.  On a configuration that [validateTpaConfig] accepts the look-up of
    a setting schema never throws and leaves the session as it is.  It
    returns a setting of the configuration that is not a group and has
    the key that was asked for, or [undefined] when the configuration has
    no such setting. *)
Theorem getSettingSchema_finds_keyed_setting
    (st : TpaSession) (cfg : JsValue) (key : string) :
  tpaConfig st = Some cfg ->
  Models.validateTpaConfig cfg = Normal true ->
  exists items found,
    Js.get cfg "settings" = Normal (JArr items)
    /\ getSettingSchema key st = (st, Normal found)
    /\ ((found = JUndefined
         /\ forall fields,
              JObj fields ∈ items ->
              Js.is_str (default JUndefined (Js.assoc "type" fields)) "group" = false ->
              Js.assoc "key" fields <> Some (JStr key))
        \/ exists fields,
            found = JObj fields /\ found ∈ items
            /\ Js.assoc "key" fields = Some (JStr key)
            /\ Js.is_str (default JUndefined (Js.assoc "type" fields)) "group"
               = false).
Proof.
  intros Hcfg Hvalid.
  destruct (valid_config_settings cfg Hvalid) as (items & Hsettings & Hitems).
  destruct (find_setting_objects key items Hitems) as (found & Hfound & Hcases).
  exists items, found. split; [exact Hsettings|]. split; [|exact Hcases].
  unfold getSettingSchema. rewrite bind_gets, Hcfg. cbv beta.
  rewrite bind_liftC, Hsettings. unfold liftC. rewrite Hfound. reflexivity.
Qed.

End LoadingConfiguration.

(** The sample configuration, loaded from its text. *)
Lemma loadConfigFromJson_all_or_nothing_witness :
  completion (loadConfigFromJson (Ext := SampleConfig.externals)
                SampleConfig.tpa_config_json) Sample.idle
  = Normal SampleConfig.tpa_config.
Proof.
  destruct (loadConfigFromJson_all_or_nothing (Ext := SampleConfig.externals)
              (Types := SampleConfig.types) Sample.idle SampleConfig.tpa_config_json
              (fun v => eq_refl)) as [(cfg & defaults & Hrun & _)|[e Hrun]];
    apply (f_equal snd) in Hrun; vm_compute in Hrun.
  - injection Hrun as <-. reflexivity.
  - discriminate.
Defined.

(** The schema of the slider of the sample configuration. *)
Lemma getSettingSchema_finds_keyed_setting_witness :
  exists found,
    getSettingSchema "size" SampleConfig.configured
    = (SampleConfig.configured, Normal found).
Proof.
  destruct (getSettingSchema_finds_keyed_setting (Types := SampleConfig.types)
              SampleConfig.configured SampleConfig.tpa_config "size" eq_refl eq_refl)
    as (items & found & _ & Hrun & _).
  exists found. exact Hrun.
Defined.

(** ** Media controls, settings for testing and the session id *)

Section MediaCommands.
Context `{Ext : Externals}.
Variable PHONE_MEDIA_CONTROL : string.

(** X16.  On an open socket whose writes succeed every media control writes
    exactly one frame: the command with its action (and for [seekTo] the
    position), as the control built it; [send] does not stamp it again. *)
Theorem media_controls_write_their_command
    (st : TpaSession) (sock : WebSocket) (positionSeconds : Z) :
  ws st = Some sock -> readyState sock = 1 -> sendThrows sock = None ->
  let command action extra :=
    JObj ([("type", JStr PHONE_MEDIA_CONTROL); ("action", JStr action)]
          ++ extra ++ [("timestamp", JDate Date_now)]) in
  let written frame := (set_sent (sent st ++ [frame]) st, Normal tt) in
  MediaControls.play PHONE_MEDIA_CONTROL st = written (command "play" [])
  /\ MediaControls.pause PHONE_MEDIA_CONTROL st = written (command "pause" [])
  /\ MediaControls.skipToNext PHONE_MEDIA_CONTROL st = written (command "next" [])
  /\ MediaControls.skipToPrevious PHONE_MEDIA_CONTROL st
     = written (command "previous" [])
  /\ MediaControls.seekTo PHONE_MEDIA_CONTROL positionSeconds st
     = written (command "seek" [("value", JNum positionSeconds)]).
Proof.
  intros Hws Hrs Hw command written.
  unfold MediaControls.play, MediaControls.pause, MediaControls.skipToNext,
    MediaControls.skipToPrevious, MediaControls.seekTo,
    MediaControls.sendCommandToCloud.
  repeat split;
    apply (send_open_stamped st sock _ (JStr PHONE_MEDIA_CONTROL) Date_now);
    auto.
Qed.

End MediaCommands.

(** [play] at a connected session. *)
Lemma media_controls_write_their_command_witness :
  length (sent (run (MediaControls.play (Ext := Sample.externals) "phone_media_control")
                    Sample.connected)) = 1%nat.
Proof.
  pose proof (media_controls_write_their_command (Ext := Sample.externals)
                "phone_media_control" Sample.connected
                {| readyState := 1; sendThrows := None |} 0 eq_refl eq_refl eq_refl)
    as [Hplay _].
  unfold run. rewrite Hplay. reflexivity.
Defined.

Section SettingsAndIdentity.
Context `{Ext : Externals}.

Lemma add_all_extends (xs s : list string) :
  exists added, JsSet.add_all xs s = s ++ added.
Proof.
  revert s. induction xs as [|x xs IH]; intros s; simpl.
  - exists []. rewrite app_nil_r. reflexivity.
  - destruct (IH (JsSet.add x s)) as [added ->]. unfold JsSet.add.
    destruct (JsSet.has x s).
    + exists added. reflexivity.
    + exists ([x] ++ added). rewrite app_assoc. reflexivity.
Qed.

Lemma subscribeFn_fold (streams s : list string) :
  foldl (fun acc stream =>
           if negb (JsSet.has stream acc) then JsSet.add stream acc else acc)
        s streams
  = JsSet.add_all streams s.
Proof.
  revert s. induction streams as [|x xs IH]; intros s; simpl; [reflexivity|].
  rewrite <- IH. f_equal. unfold JsSet.add. destruct (JsSet.has x s); reflexivity.
Qed.

(** X17.  The function the settings manager subscribes with only adds: the
    streams already subscribed stay where they are, the streams asked for
    are subscribed afterwards, nothing else is, and no stream comes to be
    listed twice. *)
Theorem subscribeFn_only_adds (st : TpaSession) (streams : list string) :
  let subs' := subscriptions (run (subscribeFn streams) st) in
  (exists added, subs' = subscriptions st ++ added)
  /\ (forall x, x ∈ subs' <-> x ∈ streams \/ x ∈ subscriptions st)
  /\ (NoDup (subscriptions st) -> NoDup subs').
Proof.
  intros subs'.
  assert (subs' = JsSet.add_all streams (subscriptions st)) as ->.
  { unfold subs', run, subscribeFn. rewrite run_modify_then.
    rewrite publish_preserves_subscriptions. simpl. apply subscribeFn_fold. }
  split; [apply add_all_extends|].
  split; [intros x; apply elem_of_add_all | apply NoDup_add_all].
Qed.

(** X18.  A settings-based subscription handler that is installed before any
    settings are known changes nothing at first: the subscriptions stay and
    nothing is written. It is applied to the settings that come later: after
    [updateSettingsForTesting] the session is subscribed to what the handler
    returns for the new settings, and to nothing else. *)
Theorem subscription_handler_applies_to_later_settings
    (st : TpaSession) (triggers : list string)
    (handler : JsValue -> Completion (list string))
    (newSettings : JsValue) (wanted : list string) :
  length_positive (settingsData st) = Normal false ->
  throws (settings_updateSettings newSettings) = false ->
  handler newSettings = Normal wanted ->
  let installed := run (setSubscriptionSettings triggers handler) st in
  subscriptions installed = subscriptions st
  /\ sent installed = sent st
  /\ subscriptions (run (updateSettingsForTesting newSettings) installed)
     = JsSet.add_all wanted [].
Proof.
  intros Hempty Hupd Hwanted installed.
  assert (installed = set_subscriptionSettings handler triggers st) as Hinstalled.
  { unfold installed, run, setSubscriptionSettings.
    rewrite bind_modify, bind_gets. cbv beta. rewrite bind_liftC.
    change (settingsData (set_subscriptionSettings handler triggers st))
      with (settingsData st).
    rewrite Hempty. reflexivity. }
  rewrite Hinstalled. split; [reflexivity|]. split; [reflexivity|].
  unfold run, updateSettingsForTesting. rewrite bind_modify, bind_liftC.
  destruct (settings_updateSettings newSettings) as [changes|e]; [|discriminate].
  rewrite bind_gets. cbv beta. rewrite bind_emit, bind_gets. cbv beta.
  match goal with
  | |- context [if ?b then _ else _] => change b with true
  end.
  cbv iota.
  match goal with
  | |- context [updateSubscriptionsFromSettings ?s] =>
      apply (updateSubscriptionsFromSettings_subscriptions s handler wanted);
        [reflexivity | exact Hwanted]
  end.
Qed.

(** X19.  [connect] binds the session to the identifier before anything can
    fail: whatever the network does and however the call settles, the
    session is bound to that identifier afterwards, and [getSessionId]
    returns it when it is not empty. *)
Theorem connect_binds_session_id (st : TpaSession) (sid : string) (net : Network) :
  sessionId (run (connect sid net) st) = Some sid
  /\ (JsString.nonempty sid = true ->
      getSessionId (run (connect sid net) st) = sid).
Proof.
  assert (sessionId (run (connect sid net) st) = Some sid) as Hsid.
  { unfold run, connect. rewrite bind_modify.
    match goal with
    | |- sessionId (fst (?m ?s)) = _ =>
        assert (preserves sessionId m) as Hk
    end.
    { pose proof (emit_ignored sessionId (fun _ _ => eq_refl)).
      pose proof (send_ignored sessionId (fun _ _ => eq_refl) (fun _ _ => eq_refl)).
      pose proof (handleMessage_ignored sessionId
                    (fun _ _ => eq_refl) (fun _ _ => eq_refl) (fun _ _ => eq_refl)
                    (fun _ _ => eq_refl) (fun _ _ => eq_refl) (fun _ _ => eq_refl)
                    (fun _ _ => eq_refl)
                    (updateSubscriptionsFromSettings_ignored sessionId
                       (fun _ _ => eq_refl) (fun _ _ => eq_refl) (fun _ _ => eq_refl))).
      cbv beta. unfold setTimeout, sendConnectionInit. frame. }
    rewrite Hk. reflexivity. }
  split; [exact Hsid|]. intros Hnonempty. unfold getSessionId.
  rewrite Hsid, Hnonempty. reflexivity.
Qed.

End SettingsAndIdentity.

(** A handler that asks for [transcription] once captions are enabled. *)
Lemma subscription_handler_applies_to_later_settings_witness :
  let handler := fun _ : JsValue => Normal ["transcription"] in
  let installed :=
    run (setSubscriptionSettings (Ext := Sample.externals) ["captions"] handler)
        Sample.connected in
  subscriptions
    (run (updateSettingsForTesting (Ext := Sample.externals)
            (JArr [JObj [("key", JStr "captions"); ("value", JBool true)]]))
       installed)
  = ["transcription"].
Proof.
  intros handler installed.
  apply (subscription_handler_applies_to_later_settings (Ext := Sample.externals)
           Sample.connected ["captions"] handler
           (JArr [JObj [("key", JStr "captions"); ("value", JBool true)]])
           ["transcription"]); reflexivity.
Defined.

(** The settings manager asks for two streams, one of which the session
    already has. *)
Lemma subscribeFn_only_adds_witness :
  let st := set_subscriptions ["transcription"] Sample.idle in
  NoDup (subscriptions
           (run (subscribeFn (Ext := Sample.externals) ["transcription"; "location_update"])
                st)).
Proof.
  intros st.
  apply (subscribeFn_only_adds (Ext := Sample.externals) st
           ["transcription"; "location_update"]).
  apply NoDup_singleton.
Defined.

(** A connection attempt for [S1] on which the socket never opens. *)
Lemma connect_binds_session_id_witness :
  getSessionId (run (connect (Ext := Sample.externals) "S1" SocketNeverOpens) Sample.idle)
  = "S1".
Proof.
  apply (connect_binds_session_id (Ext := Sample.externals) Sample.idle "S1"
           SocketNeverOpens).
  reflexivity.
Defined.

(** * Further properties of the user record *)

Section UserRecordFurther.
Import UserModel.

Lemma existsb_eqb_elem_of (name : string) (l : list string) :
  existsb (String.eqb name) l = bool_decide (name ∈ l).
Proof.
  destruct (bool_decide (name ∈ l)) eqn:H.
  - apply bool_decide_eq_true in H. apply existsb_exists.
    exists name. split; [apply list_elem_of_In, H | apply String.eqb_refl].
  - apply bool_decide_eq_false in H. apply not_true_is_false. intros Hex.
    apply existsb_exists in Hex as [x [Hin Heq]]. apply String.eqb_eq in Heq as ->.
    apply H, list_elem_of_In, Hin.
Qed.

Lemma isAppRunning_spec u name : isAppRunning u name = bool_decide (name ∈ runningApps u).
Proof. apply existsb_eqb_elem_of. Qed.

Lemma elem_of_unique (name : string) (l : list string) : name ∈ unique l <-> name ∈ l.
Proof. unfold unique. rewrite elem_of_add_all, elem_of_nil. tauto. Qed.

Lemma existsb_filter {A} (p q : A -> bool) (l : list A) :
  existsb p (List.filter q l) = existsb (fun x => p x && q x) l.
Proof.
  induction l as [|x l IH]; simpl; [reflexivity|].
  destruct (q x); simpl; rewrite IH; [rewrite andb_true_r | rewrite andb_false_r];
    reflexivity.
Qed.

Lemma filter_out_fresh (apps : list InstalledApp) (name : string) :
  name ∉ packageName <$> apps ->
  List.filter (fun app => negb (String.eqb (packageName app) name)) apps = apps.
Proof.
  induction apps as [|app apps IH]; simpl; [reflexivity|].
  rewrite not_elem_of_cons. intros [Hne Hfresh].
  destruct (String.eqb_spec (packageName app) name) as [Heq|_]; [congruence|].
  simpl. rewrite IH by exact Hfresh. reflexivity.
Qed.

Section Installed.
Context `{DB : Mongoose}.

(** X20.  [uninstallApp] removes the package it names and no other:
    afterwards a package is installed exactly when it was installed before
    and is not the one that was removed. It undoes [installApp]: installing
    a package that was not installed and uninstalling it again leaves the
    list of installed packages as it was. *)
Theorem uninstallApp_removes_only_that_package
    (u : UserDocument) (name : string) (now : Z) :
  (forall other,
      isAppInstalled (uninstallApp name u).1 other
      = isAppInstalled u other && negb (String.eqb other name))
  /\ (isAppInstalled u name = false ->
      installedPackages (uninstallApp name (installApp name now u).1).1
      = installedPackages u).
Proof.
  split.
  - intros other. unfold uninstallApp. destruct (isAppInstalled u name) eqn:Hin.
    + unfold isAppInstalled in *. rewrite save_installedApps. simpl.
      destruct (installedApps u) as [apps|]; [|discriminate]. simpl.
      rewrite existsb_filter. clear Hin.
      induction apps as [|app apps IH]; simpl; [reflexivity|].
      rewrite IH.
      destruct (String.eqb_spec (packageName app) other) as [->|Hne]; simpl.
      * destruct (String.eqb other name); simpl; [|reflexivity].
        rewrite !andb_false_r. reflexivity.
      * reflexivity.
    + destruct (String.eqb_spec other name) as [->|Hne]; simpl.
      * rewrite Hin. reflexivity.
      * rewrite andb_true_r. reflexivity.
  - intros Hnot.
    assert (name ∉ installedPackages u) as Hfresh.
    { rewrite <- isAppInstalled_spec, Hnot. discriminate. }
    unfold uninstallApp. rewrite installApp_installed.
    unfold installedPackages in *. rewrite save_installedApps. simpl.
    unfold installApp. rewrite Hnot. simpl. rewrite save_installedApps. simpl.
    rewrite List.filter_app. simpl. rewrite String.eqb_refl. simpl.
    rewrite app_nil_r, filter_out_fresh by exact Hfresh. reflexivity.
Qed.

Lemma elem_of_filter_other (x name : string) (l : list string) :
  x ∈ List.filter (fun app => negb (String.eqb app name)) l <-> x ∈ l /\ x <> name.
Proof.
  rewrite !list_elem_of_In, filter_In, negb_true_iff, String.eqb_neq. reflexivity.
Qed.

(** X21.  The running apps behave as a set: after [addRunningApp] an app
    runs exactly when it ran before or is the one that was added, and after
    [removeRunningApp] exactly when it ran before and is not the one that
    was removed. *)
Theorem running_apps_form_a_set (u : UserDocument) (name other : string) :
  isAppRunning (addRunningApp name u).1 other
  = isAppRunning u other || String.eqb other name
  /\ isAppRunning (removeRunningApp name u).1 other
     = isAppRunning u other && negb (String.eqb other name).
Proof.
  split.
  - unfold addRunningApp. destruct (isAppRunning u name) eqn:Hrun; simpl.
    + destruct (String.eqb_spec other name) as [->|_];
        [rewrite Hrun | rewrite orb_false_r]; reflexivity.
    + rewrite !isAppRunning_spec.
      destruct (String.eqb_spec other name) as [->|Hne].
      * rewrite orb_true_r. apply bool_decide_eq_true_2.
        apply save_runningApps. simpl. apply elem_of_app. right. left.
      * rewrite orb_false_r. apply bool_decide_ext.
        rewrite save_runningApps. simpl.
        rewrite elem_of_app, list_elem_of_singleton. tauto.
  - unfold removeRunningApp. destruct (isAppRunning u name) eqn:Hrun; simpl.
    + rewrite !isAppRunning_spec.
      destruct (String.eqb_spec other name) as [->|Hne].
      * rewrite andb_false_r. apply bool_decide_eq_false_2.
        rewrite save_runningApps. simpl. rewrite elem_of_filter_other. tauto.
      * rewrite andb_true_r. apply bool_decide_ext.
        rewrite save_runningApps. simpl. rewrite elem_of_filter_other. tauto.
    + destruct (String.eqb_spec other name) as [->|_];
        [rewrite Hrun | rewrite andb_true_r]; reflexivity.
Qed.

Lemma lower_char_idempotent c :
  JsString.lower_char (JsString.lower_char c) = JsString.lower_char c.
Proof. destruct c as [[] [] [] [] [] [] [] []]; reflexivity. Qed.

Lemma toLowerCase_idempotent s :
  JsString.toLowerCase (JsString.toLowerCase s) = JsString.toLowerCase s.
Proof.
  induction s as [|c s IH]; simpl; [reflexivity|].
  rewrite lower_char_idempotent, IH. reflexivity.
Qed.

(** X22.  Saving is idempotent: the pre-save middleware changes nothing in
    a document it has just been run on, and a second [save] leaves the
    document as the first one left it, whether or not they are rejected. *)
Theorem save_idempotent (u : UserDocument) :
  pre_save (pre_save u) = pre_save u
  /\ (save (save u).1).1 = (save u).1.
Proof.
  assert (forall v, pre_save (pre_save v) = pre_save v) as Hhook.
  { intros v. unfold pre_save at 1. rewrite pre_save_email.
    change (runningApps (pre_save v)) with (unique (runningApps v)).
    rewrite toLowerCase_idempotent, (unique_id _ (unique_NoDup _)).
    assert ((if JsString.nonempty (JsString.toLowerCase (email v))
             then JsString.toLowerCase (email v)
             else JsString.toLowerCase (email v))
            = JsString.toLowerCase (email v)) as ->
      by (destruct (JsString.nonempty _); reflexivity).
    unfold pre_save. simpl. f_equal.
    destruct (JsString.nonempty (email v)) eqn:Hne; [reflexivity|].
    unfold JsString.nonempty in Hne. apply negb_false_iff, String.eqb_eq in Hne.
    rewrite Hne. reflexivity. }
  split; [apply Hhook|].
  destruct (save_cases u) as [[_ Hu]|[_ Hu]]; rewrite Hu; cbn [fst].
  - rewrite Hu. reflexivity.
  - destruct (save_cases (pre_save u)) as [[_ ->]|[_ ->]]; cbn [fst];
      [reflexivity | apply Hhook].
Qed.

End Installed.

End UserRecordFurther.

(** A new user installs and uninstalls [com.acme.notes]. *)
Lemma uninstallApp_removes_only_that_package_witness :
  UserModel.installedPackages
    (UserModel.uninstallApp (DB := Sample.mongoose) "com.acme.notes"
       (UserModel.installApp (DB := Sample.mongoose) "com.acme.notes" 1700000000000
          (UserModel.create "u@example.com")).1).1
  = [].
Proof.
  apply (uninstallApp_removes_only_that_package (DB := Sample.mongoose)
           (UserModel.create "u@example.com") "com.acme.notes" 1700000000000).
  reflexivity.
Defined.

(** ** The settings of an app *)

Section AppSettings.
Import UserModel.

Lemma assoc_app (k : string) (xs ys : list (string * JsValue)) :
  Js.assoc k (xs ++ ys)
  = match Js.assoc k xs with Some v => Some v | None => Js.assoc k ys end.
Proof.
  induction xs as [|[k' v'] xs IH]; simpl; [reflexivity|].
  destruct (String.eqb k k'); [reflexivity | exact IH].
Qed.

(** The value a key has after its bindings have been assigned one after
    the other: that of the last binding, or else the one it had. *)
Lemma assoc_foldl_assign (k : string) (bindings acc : list (string * JsValue)) :
  Js.assoc k (foldl (fun acc entry => Js.assign entry.1 entry.2 acc) acc bindings)
  = match Js.assoc k (reverse bindings) with
    | Some v => Some v
    | None => Js.assoc k acc
    end.
Proof.
  revert acc. induction bindings as [|[k' v'] bindings IH]; intros acc; simpl;
    [reflexivity|].
  rewrite IH, reverse_cons, assoc_app, assoc_assign. simpl.
  destruct (Js.assoc k (reverse bindings)); [reflexivity|].
  destruct (String.eqb k k'); reflexivity.
Qed.

(** The bindings of a payload: the updates that have a key. *)
Lemma merge_settings_bindings existing updates :
  merge_settings existing updates
  = foldl (fun acc entry => Js.assign entry.1 entry.2 acc) []
      (existing ++ omap (fun update => (fun k => (k, value update)) <$> key update)
                        updates).
Proof.
  unfold merge_settings. rewrite foldl_app.
  generalize (foldl (fun acc entry => Js.assign entry.1 entry.2 acc) [] existing).
  induction updates as [|update updates IH]; intros acc; simpl; [reflexivity|].
  destruct (key update) as [k|]; simpl; apply IH.
Qed.

Lemma elem_of_keys_assign (x k : string) (v : JsValue)
    (fields : list (string * JsValue)) :
  x ∈ fst <$> Js.assign k v fields -> x = k \/ x ∈ fst <$> fields.
Proof.
  induction fields as [|[k0 v0] fields IH]; simpl.
  - rewrite list_elem_of_singleton. auto.
  - destruct (String.eqb k k0); simpl; rewrite !elem_of_cons; [tauto|].
    intros [->|Hin]; [auto|]. destruct (IH Hin); auto.
Qed.

Lemma keys_assign (k : string) (v : JsValue) (fields : list (string * JsValue)) :
  NoDup (fst <$> fields) -> NoDup (fst <$> Js.assign k v fields).
Proof.
  induction fields as [|[k' v'] fields IH]; simpl.
  - intros _. apply NoDup_singleton.
  - rewrite !NoDup_cons. intros [Hfresh Hnodup].
    destruct (String.eqb_spec k k') as [->|Hne]; simpl.
    + rewrite NoDup_cons. split; assumption.
    + rewrite NoDup_cons. split; [|apply IH, Hnodup].
      intros Hin. apply elem_of_keys_assign in Hin as [->|Hin]; [congruence|].
      apply Hfresh, Hin.
Qed.

Lemma keys_foldl_assign (bindings acc : list (string * JsValue)) :
  NoDup (fst <$> acc) ->
  NoDup (fst <$> foldl (fun acc entry => Js.assign entry.1 entry.2 acc) acc bindings).
Proof.
  revert acc. induction bindings as [|entry bindings IH]; intros acc Hacc; simpl;
    [exact Hacc|].
  apply IH, keys_assign, Hacc.
Qed.

Section Merging.
Context `{DB : Mongoose}.

(** X23.  [updateAppSettings] merges: afterwards [getAppSettings] returns
    the settings of the app, in which a key has the value of the last update
    of the payload that names it, or else the value that was stored for it;
    updates without a key are ignored. *)
Theorem updateAppSettings_merges
    (sanitizeKey : string -> string) (appName : string)
    (settings : list AppSettingUpdate) (u : UserDocument) (k : string) :
  let stored := default [] (UserQueries.getAppSettings sanitizeKey appName u) in
  let bindings :=
    omap (fun update => (fun k => (k, value update)) <$> key update) settings in
  exists merged,
    UserQueries.getAppSettings sanitizeKey appName
      (updateAppSettings sanitizeKey appName settings u).1 = Some merged
    /\ Js.assoc k merged
       = match Js.assoc k (reverse bindings) with
         | Some v => Some v
         | None => Js.assoc k (reverse stored)
         end.
Proof.
  intros stored bindings. exists (merge_settings stored settings). split.
  - unfold UserQueries.getAppSettings, updateAppSettings.
    rewrite save_appSettings. simpl. apply lookup_insert_eq.
  - rewrite merge_settings_bindings, assoc_foldl_assign.
    fold bindings. rewrite reverse_app, assoc_app. simpl.
    destruct (Js.assoc k (reverse bindings)); [reflexivity|].
    destruct (Js.assoc k (reverse stored)); reflexivity.
Qed.

(** X24.  The settings stored by [updateAppSettings] name every key once,
    and the settings of the apps stored under another key are not touched. *)
Theorem updateAppSettings_keeps_keys_apart
    (sanitizeKey : string -> string) (appName other : string)
    (settings : list AppSettingUpdate) (u : UserDocument) :
  let u' := (updateAppSettings sanitizeKey appName settings u).1 in
  NoDup (fst <$> default [] (UserQueries.getAppSettings sanitizeKey appName u'))
  /\ (sanitizeKey other <> sanitizeKey appName ->
      UserQueries.getAppSettings sanitizeKey other u'
      = UserQueries.getAppSettings sanitizeKey other u).
Proof.
  intros u'. unfold u', UserQueries.getAppSettings, updateAppSettings.
  rewrite save_appSettings. simpl. split.
  - rewrite lookup_insert_eq. simpl. rewrite merge_settings_bindings.
    apply keys_foldl_assign, NoDup_nil_2.
  - intros Hne. apply lookup_insert_ne. congruence.
Qed.

End Merging.

End AppSettings.

(** Two updates of the same key, for an app without stored settings. *)
Lemma updateAppSettings_keeps_keys_apart_witness :
  let u' :=
    (UserModel.updateAppSettings (DB := Sample.mongoose) (fun name => name)
       "com.acme.notes"
       [{| UserModel.key := Some "size"; UserModel.value := JNum 1 |};
        {| UserModel.key := Some "size"; UserModel.value := JNum 2 |}]
       (UserModel.create "u@example.com")).1 in
  UserQueries.getAppSettings (fun name => name) "com.acme.mail" u' = None.
Proof.
  intros u'.
  apply (updateAppSettings_keeps_keys_apart (DB := Sample.mongoose) (fun name => name)
           "com.acme.notes" "com.acme.mail"
           [{| UserModel.key := Some "size"; UserModel.value := JNum 1 |};
            {| UserModel.key := Some "size"; UserModel.value := JNum 2 |}]
           (UserModel.create "u@example.com")).
  discriminate.
Defined.

(** ** The list of the installed apps of a user *)

Section InstalledAppList.
Import UserQueries.

Lemma listed_spec (result : list ListedApp) (name : string) :
  listed result name = true <-> name ∈ listed_packageName <$> result.
Proof.
  unfold listed. rewrite existsb_exists, list_elem_of_fmap. split.
  - intros [entry [Hin Heq]]. apply String.eqb_eq in Heq.
    exists entry. split; [congruence | apply list_elem_of_In, Hin].
  - intros [entry [Heq Hin]]. exists entry.
    split; [apply list_elem_of_In, Hin | apply String.eqb_eq; congruence].
Qed.

Lemma includes_elem_of (names : list string) (name : string) :
  includes names name = true <-> name ∈ names.
Proof.
  unfold includes. rewrite existsb_eqb_elem_of. apply bool_decide_eq_true.
Qed.

(** Pushing an entry unless its package is listed: the names grow by the
    names pushed, and stay free of repetitions. *)
Lemma push_unlisted {A} (name_of : A -> string) (entry_of : A -> ListedApp)
    (items : list A) (result : list ListedApp) :
  (forall item, listed_packageName (entry_of item) = name_of item) ->
  let result' :=
    foldl (fun result item =>
             if negb (listed result (name_of item))
             then result ++ [entry_of item] else result) result items in
  (exists pushed, result' = result ++ pushed
                  /\ Forall (fun entry => exists item, item ∈ items
                                                       /\ entry = entry_of item) pushed)
  /\ (forall name, name ∈ listed_packageName <$> result'
        <-> name ∈ listed_packageName <$> result \/ name ∈ name_of <$> items)
  /\ (NoDup (listed_packageName <$> result) -> NoDup (listed_packageName <$> result')).
Proof.
  intros Hname. revert result.
  induction items as [|item items IH]; intros result; simpl.
  - split; [exists []; rewrite app_nil_r; split; [reflexivity | constructor]|].
    split; [|auto]. intros name. rewrite elem_of_nil. tauto.
  - destruct (listed result (name_of item)) eqn:Hlisted; simpl.
    + destruct (IH result) as ((pushed & Hpushed & Hall) & Hnames & Hnodup).
      split; [|split].
      * exists pushed. split; [exact Hpushed|].
        eapply Forall_impl; [exact Hall|]. intros entry (i & Hi & ->).
        exists i. split; [apply elem_of_cons; auto | reflexivity].
      * intros name. rewrite Hnames, elem_of_cons. apply listed_spec in Hlisted.
        split; [tauto|]. intros [H|[->|H]]; auto.
      * exact Hnodup.
    + destruct (IH (result ++ [entry_of item]))
        as ((pushed & Hpushed & Hall) & Hnames & Hnodup).
      split; [|split].
      * exists (entry_of item :: pushed). split.
        -- rewrite Hpushed, <- app_assoc. reflexivity.
        -- constructor; [exists item; split; [left | reflexivity]|].
           eapply Forall_impl; [exact Hall|]. intros entry (i & Hi & ->).
           exists i. split; [apply elem_of_cons; auto | reflexivity].
      * intros name. rewrite Hnames, fmap_app, elem_of_app, elem_of_cons. simpl.
        rewrite list_elem_of_singleton, Hname. tauto.
      * intros Hresult. apply Hnodup. rewrite fmap_app. simpl.
        apply NoDup_app. split; [exact Hresult|]. split; [|apply NoDup_singleton].
        intros name Hin Hin'. apply list_elem_of_singleton in Hin'. subst name.
        rewrite Hname in Hin. apply listed_spec in Hin. congruence.
Qed.

Lemma system_entries_names installed dates now (apps : list AppI) :
  listed_packageName <$> (system_entry installed dates now <$> apps)
  = packageName <$> apps.
Proof. induction apps as [|app apps IH]; simpl; [reflexivity | f_equal; exact IH]. Qed.

Lemma system_entries_flagged installed dates now (apps : list AppI) :
  Forall (fun entry => isSystemApp entry = JBool true)
    (system_entry installed dates now <$> apps).
Proof. induction apps; simpl; constructor; [reflexivity | assumption]. Qed.

Lemma length_zero_nil {A} (l : list A) : (0 <? length l)%nat = false -> l = [].
Proof. destruct l; [reflexivity | discriminate]. Qed.

Section Query.
Variable findOne : string -> Completion (option UserModel.UserDocument).
Variables LOCAL_APPS SYSTEM_TPAS : list AppI.
Variable collection : Completion (list AppI).
Variable now : Z.

(** X25.  When the queries succeed, the list names exactly the predefined
    apps and the packages the user has installed: every installed package is
    listed, whether the app service, the [App] collection or no one knows
    it, and nothing else is. *)
Theorem findUserInstalledApps_lists_exactly
    (email : string) (user : option UserModel.UserDocument) (all : list AppI)
    (name : string) :
  JsString.nonempty email = true ->
  findOne (JsString.toLowerCase email) = Normal user ->
  collection = Normal all ->
  name ∈ listed_packageName
         <$> findUserInstalledApps findOne LOCAL_APPS SYSTEM_TPAS collection now email
  <-> name ∈ packageName <$> (LOCAL_APPS ++ SYSTEM_TPAS)
      \/ name ∈ UserModel.packageName
                <$> default [] (user ≫= UserModel.installedApps).
Proof.
  intros Hemail Huser Hcollection. unfold findUserInstalledApps.
  rewrite Hemail, Huser, bind_normal, Hcollection. simpl negb. cbv iota zeta.
  unfold mret, completion_ret.
  set (installedApps := default [] (user ≫= UserModel.installedApps)).
  set (installed := UserModel.packageName <$> installedApps).
  set (result := system_entry installed (installDate installedApps) now
                 <$> (LOCAL_APPS ++ SYSTEM_TPAS)).
  set (remaining := List.filter _ installed).
  assert (forall x, x ∈ remaining
                    <-> x ∈ installed /\ x ∉ packageName <$> (LOCAL_APPS ++ SYSTEM_TPAS))
    as Hremaining.
  { intros x. unfold remaining.
    rewrite list_elem_of_In, filter_In, <- list_elem_of_In, negb_true_iff.
    rewrite <- not_true_iff_false, includes_elem_of.
    unfold result. rewrite system_entries_names. reflexivity. }
  assert (listed_packageName <$> result = packageName <$> (LOCAL_APPS ++ SYSTEM_TPAS))
    as Hresult by apply system_entries_names.
  destruct (0 <? length installed)%nat eqn:Hany.
  2:{ cbv iota. apply length_zero_nil in Hany.
      rewrite Hany, Hresult, elem_of_nil. tauto. }
  destruct (0 <? length remaining)%nat eqn:Hrest.
  2:{ cbv iota. apply length_zero_nil in Hrest. rewrite Hresult. split; [auto|].
      intros [H|H]; [exact H|].
      destruct (decide (name ∈ packageName <$> (LOCAL_APPS ++ SYSTEM_TPAS)))
        as [Hin|Hout]; [exact Hin|].
      assert (name ∈ remaining) as Hin by (apply Hremaining; auto).
      rewrite Hrest in Hin. apply elem_of_nil in Hin. contradiction. }
  rewrite bind_normal. cbv iota.
  set (dbApps := List.filter _ all).
  unfold push_bare_apps, push_store_apps.
  pose proof (push_unlisted (fun name : string => name)
                (fun name => BareApp name (installDate installedApps name))
                remaining
                (foldl (fun result dbApp =>
                          if negb (listed result (packageName dbApp))
                          then result ++ [StoreApp dbApp
                                            (installDate installedApps (packageName dbApp))]
                          else result) result dbApps)
                (fun _ => eq_refl)) as (_ & Hbare & _).
  pose proof (push_unlisted packageName
                (fun dbApp => StoreApp dbApp (installDate installedApps (packageName dbApp)))
                dbApps result (fun _ => eq_refl)) as (_ & Hstore & _).
  cbv zeta in Hbare, Hstore. rewrite Hbare, Hstore, Hresult, list_fmap_id.
  assert (forall x, x ∈ packageName <$> dbApps -> x ∈ remaining) as Hdb.
  { intros x Hx. apply list_elem_of_fmap in Hx as (app & -> & Hin).
    unfold dbApps in Hin. rewrite list_elem_of_In, filter_In in Hin.
    apply includes_elem_of. tauto. }
  split.
  - intros [[H|H]|H]; [auto | |].
    + right. apply Hdb, Hremaining in H. tauto.
    + right. apply Hremaining in H. tauto.
  - intros [H|H]; [auto|].
    destruct (decide (name ∈ packageName <$> (LOCAL_APPS ++ SYSTEM_TPAS)))
      as [Hin|Hout]; [auto|].
    right. apply Hremaining. auto.
Qed.

(** X26.  The predefined apps are always listed, first and in their order,
    flagged as system apps, whether or not the user installed them and even
    when the look-up of the user or of the apps fails.  What follows them
    is an app of the [App] collection, flagged exactly as its stored
    document is, or a bare entry, which has no flag.  Without an e-mail
    address the list is empty. *)
Theorem findUserInstalledApps_system_apps_first (email : string) :
  let result :=
    findUserInstalledApps findOne LOCAL_APPS SYSTEM_TPAS collection now email in
  (JsString.nonempty email = false -> result = [])
  /\ (JsString.nonempty email = true ->
      exists system rest,
        result = system ++ rest
        /\ listed_packageName <$> system = packageName <$> (LOCAL_APPS ++ SYSTEM_TPAS)
        /\ Forall (fun entry => isSystemApp entry = JBool true) system
        /\ Forall (listed_after collection) rest).
Proof.
  intros result. unfold result, findUserInstalledApps. split.
  { intros ->. reflexivity. }
  intros ->. simpl negb. cbv iota zeta.
  assert (forall installed dates (pushed listing : list ListedApp),
            listing
            = (system_entry installed dates now <$> (LOCAL_APPS ++ SYSTEM_TPAS)) ++ pushed ->
            Forall (listed_after collection) pushed ->
            exists system rest,
              listing = system ++ rest
              /\ listed_packageName <$> system = packageName <$> (LOCAL_APPS ++ SYSTEM_TPAS)
              /\ Forall (fun entry => isSystemApp entry = JBool true) system
              /\ Forall (listed_after collection) rest) as Hshape.
  { intros installed dates pushed listing -> Hpushed. eexists _, pushed.
    split; [reflexivity|]. split; [apply system_entries_names|].
    split; [apply system_entries_flagged | exact Hpushed]. }
  assert (forall installed dates (listing : list ListedApp),
            listing
            = system_entry installed dates now <$> (LOCAL_APPS ++ SYSTEM_TPAS) ->
            exists system rest,
              listing = system ++ rest
              /\ listed_packageName <$> system = packageName <$> (LOCAL_APPS ++ SYSTEM_TPAS)
              /\ Forall (fun entry => isSystemApp entry = JBool true) system
              /\ Forall (listed_after collection) rest) as Hplain.
  { intros installed dates listing ->. apply (Hshape installed dates []).
    - rewrite app_nil_r. reflexivity.
    - constructor. }
  destruct (findOne (JsString.toLowerCase email)) as [user|e].
  2:{ eapply Hplain. reflexivity. }
  rewrite bind_normal. cbv zeta. unfold mret, completion_ret.
  set (installedApps := default [] (user ≫= UserModel.installedApps)).
  set (installed := UserModel.packageName <$> installedApps).
  set (result0 := system_entry installed (installDate installedApps) now
                  <$> (LOCAL_APPS ++ SYSTEM_TPAS)).
  destruct (0 <? length installed)%nat; [|eapply Hplain; reflexivity].
  destruct (0 <? length (List.filter _ installed))%nat; [|eapply Hplain; reflexivity].
  destruct collection as [all|e] eqn:Hcollection; [|eapply Hplain; reflexivity].
  rewrite bind_normal. cbv iota.
  unfold push_bare_apps, push_store_apps.
  match goal with
  | |- context [foldl _ (foldl _ result0 ?dbApps) ?remaining] =>
      pose proof (push_unlisted packageName
                    (fun dbApp =>
                       StoreApp dbApp (installDate installedApps (packageName dbApp)))
                    dbApps result0 (fun _ => eq_refl))
        as ((stored & Hstored & Hstore) & _ & _);
      cbv zeta in Hstored; rewrite Hstored;
      pose proof (push_unlisted (fun name : string => name)
                    (fun name => BareApp name (installDate installedApps name))
                    remaining (result0 ++ stored) (fun _ => eq_refl))
        as ((bare & Hbare & Hbares) & _ & _);
      cbv zeta in Hbare; rewrite Hbare
  end.
  eapply (Hshape _ _ (stored ++ bare)); [rewrite app_assoc; reflexivity|].
  apply Forall_app. split.
  - eapply Forall_impl; [exact Hstore|]. intros entry (item & Hitem & ->).
    left. exists item, (installDate installedApps (packageName item)), all.
    split; [reflexivity|]. split; [reflexivity|]. split; [|reflexivity].
    apply list_elem_of_In, filter_In in Hitem. apply list_elem_of_In. tauto.
  - eapply Forall_impl; [exact Hbares|]. intros entry (item & _ & ->).
    right. exists item, (installDate installedApps item). split; reflexivity.
Qed.

(** X27.  When the app service names no package twice, the list names no
    package twice either, whatever the user record and the [App] collection
    hold and even when a query fails. *)
Theorem findUserInstalledApps_names_unique (email : string) :
  NoDup (packageName <$> (LOCAL_APPS ++ SYSTEM_TPAS)) ->
  NoDup (listed_packageName
           <$> findUserInstalledApps findOne LOCAL_APPS SYSTEM_TPAS collection now email).
Proof.
  intros Hpredefined. unfold findUserInstalledApps.
  destruct (JsString.nonempty email); simpl negb; cbv iota zeta; [|apply NoDup_nil_2].
  assert (forall installed dates,
            NoDup (listed_packageName
                     <$> (system_entry installed dates now
                          <$> (LOCAL_APPS ++ SYSTEM_TPAS)))) as Hsystem.
  { intros installed dates. rewrite system_entries_names. exact Hpredefined. }
  destruct (findOne (JsString.toLowerCase email)) as [user|e]; [|apply Hsystem].
  rewrite bind_normal. cbv zeta. unfold mret, completion_ret.
  set (installedApps := default [] (user ≫= UserModel.installedApps)).
  set (installed := UserModel.packageName <$> installedApps).
  destruct (0 <? length installed)%nat; [|cbv iota; apply Hsystem].
  destruct (0 <? length (List.filter _ installed))%nat; [|cbv iota; apply Hsystem].
  destruct collection as [all|e]; [|apply Hsystem].
  rewrite bind_normal. cbv iota.
  unfold push_bare_apps, push_store_apps.
  match goal with
  | |- context [foldl _ (foldl _ ?result0 ?dbApps) ?remaining] =>
      pose proof (push_unlisted packageName
                    (fun dbApp =>
                       StoreApp dbApp (installDate installedApps (packageName dbApp)))
                    dbApps result0 (fun _ => eq_refl))
        as (_ & _ & Hstore);
      pose proof (push_unlisted (fun name : string => name)
                    (fun name => BareApp name (installDate installedApps name))
                    remaining
                    (foldl (fun result dbApp =>
                              if negb (listed result (packageName dbApp))
                              then result ++ [StoreApp dbApp
                                                (installDate installedApps
                                                   (packageName dbApp))]
                              else result) result0 dbApps)
                    (fun _ => eq_refl))
        as (_ & _ & Hbare)
  end.
  apply Hbare, Hstore, Hsystem.
Qed.

End Query.

End InstalledAppList.

(** The app service knows the dashboard; the user installed the
    dashboard and an app that nobody knows. *)
Lemma findUserInstalledApps_lists_exactly_witness :
  let user :=
    (UserModel.installApp (DB := Sample.mongoose) "com.acme.notes" 2
       (UserModel.installApp (DB := Sample.mongoose) "system.dashboard" 1
          (UserModel.create "u@example.com")).1).1 in
  let dashboard :=
    {| UserQueries.packageName := "system.dashboard"; UserQueries.details := [] |} in
  "com.acme.notes"
  ∈ UserQueries.listed_packageName
    <$> UserQueries.findUserInstalledApps (fun _ => Normal (Some user))
          [] [dashboard] (Normal []) 3 "U@Example.com".
Proof.
  intros user dashboard.
  apply (findUserInstalledApps_lists_exactly (fun _ => Normal (Some user))
           [] [dashboard] (Normal []) 3 "U@Example.com" (Some user) []
           "com.acme.notes" eq_refl eq_refl eq_refl).
  right. vm_compute. apply elem_of_cons. right. apply elem_of_cons. left. reflexivity.
Defined.

(** The same app service, when the look-up of the user fails; and a
    user who installed an app that its stored document flags as a
    system app: the entry after the predefined apps carries the flag. *)
Lemma findUserInstalledApps_system_apps_first_witness :
  let dashboard :=
    {| UserQueries.packageName := "system.dashboard"; UserQueries.details := [] |} in
  let notes :=
    {| UserQueries.packageName := "com.acme.notes";
       UserQueries.details := [("isSystemApp", JBool true)] |} in
  let user :=
    UserModel.set_installedApps
      [{| UserModel.packageName := "com.acme.notes"; UserModel.installedDate := 2 |}]
      (UserModel.create "u@example.com") in
  (exists system rest,
      UserQueries.findUserInstalledApps (fun _ => Throw "connection lost")
        [] [dashboard] (Normal []) 3 "u@example.com" = system ++ rest
      /\ UserQueries.listed_packageName <$> system = ["system.dashboard"])
  /\ UserQueries.isSystemApp
       <$> UserQueries.findUserInstalledApps (fun _ => Normal (Some user))
             [] [dashboard] (Normal [notes]) 3 "u@example.com"
     = [JBool true; JBool true].
Proof.
  intros dashboard notes user. split; [|reflexivity].
  destruct (findUserInstalledApps_system_apps_first (fun _ => Throw "connection lost")
              [] [dashboard] (Normal []) 3 "u@example.com")
    as [_ Hfirst].
  destruct (Hfirst eq_refl) as (system & rest & Hresult & Hnames & _).
  exists system, rest. split; [exact Hresult | exact Hnames].
Defined.

(** The same app service and a user who installed the dashboard twice
    over: once by hand, once as a predefined app. *)
Lemma findUserInstalledApps_names_unique_witness :
  let user :=
    (UserModel.installApp (DB := Sample.mongoose) "system.dashboard" 1
       (UserModel.create "u@example.com")).1 in
  let dashboard :=
    {| UserQueries.packageName := "system.dashboard"; UserQueries.details := [] |} in
  NoDup (UserQueries.listed_packageName
           <$> UserQueries.findUserInstalledApps (fun _ => Normal (Some user))
                 [] [dashboard] (Normal [dashboard]) 3 "u@example.com").
Proof.
  intros user dashboard.
  apply (findUserInstalledApps_names_unique (fun _ => Normal (Some user))
           [] [dashboard] (Normal [dashboard]) 3 "u@example.com").
  apply NoDup_singleton.
Defined.

(** ** Settings updates and dashboard messages *)

Section SettingsUpdates.
Context `{Ext : Externals}.

(** X28.  A settings update from the cloud stores the new settings and emits
    them as ['settings_update']. With a settings-based subscription handler
    installed, the subscriptions are derived anew only when one of the
    trigger keys is among the changes the settings manager reports: then the
    session is subscribed to what the handler returns for the new settings;
    a handler that throws leaves the subscriptions as they were. *)
Theorem settings_update_rederives_subscriptions
    (st : TpaSession) (fields : list (string * JsValue)) (type : JsValue)
    (previous : list JsValue) (handler : JsValue -> Completion (list string))
    (changes : JsValue) (triggered : bool) :
  Js.assoc "type" fields = Some type ->
  branch_of (JObj fields) type = SettingsUpdate ->
  settingsData st = JArr previous ->
  subscriptionSettingsHandler st = Some handler ->
  shouldUpdateSubscriptionsOnSettingsChange st = true ->
  let settings := Js.or_else (default JUndefined (Js.assoc "settings" fields)) (JArr []) in
  settings_updateSettings settings = Normal changes ->
  (forall v, throws (settings_updateAugmentosSettings v) = false) ->
  some_key_in (subscriptionUpdateTriggers st) changes = Normal triggered ->
  let st' := run (handleMessage (JObj fields)) st in
  settingsData st' = settings
  /\ ("settings_update", settings) ∈ emitted st'
  /\ subscriptions st'
     = (if triggered then
          match handler settings with
          | Normal wanted => JsSet.add_all wanted []
          | Throw _ => subscriptions st
          end
        else subscriptions st).
Proof.
  intros Htype Hbranch Hprevious Hhandler Hshould settings Hchanges Haugmentos
    Htriggered st'.
  set (updated := set_emitted (emitted st ++ [("settings_update", settings)])
                    (set_settingsData settings st)).
  assert (handleMessage (JObj fields) st
          = try_catch (if triggered then updateSubscriptionsFromSettings else skip)
              (fun e => emit "error" (JError ("Error processing message: " +:+ e)))
              updated) as Hrun.
  { rewrite (handleMessage_object fields type st Htype), Hbranch, !try_catch_eq.
    unfold handle_branch, onSettingsUpdate.
    rewrite bind_gets, Hprevious. cbv beta iota. unfold skip at 1. rewrite bind_mret.
    rewrite get_obj, bind_liftC, bind_modify, bind_gets. cbv beta.
    change (settingsData (set_settingsData ?v ?s)) with v.
    fold settings. rewrite bind_liftC, Hchanges, bind_emit.
    match goal with
    | |- context [and_then (if ?c then liftC (settings_updateAugmentosSettings ?v)
                            else skip) ?k ?s] =>
        assert (and_then (if c then liftC (settings_updateAugmentosSettings v) else skip)
                  k s = k tt s) as ->
    end.
    { destruct (_ && _); [|reflexivity].
      rewrite bind_liftC.
      pose proof (Haugmentos (default JUndefined (Js.assoc "settings" fields))) as Hno.
      destruct (settings_updateAugmentosSettings _) as [[]|e];
        [reflexivity | discriminate]. }
    cbv beta. rewrite bind_gets. cbv beta.
    change (shouldUpdateSubscriptionsOnSettingsChange
              (set_emitted ?e (set_settingsData ?v st)))
      with (shouldUpdateSubscriptionsOnSettingsChange st).
    rewrite Hshould. rewrite bind_gets. cbv beta.
    change (subscriptionUpdateTriggers (set_emitted ?e (set_settingsData ?v st)))
      with (subscriptionUpdateTriggers st).
    rewrite bind_liftC, Htriggered. reflexivity. }
  unfold st', run. rewrite Hrun, try_catch_eq. clear Hrun.
  assert (("settings_update", settings) ∈ emitted updated) as Hemitted.
  { unfold updated. simpl. apply elem_of_app. right. left. }
  destruct triggered.
  2:{ simpl. split; [reflexivity|]. split; [exact Hemitted | reflexivity]. }
  pose proof (updateSubscriptionsFromSettings_ignored settingsData
                (fun _ _ => eq_refl) (fun _ _ => eq_refl) (fun _ _ => eq_refl) updated)
    as Hsettings.
  destruct (only_adds_updateSubscriptionsFromSettings updated)
    as (events & frames & Hevents & _).
  assert (subscriptions (fst (updateSubscriptionsFromSettings updated))
          = match handler settings with
            | Normal wanted => JsSet.add_all wanted []
            | Throw _ => subscriptions st
            end) as Hsubs.
  { destruct (handler settings) as [wanted|e] eqn:Hwanted.
    - apply (updateSubscriptionsFromSettings_subscriptions updated handler wanted);
        [exact Hhandler | exact Hwanted].
    - unfold updateSubscriptionsFromSettings. rewrite bind_gets.
      change (subscriptionSettingsHandler updated) with (subscriptionSettingsHandler st).
      rewrite Hhandler. cbv beta iota. rewrite try_catch_eq, bind_gets. cbv beta.
      change (settingsData updated) with settings.
      rewrite bind_liftC, Hwanted. reflexivity. }
  destruct (updateSubscriptionsFromSettings updated) as [final [[]|e]]; simpl in *.
  - split; [exact Hsettings|]. split; [|exact Hsubs].
    rewrite Hevents. apply elem_of_app. left. exact Hemitted.
  - split; [exact Hsettings|]. split; [|exact Hsubs].
    rewrite Hevents. apply elem_of_app. left. apply elem_of_app. left. exact Hemitted.
Qed.

(** X29.  A failure of the dashboard manager never surfaces: a message that
    reports a change of the dashboard mode or of its always-on state leaves
    the session as it is and emits nothing, not even an ['error'] event,
    whether or not the manager throws. *)
Theorem dashboard_failures_are_swallowed
    (st : TpaSession) (fields : list (string * JsValue)) (type : JsValue) :
  Js.assoc "type" fields = Some type ->
  branch_of (JObj fields) type = DashboardModeChanged
  \/ branch_of (JObj fields) type = DashboardAlwaysOnChanged ->
  handleMessage (JObj fields) st = (st, Normal tt).
Proof.
  intros Htype Hbranch.
  rewrite (handleMessage_object fields type st Htype), try_catch_eq.
  destruct Hbranch as [-> | ->]; unfold handle_branch.
  - unfold onDashboardModeChanged. rewrite try_catch_eq, get_obj, bind_liftC.
    destruct dashboard_has_content; [|reflexivity].
    unfold liftC. destruct (dashboard_setCurrentMode _) as [[]|e]; reflexivity.
  - unfold onDashboardAlwaysOnChanged. rewrite try_catch_eq, get_obj, bind_liftC.
    destruct dashboard_has_content; [|reflexivity].
    unfold liftC. destruct (dashboard_setAlwaysOnEnabled _) as [[]|e]; reflexivity.
Qed.

End SettingsUpdates.

(** A settings update that changes no trigger key, at a session with a
    handler installed and a subscription made by hand. *)
Lemma settings_update_rederives_subscriptions_witness :
  let handler := fun _ : JsValue => Normal ["transcription"] in
  let st :=
    set_subscriptionSettings handler ["captions"]
      (set_subscriptions ["button_press"] Sample.connected) in
  let update := [("type", JStr "settings_update");
                 ("settings", JArr [JObj [("key", JStr "theme");
                                          ("value", JStr "dark")]])] in
  subscriptions (run (handleMessage (Ext := Sample.externals) (JObj update)) st)
  = ["button_press"].
Proof.
  intros handler st update.
  apply (settings_update_rederives_subscriptions (Ext := Sample.externals) st update
           (JStr "settings_update") [] handler (JObj []) false);
    reflexivity.
Defined.

(** A change of the dashboard mode at a connected session. *)
Lemma dashboard_failures_are_swallowed_witness :
  handleMessage (Ext := Sample.externals)
    (JObj [("type", JStr "dashboard_mode_changed"); ("mode", JStr "main")])
    Sample.connected
  = (Sample.connected, Normal tt).
Proof.
  apply (dashboard_failures_are_swallowed (Ext := Sample.externals) Sample.connected
           [("type", JStr "dashboard_mode_changed"); ("mode", JStr "main")]
           (JStr "dashboard_mode_changed") eq_refl).
  left. reflexivity.
Defined.

(** ** The validators of the schema *)

Section SchemaValidators.
Import UserModel.

(** X30.  The validators of the schema accept exactly the lists without
    repetitions: the running apps pass when no app is listed twice, the
    installed apps when no package name is. *)
Theorem schema_validators_accept_exactly_duplicate_free
    (running : list string) (installed : list InstalledApp) :
  (runningApps_validator running = true <-> NoDup running)
  /\ (installedApps_validator installed = true <-> NoDup (packageName <$> installed)).
Proof.
  unfold runningApps_validator, installedApps_validator.
  split; apply unique_full_length.
Qed.

End SchemaValidators.
